(** * ADW orchestration core: port allocation, state store, stage executor

    A shallow embedding of the Python sources

    - [adw_modules/adw_state.py]      ([ADWState]: ports, worktree validation,
                                       phases, branch names),
    - [adw_modules/state_manager.py]  ([StateManager]: the persisted task state),
    - [adw_modules/task_processor.py] ([TaskProcessor]: stages, retries, queue,
                                       stopping a task),
    - [adw_modules/worktree_ops.py]   ([WorktreeOperations]: free ports, the
                                       worktrees git lists),
    - [adw_modules/file_ops.py]       ([FileOperations.write_json_file]),
    - [adw_orchestrator.py]           ([ADWOrchestrator]: the trigger watcher,
                                       running a task),

    the properties of them that the design document states, and further
    properties read off the code.  Python
    integers are unbounded and are modelled by [Z]; [str] by [string];
    dictionaries keyed by task id by [gmap string _]; Python sets of names
    by [gset string]. *)

From Stdlib Require Import ZArith QArith List String Ascii Bool Lia.
From Stdlib Require Import DecimalString.
From stdpp Require Import gmap strings list.

Import ListNotations.
Local Open Scope string_scope.
Local Open Scope Z_scope.

(** ** The interpreter's [hash] builtin

    [allocate_ports] and [ensure_adw_id] call Python's builtin [hash] on a
    [str].  The builtin is no part of the repository; the development takes
    it as a parameter wherever a statement holds for every hash function.
    For statements at concrete task ids the module below gives CPython's
    implementation (Python/pyhash.c, algorithm siphash13, the default from
    3.11 on): SipHash-1-3 over the string's bytes, keyed by a 128-bit secret
    that the interpreter draws when the process starts.  [PYTHONHASHSEED=0]
    makes the secret zero, [PYTHONHASHSEED=n] derives it from [n] with a
    linear congruential generator, and without the variable it is random. *)
Module CPython.

Definition u64 (x : Z) : Z := Z.land x (Z.ones 64).

Definition rotate (x b : Z) : Z :=
  u64 (Z.lor (Z.shiftl x b) (Z.shiftr x (64 - b))).

(** HALF_ROUND(a,b,c,d,s,t) of pyhash.c; the result lists the new a, b, c, d. *)
Definition half_round (a b c d s t : Z) : Z * Z * Z * Z :=
  let a := u64 (a + b) in
  let c := u64 (c + d) in
  let b := Z.lxor (rotate b s) a in
  let d := Z.lxor (rotate d t) c in
  let a := rotate a 32 in
  (a, b, c, d).

(** SINGLE_ROUND(v0,v1,v2,v3). *)
Definition single_round (v : Z * Z * Z * Z) : Z * Z * Z * Z :=
  let '(v0, v1, v2, v3) := v in
  let '(v0, v1, v2, v3) := half_round v0 v1 v2 v3 13 16 in
  let '(v2, v1, v0, v3) := half_round v2 v1 v0 v3 17 21 in
  (v0, v1, v2, v3).

(** Little-endian value of a block of bytes. *)
Fixpoint le_bytes (bs : list Z) : Z :=
  match bs with
  | [] => 0
  | b :: bs' => Z.lor b (Z.shiftl (le_bytes bs') 8)
  end.

Definition absorb (v : Z * Z * Z * Z) (mi : Z) : Z * Z * Z * Z :=
  let '(v0, v1, v2, v3) := v in
  let '(v0, v1, v2, v3) := single_round (v0, v1, v2, Z.lxor v3 mi) in
  (Z.lxor v0 mi, v1, v2, v3).

(** The [while (src_sz >= 8)] loop: whole 8-byte words are absorbed, the
    last (fewer than eight) bytes are returned.  [fuel] bounds the number
    of words. *)
Fixpoint absorb_words (fuel : nat) (v : Z * Z * Z * Z) (bs : list Z)
  : (Z * Z * Z * Z) * list Z :=
  match fuel with
  | O => (v, bs)
  | S fuel' =>
      if (8 <=? length bs)%nat
      then absorb_words fuel' (absorb v (le_bytes (firstn 8 bs))) (skipn 8 bs)
      else (v, bs)
  end.

Definition siphash13 (k0 k1 : Z) (src : list Z) : Z :=
  let b := u64 (Z.shiftl (Z.of_nat (length src)) 56) in
  let v := (Z.lxor k0 0x736f6d6570736575, Z.lxor k1 0x646f72616e646f6d,
            Z.lxor k0 0x6c7967656e657261, Z.lxor k1 0x7465646279746573) in
  let '(v, tail) := absorb_words (length src) v src in
  let b := Z.lor b (le_bytes tail) in
  let '(v0, v1, v2, v3) := absorb v b in
  let v2 := Z.lxor v2 0xff in
  let '(v0, v1, v2, v3) := single_round (single_round (single_round (v0, v1, v2, v3))) in
  Z.lxor (Z.lxor v0 v1) (Z.lxor v2 v3).

(** The bytes of a [str] whose characters are all below 256 (one byte each). *)
Fixpoint str_bytes (s : string) : list Z :=
  match s with
  | EmptyString => []
  | String c s' => Z.of_N (N_of_ascii c) :: str_bytes s'
  end.

(** lcg_urandom of Python/bootstrap_hash.c: the bytes of the secret for a
    non-zero [PYTHONHASHSEED]. *)
Fixpoint lcg_urandom (x : Z) (size : nat) : list Z :=
  match size with
  | O => []
  | S size' =>
      let x := Z.land (x * 214013 + 2531011) (Z.ones 32) in
      Z.land (Z.shiftr x 16) 0xff :: lcg_urandom x size'
  end.

(** The SipHash key (k0, k1) of a process started with [PYTHONHASHSEED=seed]. *)
Definition hash_secret (seed : Z) : Z * Z :=
  if seed =? 0 then (0, 0)
  else
    let bytes := lcg_urandom seed 16 in
    (le_bytes (firstn 8 bytes), le_bytes (skipn 8 bytes)).

(** [hash(s)] for a [str]: zero for the empty string, else the SipHash value
    read as a signed 64-bit integer, with -1 replaced by -2. *)
Definition py_hash (secret : Z * Z) (s : string) : Z :=
  match s with
  | EmptyString => 0
  | _ =>
      let x := siphash13 (fst secret) (snd secret) (str_bytes s) in
      let x := if 2 ^ 63 <=? x then x - 2 ^ 64 else x in
      if x =? -1 then -2 else x
  end.

End CPython.

(** ** Exceptions

    A Python call either returns a value or raises.  Only the exception
    classes that the modelled code can meet are listed. *)
Inductive exn : Type :=
  | ValueError (msg : string)
  | TypeError (msg : string)
  | OSError (msg : string)
  | ZeroDivisionError.

Inductive res (A : Type) : Type :=
  | Ret (a : A)
  | Raise (e : exn).
Arguments Ret {A} a.
Arguments Raise {A} e.

(** ** adw_state.py: the persisted record and the port allocator *)
Module Ports.

(** [ADWStateData], the fields that [ADWState]'s methods below read or
    write (task metadata, timestamps, logs and metrics are carried along
    unread and left out). *)
Record ADWStateData : Type := mkADWStateData {
  adw_id : string;
  issue_number : option Z;
  branch_name : option string;
  worktree_path : option string;
  backend_port : option Z;
  frontend_port : option Z;
  workflow_status : string;
  current_phase : string;
  completed_phases : list string;
  failed_phases : list string;
  all_adws : list string;
  error_message : option string
}.

(** The [ADWState] object: what its state files hold, one record per task
    directory.  A task id maps to a record exactly when [load_state]
    returns one (the file exists, parses and validates). *)
Record ADWState : Type := mkADWState {
  agents : gmap string ADWStateData
}.

Definition load_state (self : ADWState) (id : string) : option ADWStateData :=
  agents self !! id.

(** The pydantic validators of the two port fields. *)
Definition validate_backend_port (v : option Z) : res (option Z) :=
  match v with
  | Some p =>
      if negb ((9100 <=? p) && (p <=? 9114))
      then Raise (ValueError "Backend port must be between 9100-9114")
      else Ret v
  | None => Ret v
  end.

Definition validate_frontend_port (v : option Z) : res (option Z) :=
  match v with
  | Some p =>
      if negb ((9200 <=? p) && (p <=? 9214))
      then Raise (ValueError "Frontend port must be between 9200-9214")
      else Ret v
  | None => Ret v
  end.

Section Allocation.

(** The builtin [hash] of the running interpreter. *)
Variable hash : string -> Z.

(** [hash_value = abs(hash(adw_id)) % 15]. *)
Definition hash_value (id : string) : Z := Z.abs (hash id) mod 15.

(** [ADWState.allocate_ports]; the call logs one line and reads nothing
    of [self]. *)
Definition allocate_ports (self : ADWState) (id : string) : Z * Z :=
  let hash_value := Z.abs (hash id) mod 15 in
  let backend_port := 9100 + hash_value in
  let frontend_port := 9200 + hash_value in
  (backend_port, frontend_port).

End Allocation.

(** Sixteen task ids, one more than there are slots. *)
Definition sixteen_ids : list string :=
  [ "adw_0"; "adw_1"; "adw_2"; "adw_3"; "adw_4"; "adw_5"; "adw_6"; "adw_7";
    "adw_8"; "adw_9"; "adw_10"; "adw_11"; "adw_12"; "adw_13"; "adw_14"; "adw_15" ].

(** The fifteen values [hash_value] can take. *)
Definition slots : list Z := [0; 1; 2; 3; 4; 5; 6; 7; 8; 9; 10; 11; 12; 13; 14].

End Ports.

(** ** adw_state.py: three-way worktree validation *)
Module Worktree.
Import Ports.

(** The dictionary [validate_worktree] returns. *)
Record Validation : Type := mkValidation {
  state_has_path : bool;
  directory_exists : bool;
  git_recognizes : bool;
  valid : bool
}.

(** [needle in hay] on Python strings. *)
Fixpoint contains (needle hay : string) : bool :=
  String.prefix needle hay
  || match hay with
     | EmptyString => false
     | String _ hay' => contains needle hay'
     end.

(** Truth value of an [Optional[str]]: [None] and the empty string are false. *)
Definition truthy (s : option string) : bool :=
  match s with
  | Some (String _ _) => true
  | _ => false
  end.

(** Python's [all] over a list of booleans. *)
Definition all (bs : list bool) : bool := forallb (fun b => b) bs.

Section Validate.

(** [str(Path(s))], pathlib's normal form of a path string. *)
Variable Path : string -> string.
(** The file system: [Path.exists] and [Path.is_dir]. *)
Variable exists_ : string -> bool.
Variable is_dir : string -> bool.
(** [subprocess.run(["git", "worktree", "list"], ...)]: the return code
    and standard output, or [None] when the call raises. *)
Variable git_worktree_list : option (Z * string).

Definition validate_worktree (self : ADWState) (id : string) : Validation :=
  let state := load_state self id in
  let validation := mkValidation false false false false in
  match state with
  | None => validation
  | Some state =>
      let validation :=
        if truthy (worktree_path state) then
          let validation := mkValidation true false false false in
          let worktree_path := Path (default "" (worktree_path state)) in
          if exists_ worktree_path && is_dir worktree_path then
            let validation := mkValidation true true false false in
            match git_worktree_list with
            | Some (returncode, stdout) =>
                if (returncode =? 0) && contains worktree_path stdout
                then mkValidation true true true false
                else validation
            | None => validation
            end
          else validation
        else validation in
      mkValidation (state_has_path validation) (directory_exists validation)
        (git_recognizes validation)
        (all [state_has_path validation; directory_exists validation;
              git_recognizes validation])
  end.

End Validate.

(** [git worktree list] prints one line per worktree: the path, padding
    and the commit with the branch.  The lines of a text: *)
Fixpoint lines_from (current : string) (text : string) : list string :=
  match text with
  | EmptyString => [String.rev current]
  | String c text' =>
      if (nat_of_ascii c =? 10)%nat then String.rev current :: lines_from "" text'
      else lines_from (String c current) text'
  end.

Definition lines (text : string) : list string := lines_from "" text.

(** The line is the entry of the worktree at [path]: the path, followed
    by a blank. *)
Fixpoint entry_for (path line : string) : bool :=
  match path, line with
  | EmptyString, String c _ => (nat_of_ascii c =? 32)%nat
  | String a path', String b line' =>
      if ascii_dec a b then entry_for path' line' else false
  | _, _ => false
  end.

(** The listing has an entry for the worktree at [path]. *)
Definition listed (path stdout : string) : bool :=
  existsb (entry_for path) (lines stdout).

(** The persisted state names a worktree path. *)
Definition names_path (state : ADWStateData) : Prop :=
  exists path, worktree_path state = Some path /\ path <> ""%string.

(** Three worktrees of one repository as [git worktree list] prints them;
    there is none at [/repo/trees/adw_1]. *)
Definition sample_listing : string :=
  "/repo                abc1234 [main]
/repo/trees/adw_10   def5678 [feature-issue-3-adw-10]
/repo/trees/adw_2    0a1b2c3 [feature-issue-4-adw-2]
".

(** The state files of the sample: task [adw_1] names the worktree
    [/repo/trees/adw_1]. *)
Definition sample_state : ADWState :=
  mkADWState
    {[ "adw_1"%string :=
         mkADWStateData "adw_1" (Some 7) (Some "feature-issue-7-adw-1"%string)
           (Some "/repo/trees/adw_1"%string) (Some 9101) (Some 9201)
           "executing" "build" ["plan"%string] [] [] None ]}.

End Worktree.

(** ** state_manager.py: the persisted task state and its mutators *)
Module StateStore.

Inductive WorkflowStatus : Type :=
  | INITIALIZED | PENDING | EXECUTING | COMPLETED | FAILED | CANCELLED.

(** [status.value]. *)
Definition value (s : WorkflowStatus) : string :=
  match s with
  | INITIALIZED => "initialized"
  | PENDING => "pending"
  | EXECUTING => "executing"
  | COMPLETED => "completed"
  | FAILED => "failed"
  | CANCELLED => "cancelled"
  end.

(** One entry of [logs] (its timestamp is left out). *)
Record LogEntry : Type := mkLogEntry {
  level : string;
  log_stage : string;
  message : string
}.

(** [StateData].  [progress] is a float in the source and an exact
    rational here; the timestamps and the fields that no method of
    [StateManager] reads (project_context, execution_mode, triggered_at,
    kanban_integration, trigger_source, ui_metadata, metrics) are left out. *)
Record StateData : Type := mkStateData {
  adw_id : string;
  title : string;
  description : string;
  type_ : string;
  priority : string;
  stages : list string;
  workflow_status : string;
  current_stage : string;
  completed_stages : list string;
  failed_stages : list string;
  current_action : string;
  progress : Q;
  logs : list LogEntry;
  error_message : option string
}.

Definition set_workflow_status (v : string) (s : StateData) : StateData :=
  mkStateData (adw_id s) (title s) (description s) (type_ s) (priority s) (stages s)
    v (current_stage s) (completed_stages s) (failed_stages s) (current_action s)
    (progress s) (logs s) (error_message s).

Definition set_current_stage (v : string) (s : StateData) : StateData :=
  mkStateData (adw_id s) (title s) (description s) (type_ s) (priority s) (stages s)
    (workflow_status s) v (completed_stages s) (failed_stages s) (current_action s)
    (progress s) (logs s) (error_message s).

Definition set_completed_stages (v : list string) (s : StateData) : StateData :=
  mkStateData (adw_id s) (title s) (description s) (type_ s) (priority s) (stages s)
    (workflow_status s) (current_stage s) v (failed_stages s) (current_action s)
    (progress s) (logs s) (error_message s).

Definition set_failed_stages (v : list string) (s : StateData) : StateData :=
  mkStateData (adw_id s) (title s) (description s) (type_ s) (priority s) (stages s)
    (workflow_status s) (current_stage s) (completed_stages s) v (current_action s)
    (progress s) (logs s) (error_message s).

Definition set_current_action (v : string) (s : StateData) : StateData :=
  mkStateData (adw_id s) (title s) (description s) (type_ s) (priority s) (stages s)
    (workflow_status s) (current_stage s) (completed_stages s) (failed_stages s) v
    (progress s) (logs s) (error_message s).

Definition set_progress (v : Q) (s : StateData) : StateData :=
  mkStateData (adw_id s) (title s) (description s) (type_ s) (priority s) (stages s)
    (workflow_status s) (current_stage s) (completed_stages s) (failed_stages s)
    (current_action s) v (logs s) (error_message s).

Definition set_logs (v : list LogEntry) (s : StateData) : StateData :=
  mkStateData (adw_id s) (title s) (description s) (type_ s) (priority s) (stages s)
    (workflow_status s) (current_stage s) (completed_stages s) (failed_stages s)
    (current_action s) (progress s) v (error_message s).

Definition set_error_message (v : option string) (s : StateData) : StateData :=
  mkStateData (adw_id s) (title s) (description s) (type_ s) (priority s) (stages s)
    (workflow_status s) (current_stage s) (completed_stages s) (failed_stages s)
    (current_action s) (progress s) (logs s) v.

(** The task dictionary handed to [initialize_state] and [process_task]:
    any dictionary.  A key that is a field of [StateData] above is [None]
    when the dictionary lacks it, and its value is taken to have the type
    the dataclass declares ([None] is not among them); [td_other] holds
    every other key of the dictionary, with its value as text. *)
Record TaskDict : Type := Build_TaskDict {
  td_adw_id : option string;
  td_title : option string;
  td_description : option string;
  td_type : option string;
  td_priority : option string;
  td_stages : option (list string);
  td_workflow_status : option string;
  td_current_stage : option string;
  td_completed_stages : option (list string);
  td_failed_stages : option (list string);
  td_current_action : option string;
  td_progress : option Q;
  td_logs : option (list LogEntry);
  td_error_message : option string;
  td_other : gmap string string
}.

(** A dictionary with no other keys than [adw_id], [title],
    [description], [type], [priority] and [stages]. *)
Definition mkTaskDict (adw_id title description type_ priority : option string)
    (stages : option (list string)) : TaskDict :=
  Build_TaskDict adw_id title description type_ priority stages
    None None None None None None None None ∅.

(** The fields of [StateData] that are left out of the record above. *)
Definition unread_fields : list string :=
  ["created_at"; "updated_at"; "project_context"; "execution_mode"; "triggered_at";
   "kanban_integration"; "trigger_source"; "ui_metadata"; "metrics"].

(** Whether every other key of the dictionary is among [fields]; a
    dataclass constructor raises [TypeError] on any other keyword. *)
Definition only_keys (fields : list string) (other : gmap string string) : bool :=
  forallb (fun key => bool_decide (key ∈ fields)) (map fst (map_to_list other)).

(** [agents_dir / adw_id], the directory of a task as the file system
    resolves it: ids such as [t1], [./t1] and [t1/] name one directory. *)
Class TaskDirs : Type := task_dir : string -> string.

(** The agents directory: the [state.json] of each task directory, by
    directory.  Reads and writes of the files themselves are taken to
    succeed (an I/O error makes a mutator return [False] and change
    nothing). *)
Abbreviation Store := (gmap string StateData).

(** A method of [StateManager]: it returns or raises, and leaves a store. *)
Definition M (A : Type) : Type := Store -> res A * Store.

Definition ret {A : Type} (a : A) : M A := fun store => (Ret a, store).

Definition raise {A : Type} (e : exn) : M A := fun store => (Raise e, store).

Definition bind {A B : Type} (c : M A) (k : A -> M B) : M B :=
  fun store =>
    match c store with
    | (Ret a, store') => k a store'
    | (Raise e, store') => (Raise e, store')
    end.

(** [try: body except Exception as e: handler e]. *)
Definition try_except {A : Type} (body : M A) (handler : exn -> M A) : M A :=
  fun store =>
    match body store with
    | (Ret a, store') => (Ret a, store')
    | (Raise e, store') => handler e store'
    end.

Declare Scope method_scope.
Delimit Scope method_scope with method.
Notation "x <- c ;; k" := (bind c (fun x => k))
  (at level 20, c at level 99, k at level 200, only parsing) : method_scope.
Notation "c ;; k" := (bind c (fun _ => k))
  (at level 100, k at level 200, only parsing, right associativity) : method_scope.

(** [str(e)]. *)
Definition str_exn (e : exn) : string :=
  match e with
  | ValueError msg => msg
  | TypeError msg => msg
  | OSError msg => msg
  | ZeroDivisionError => "division by zero"
  end.

(** [x in l] and [l.remove(x)] on lists of strings. *)
Definition mem (x : string) (l : list string) : bool :=
  if in_dec string_dec x l then true else false.

Fixpoint remove_first (x : string) (l : list string) : list string :=
  match l with
  | [] => []
  | y :: l' => if string_dec x y then l' else y :: remove_first x l'
  end.

(** Truth value of a [str]. *)
Definition nonempty (s : string) : bool :=
  match s with
  | EmptyString => false
  | String _ _ => true
  end.

(** [StateData( **task_data )] followed by [__post_init__]: a keyword
    that is no field, or a missing [adw_id], [title] or [description],
    raises [TypeError]; every field the dictionary gives is taken from it. *)
Definition new_StateData (task_data : TaskDict) : res StateData :=
  if negb (only_keys unread_fields (td_other task_data))
  then Raise (TypeError "StateData.__init__() got an unexpected keyword argument")
  else
    match td_adw_id task_data, td_title task_data, td_description task_data with
    | Some adw_id, Some title, Some description =>
        Ret (mkStateData adw_id title description
               (default "feature" (td_type task_data))
               (default "medium" (td_priority task_data))
               (default ["plan"; "implement"] (td_stages task_data))
               (default (value INITIALIZED) (td_workflow_status task_data))
               (default "" (td_current_stage task_data))
               (default [] (td_completed_stages task_data))
               (default [] (td_failed_stages task_data))
               (default "" (td_current_action task_data))
               (default 0%Q (td_progress task_data))
               (default [] (td_logs task_data))
               (td_error_message task_data))
    | _, _, _ =>
        Raise (TypeError "StateData.__init__() missing required positional argument")
    end.

Section Store.

Context {dirs : TaskDirs}.

(** [load_state]: the record in the directory the id names, if any. *)
Definition load_state (adw_id : string) : M (option StateData) :=
  fun store => (Ret (store !! task_dir adw_id), store).

(** [save_state]: the record goes to the directory that its own
    [adw_id] names.  The [updated_at] stamp that every save renews is
    among the fields left out of [StateData]. *)
Definition save_state (state : StateData) : M bool :=
  fun store => (Ret true, <[task_dir (adw_id state) := state]> store).

Definition initialize_state (task_data : TaskDict) : M StateData :=
  match new_StateData task_data with
  | Raise e => raise e
  | Ret state =>
      let state := set_workflow_status (value INITIALIZED) state in
      (save_state state ;; ret state)%method
  end.

Definition update_status (adw_id : string) (status : WorkflowStatus)
    (current_action : string) (error_message : option string) : M bool :=
  (state <- load_state adw_id ;;
   match state with
   | None => ret false
   | Some state =>
       let state := set_workflow_status (value status) state in
       let state :=
         if nonempty current_action then set_current_action current_action state
         else state in
       let state :=
         match error_message with
         | Some (String _ _) => set_error_message error_message state
         | _ => state
         end in
       save_state state
   end)%method.

Definition update_stage (adw_id stage : string) (progress : option Q) : M bool :=
  (state <- load_state adw_id ;;
   match state with
   | None => ret false
   | Some state =>
       let state := set_current_stage stage state in
       let state := set_workflow_status (value EXECUTING) state in
       let state :=
         match progress with
         | Some p => set_progress p state
         | None => state
         end in
       save_state state
   end)%method.

Definition complete_stage (adw_id stage : string) : M bool :=
  (state <- load_state adw_id ;;
   match state with
   | None => ret false
   | Some state =>
       let state :=
         if negb (mem stage (completed_stages state))
         then set_completed_stages (completed_stages state ++ [stage]) state
         else state in
       let state :=
         if mem stage (failed_stages state)
         then set_failed_stages (remove_first stage (failed_stages state)) state
         else state in
       let total_stages := length (stages state) in
       let completed_count := length (completed_stages state) in
       if (total_stages =? 0)%nat then raise ZeroDivisionError
       else
         let state :=
           set_progress (inject_Z (Z.of_nat completed_count)
                         / inject_Z (Z.of_nat total_stages) * inject_Z 100)%Q state in
         let state :=
           if (completed_count =? total_stages)%nat
           then set_current_action "Task execution completed"
                  (set_current_stage "completed"
                     (set_workflow_status (value COMPLETED) state))
           else state in
         save_state state
   end)%method.

Definition fail_stage (adw_id stage error_message : string) : M bool :=
  (state <- load_state adw_id ;;
   match state with
   | None => ret false
   | Some state =>
       let state :=
         if negb (mem stage (failed_stages state))
         then set_failed_stages (failed_stages state ++ [stage]) state
         else state in
       let state :=
         if mem stage (completed_stages state)
         then set_completed_stages (remove_first stage (completed_stages state)) state
         else state in
       let state := set_workflow_status (value FAILED) state in
       let state := set_error_message (Some error_message) state in
       save_state state
   end)%method.

Definition add_log (adw_id level stage message : string) : M bool :=
  (state <- load_state adw_id ;;
   match state with
   | None => ret false
   | Some state =>
       let log_entry := mkLogEntry level stage message in
       save_state (set_logs (logs state ++ [log_entry]) state)
   end)%method.

(** A call of one of the store's mutators. *)
Inductive mutator : Type :=
  | UpdateStatus (status : WorkflowStatus) (current_action : string)
      (error_message : option string)
  | UpdateStage (stage : string) (progress : option Q)
  | CompleteStage (stage : string)
  | FailStage (stage error_message : string)
  | AddLog (level stage message : string).

Definition call (adw_id : string) (m : mutator) : M bool :=
  match m with
  | UpdateStatus status current_action error_message =>
      update_status adw_id status current_action error_message
  | UpdateStage stage progress => update_stage adw_id stage progress
  | CompleteStage stage => complete_stage adw_id stage
  | FailStage stage error_message => fail_stage adw_id stage error_message
  | AddLog level stage message => add_log adw_id level stage message
  end.

(** A sequence of mutator calls on one task; a call that raises leaves
    the store as it was and the sequence goes on. *)
Fixpoint calls (adw_id : string) (ms : list mutator) (store : Store) : Store :=
  match ms with
  | [] => store
  | m :: ms' => calls adw_id ms' (snd (call adw_id m store))
  end.

(** The record of task [id] keeps its stage list [declared], and its
    [completed_stages] is a duplicate-free part of it that is all of it
    whenever the status is completed. *)
Definition tracks (declared : list string) (id : string) (st : StateData) : Prop :=
  task_dir (adw_id st) = task_dir id /\ stages st = declared /\
  List.NoDup (completed_stages st) /\ incl (completed_stages st) declared /\
  (workflow_status st = value COMPLETED -> incl declared (completed_stages st)).

(** The calls a stage pipeline makes: any mutator, with [complete_stage]
    on declared stages only and [update_status] not to completed. *)
Definition allowed (declared : list string) (m : mutator) : Prop :=
  match m with
  | UpdateStatus status _ _ => status <> COMPLETED
  | CompleteStage stage => In stage declared
  | _ => True
  end.

End Store.

End StateStore.

(** ** task_processor.py: stages, retries and the execution queue *)
Module TaskProcessor.
Import StateStore.

Inductive TaskPriority : Type := LOW | MEDIUM | HIGH | URGENT.

(** [priority.value]. *)
Definition priority_number (p : TaskPriority) : Z :=
  match p with
  | LOW => 1
  | MEDIUM => 2
  | HIGH => 3
  | URGENT => 4
  end.

(** The fields of [WorkflowConfig] and [PipelineConfig] that the processor reads. *)
Record WorkflowConfig : Type := mkWorkflowConfig {
  execution_timeout : Z;
  max_retries : Z;
  pipeline_continue_on_failure : bool
}.

Record PipelineConfig : Type := mkPipelineConfig {
  timeout : Z;
  retry_count : Z;
  arguments : list string
}.

(** What a stage execution does to the outside world, in order. *)
Inductive event : Type :=
  | Sleep (seconds : Z)
  | RunPipeline (attempt : Z) (timeout : Z)
  | WriteOutput (stage : string).

(** [range(n)]. *)
Definition range (n : Z) : list Z := map Z.of_nat (seq 0 (Z.to_nat n)).

Section ExecuteStage.

Variable config : WorkflowConfig.
(** [config_manager.get_pipeline_config(stage)]: the stage's own
    configuration, [None] when it has none, or an exception (the
    constructor rejects a malformed entry of the project file). *)
Variable get_pipeline_config : string -> res (option PipelineConfig).
(** [pipeline_script.exists()]. *)
Variable pipeline_script_exists : string -> bool.
(** The result of [_execute_pipeline_script] at each attempt: [true] for
    exit code 0, [false] for any other exit code, a timeout or an
    exception inside the call. *)
Variable execute_pipeline_script : string -> Z -> bool.
(** Whether [_execute_default_stage] manages to write its output file. *)
Variable write_json_file : string -> bool.

Definition execute_default_stage (stage : string) : bool * list event :=
  (write_json_file stage, [Sleep 2; WriteOutput stage]).

(** The body of [for attempt in range(max_retries + 1)], over the
    attempts still to make. *)
Fixpoint attempt_loop (stage : string) (timeout : Z) (attempts : list Z)
  : bool * list event :=
  match attempts with
  | [] => (false, [])
  | attempt :: rest =>
      let waited := if 0 <? attempt then [Sleep (2 ^ attempt)] else [] in
      let success := execute_pipeline_script stage attempt in
      if success then (true, (waited ++ [RunPipeline attempt timeout])%list)
      else
        let '(result, trace) := attempt_loop stage timeout rest in
        (result, (waited ++ RunPipeline attempt timeout :: trace)%list)
  end.

(** [pipeline_config.retry_count if pipeline_config else self.config.max_retries]. *)
Definition stage_max_retries (pipeline_config : option PipelineConfig) : Z :=
  match pipeline_config with
  | Some pipeline_config => retry_count pipeline_config
  | None => max_retries config
  end.

Definition stage_timeout (pipeline_config : option PipelineConfig) : Z :=
  match pipeline_config with
  | Some pipeline_config => timeout pipeline_config
  | None => execution_timeout config
  end.

(** [TaskProcessor.execute_stage]: its result and what it did.  An
    exception on the way to the retry loop is caught and gives [False]. *)
Definition execute_stage (stage : string) : bool * list event :=
  match get_pipeline_config stage with
  | Raise _ => (false, [])
  | Ret pipeline_config =>
      if negb (pipeline_script_exists stage) then execute_default_stage stage
      else
        let timeout := stage_timeout pipeline_config in
        let max_retries := stage_max_retries pipeline_config in
        attempt_loop stage timeout (range (max_retries + 1))
  end.

End ExecuteStage.

(** The pipeline runs in a trace, and the seconds slept in it. *)
Fixpoint runs (trace : list event) : list Z :=
  match trace with
  | [] => []
  | RunPipeline attempt _ :: trace' => attempt :: runs trace'
  | _ :: trace' => runs trace'
  end.

Fixpoint slept (trace : list event) : Z :=
  match trace with
  | [] => 0
  | Sleep seconds :: trace' => seconds + slept trace'
  | _ :: trace' => slept trace'
  end.

(** A call that touches no state file. *)
Definition lift {A : Type} (r : res A) : M A := fun store => (r, store).

Section ProcessTask.

Context {dirs : TaskDirs}.
Variable config : WorkflowConfig.
(** [WorkflowLogger(adw_id, log_dir=Path(self.config.logs_dir))]: it
    creates the log directory and opens the task's log file, and returns
    or raises ([OSError] for an id the file system refuses, an unwritable
    directory and the like).  The logging calls made later do not raise. *)
Variable new_WorkflowLogger : string -> res unit.
(** The result of [execute_stage] in the loop's round [i] (it catches
    every exception and returns a boolean). *)
Variable stage_succeeds : nat -> string -> bool.
(** [shutdown_event.is_set()] at the start of round [i]. *)
Variable shutdown_is_set : nat -> bool.

(** The loop [for i, stage in enumerate(stages)], from round [i] on:
    [Some b] when the body executes [return b], [None] when the loop
    ends or breaks. *)
Fixpoint stage_loop (adw_id : string) (total_stages : nat) (i : nat)
    (stages : list string) : M (option bool) :=
  match stages with
  | [] => ret None
  | stage :: rest =>
      if shutdown_is_set i then ret None
      else
        let progress :=
          (inject_Z (Z.of_nat i) / inject_Z (Z.of_nat total_stages) * inject_Z 100)%Q in
        (update_stage adw_id stage (Some progress) ;;
         add_log adw_id "info" stage ("Starting " ++ stage ++ " stage") ;;
         let success := stage_succeeds i stage in
         if success then
           (complete_stage adw_id stage ;;
            add_log adw_id "success" stage ("Completed " ++ stage ++ " stage successfully") ;;
            stage_loop adw_id total_stages (S i) rest)
         else
           let error_msg := "Stage " ++ stage ++ " failed" in
           (fail_stage adw_id stage error_msg ;;
            add_log adw_id "error" stage error_msg ;;
            if negb (pipeline_continue_on_failure config) then ret (Some false)
            else stage_loop adw_id total_stages (S i) rest))%method
  end.

(** [TaskProcessor.process_task]: its result and the store it leaves. *)
Definition process_task (task_data : TaskDict) (store : Store) : bool * Store :=
  match td_adw_id task_data with
  | None | Some EmptyString => (false, store)
  | Some adw_id =>
      let body : M bool :=
        try_except
          (state <- initialize_state task_data ;;
           lift (new_WorkflowLogger adw_id) ;;
           update_status adw_id EXECUTING "Processing task through stages" None ;;
           let stages := stages state in
           let total_stages := length stages in
           returned <- stage_loop adw_id total_stages 0 stages ;;
           match returned with
           | Some result => ret result
           | None =>
               update_status adw_id COMPLETED
                 "Task execution completed successfully" None ;;
               ret true
           end)%method
          (fun e =>
             (update_status adw_id FAILED
                ("Task processing error: " ++ str_exn e) (Some (str_exn e)) ;;
              ret false)%method) in
      match body store with
      | (Ret result, store') => (result, store')
      | (Raise _, store') => (false, store')
      end
  end.

End ProcessTask.

(** *** The execution queue *)

(** An item of [execution_queue]: the tuple
    [(priority_value, datetime.now(), task_data)]; the time is counted in
    microseconds. *)
Record Entry : Type := mkEntry {
  priority_value : Z;
  queued_at : Z;
  task_data : TaskDict
}.

Global Instance Q_eq_dec : EqDecision Q.
Proof. solve_decision. Defined.

Global Instance LogEntry_eq_dec : EqDecision LogEntry.
Proof. solve_decision. Defined.

Global Instance TaskDict_eq_dec : EqDecision TaskDict.
Proof. solve_decision. Defined.

Global Instance Entry_eq_dec : EqDecision Entry.
Proof. solve_decision. Defined.

(** [a < b] on the tuples: the first component that differs decides; when
    priority and time are equal the dictionaries are compared, equal ones
    give [False] and different ones make [<] raise. *)
Definition tuple_lt (a b : Entry) : res bool :=
  if negb (priority_value a =? priority_value b)
  then Ret (priority_value a <? priority_value b)
  else if negb (queued_at a =? queued_at b)
  then Ret (queued_at a <? queued_at b)
  else if decide (task_data a = task_data b) then Ret false
  else Raise (TypeError "'<' not supported between instances of 'dict' and 'dict'").

(** [queue.PriorityQueue] is no code of the repository: it keeps its
    entries in a list that the [heapq] module orders as a binary heap,
    [put] is [heappush] and [get] is [heappop].  The functions below
    follow CPython's Modules/_heapqmodule.c.  A comparison that raises
    ends the call at once, with the list as the swaps made so far left it. *)
Definition swap (heap : list Entry) (i j : nat) : list Entry :=
  match heap !! i, heap !! j with
  | Some a, Some b => <[i := b]> (<[j := a]> heap)
  | _, _ => heap
  end.

(** The loop of [siftdown(heap, startpos, pos)]: the item at [pos] moves
    towards the root while it is less than its parent.  Each round at
    least halves [pos], so [rounds = pos] rounds are enough. *)
Fixpoint siftdown_loop (rounds : nat) (heap : list Entry) (startpos pos : nat)
  : res unit * list Entry :=
  match rounds with
  | O => (Ret tt, heap)
  | S rounds' =>
      if (startpos <? pos)%nat then
        let parentpos := ((pos - 1) / 2)%nat in
        match heap !! pos, heap !! parentpos with
        | Some newitem, Some parent =>
            match tuple_lt newitem parent with
            | Raise e => (Raise e, heap)
            | Ret false => (Ret tt, heap)
            | Ret true => siftdown_loop rounds' (swap heap parentpos pos) startpos parentpos
            end
        | _, _ => (Ret tt, heap)
        end
      else (Ret tt, heap)
  end.

Definition siftdown (heap : list Entry) (startpos pos : nat) : res unit * list Entry :=
  siftdown_loop pos heap startpos pos.

(** The loop of [siftup(heap, pos)]: the smaller child moves up until
    [pos] is a leaf; it returns the leaf reached.  Each round moves [pos]
    to a child, so [length heap] rounds are enough. *)
Fixpoint siftup_loop (rounds : nat) (heap : list Entry) (pos : nat)
  : res nat * list Entry :=
  match rounds with
  | O => (Ret pos, heap)
  | S rounds' =>
      let endpos := length heap in
      let limit := (endpos / 2)%nat in
      if (pos <? limit)%nat then
        let childpos := (2 * pos + 1)%nat in
        let chosen : res nat :=
          if (childpos + 1 <? endpos)%nat then
            match heap !! childpos, heap !! (childpos + 1)%nat with
            | Some a, Some b =>
                match tuple_lt a b with
                | Raise e => Raise e
                | Ret true => Ret childpos
                | Ret false => Ret (childpos + 1)%nat
                end
            | _, _ => Ret childpos
            end
          else Ret childpos in
        match chosen with
        | Raise e => (Raise e, heap)
        | Ret childpos => siftup_loop rounds' (swap heap childpos pos) childpos
        end
      else (Ret pos, heap)
  end.

Definition siftup (heap : list Entry) (pos : nat) : res unit * list Entry :=
  match siftup_loop (length heap) heap pos with
  | (Raise e, heap) => (Raise e, heap)
  | (Ret leaf, heap) => siftdown heap pos leaf
  end.

(** [heappush(heap, item)]: the item is appended, then sifted. *)
Definition heappush (heap : list Entry) (item : Entry) : res unit * list Entry :=
  let heap := (heap ++ [item])%list in
  siftdown heap 0 (length heap - 1).

(** [heappop(heap)] on a heap that is not empty: the last item replaces
    the first, which is returned once the sifting has returned; when the
    sifting raises, the first item is in the list no more and is not
    returned either. *)
Definition heappop (heap : list Entry) : res (option Entry) * list Entry :=
  match List.last (map Some heap) None with
  | None => (Ret None, heap)
  | Some lastelt =>
      let heap := removelast heap in
      match heap with
      | [] => (Ret (Some lastelt), heap)
      | returnitem :: _ =>
          let heap := <[0%nat := lastelt]> heap in
          match siftup heap 0 with
          | (Raise e, heap) => (Raise e, heap)
          | (Ret _, heap) => (Ret (Some returnitem), heap)
          end
      end
  end.

(** [execution_queue.put(item)] on the unbounded queue. *)
Definition put (item : Entry) (queue : list Entry) : res unit * list Entry :=
  heappush queue item.

(** [execution_queue.get(timeout=1)]: [None] stands for [queue.Empty]. *)
Definition get (queue : list Entry) : res (option Entry) * list Entry :=
  match queue with
  | [] => (Ret None, queue)
  | _ => heappop queue
  end.

(** [TaskProcessor.queue_task]; [now] is what [datetime.now()] returns.
    An exception of [put] is not caught. *)
Definition queue_task (now : Z) (task_data : TaskDict) (priority : TaskPriority)
    (execution_queue : list Entry) : res unit * list Entry :=
  match td_adw_id task_data with
  | None | Some EmptyString => (Ret tt, execution_queue)
  | Some _ =>
      let priority_value := - priority_number priority in
      put (mkEntry priority_value now task_data) execution_queue
  end.

(** *** Predicates and sample data for the statements *)

(** What one round of the retry loop does when its attempt fails: from
    the second attempt on it sleeps [2 ** attempt] seconds, then it runs
    the pipeline script. *)
Definition failed_round (timeout attempt : Z) : list event :=
  ((if 0 <? attempt then [Sleep (2 ^ attempt)] else []) ++ [RunPipeline attempt timeout])%list.

(** A plan stage configured with two retries whose script always fails. *)
Definition two_retries (stage : string) : res (option PipelineConfig) :=
  Ret (Some (mkPipelineConfig 300 2 [])).

(** The state a stage failure leaves: status failed, the current stage
    among the failed ones, and the stage's error message set. *)
Definition stage_failed (st : StateData) : Prop :=
  workflow_status st = value FAILED /\
  In (current_stage st) (failed_stages st) /\
  error_message st = Some ("Stage " ++ current_stage st ++ " failed")%string.

(** A task dictionary that [StateData] accepts (it has a title and a
    description, and no key that is not a field), with a task id [id]
    that is not empty. *)
Definition well_formed (task_data : TaskDict) (id : string) : Prop :=
  td_adw_id task_data = Some id /\ id <> ""%string /\
  td_title task_data <> None /\ td_description task_data <> None /\
  only_keys unread_fields (td_other task_data) = true.

(** The dictionary brings no history of its own: no completed or failed
    stage, no log entry and no error message. *)
Definition no_history (task_data : TaskDict) : Prop :=
  default [] (td_completed_stages task_data) = [] /\
  default [] (td_failed_stages task_data) = [] /\
  default [] (td_logs task_data) = [] /\
  td_error_message task_data = None.

(** The stage lists the dictionary brings, if any, are free of
    duplicates and share no stage. *)
Definition disjoint_history (task_data : TaskDict) : Prop :=
  List.NoDup (default [] (td_completed_stages task_data)) /\
  List.NoDup (default [] (td_failed_stages task_data)) /\
  forall stage,
    ~ (In stage (default [] (td_completed_stages task_data)) /\
       In stage (default [] (td_failed_stages task_data))).

(** The completed stages the dictionary brings, if any, are a
    duplicate-free part of its stage list. *)
Definition declared_progress (task_data : TaskDict) : Prop :=
  List.NoDup (default [] (td_completed_stages task_data)) /\
  incl (default [] (td_completed_stages task_data))
       (default ["plan"; "implement"]%string (td_stages task_data)).

(** A task as the orchestrator submits it, and two configurations. *)
Definition demo_task : TaskDict :=
  mkTaskDict (Some "t1"%string) (Some "Add login"%string) (Some "Add a login form"%string)
    None None None.

Definition stop_on_failure : WorkflowConfig := mkWorkflowConfig 600 3 false.

Definition continue_on_failure : WorkflowConfig := mkWorkflowConfig 600 3 true.

(** Two entries differ in priority or in time. *)
Definition keys_differ (a b : Entry) : Prop :=
  priority_value a <> priority_value b \/ queued_at a <> queued_at b.

(** The entry [queue_task] puts for a task. *)
Definition entry_of (now : Z) (task_data : TaskDict) (priority : TaskPriority) : Entry :=
  mkEntry (- priority_number priority) now task_data.

(** A task dictionary with the id [id]. *)
Definition task_named (id : string) : TaskDict :=
  mkTaskDict (Some id) (Some "title"%string) (Some "description"%string) None None None.

(** Task directories named by their ids, for the samples. *)
Definition plain_dirs : TaskDirs := fun id => id.

(** The store with the fresh record of the sample task. *)
Definition demo_store : Store :=
  snd (initialize_state (dirs := plain_dirs) demo_task ∅).

(** The sample task with its first stage running. *)
Definition plan_running : Store :=
  snd (update_stage (dirs := plain_dirs) "t1" "plan" None demo_store).

(** A dictionary that brings [completed_stages] of its own: one stage is
    declared, and a stage that is not declared is listed as completed. *)
Definition resumed_task : TaskDict :=
  Build_TaskDict (Some "t1"%string) (Some "Add login"%string)
    (Some "Add a login form"%string) None None (Some ["plan"%string])
    None None (Some ["deploy"%string]) None None None None None ∅.

End TaskProcessor.

(** ** adw_orchestrator.py: the file trigger watcher *)
Module Watcher.

(** The fields of the orchestrator's [TaskData] that nothing below
    reads, each with its value as text. *)
Record Unread : Type := mkUnread {
  created_at : string;
  project_context : string;
  execution_mode : string;
  triggered_at : string;
  kanban_integration : string;
  ui_metadata : string
}.

(** The orchestrator's [TaskData] dataclass. *)
Record TaskData : Type := mkTaskData {
  adw_id : string;
  title : string;
  description : string;
  type_ : string;
  priority : string;
  stages : list string;
  trigger_source : string;
  workflow_status : string;
  unread : Unread
}.

(** The keys [TaskData] accepts besides those of its fields that
    [StateStore.TaskDict] names. *)
Definition unread_fields : list string :=
  ["created_at"; "project_context"; "execution_mode"; "triggered_at";
   "kanban_integration"; "trigger_source"; "ui_metadata"].

(** Whether the dictionary has a key that is a field of [StateData] and
    none of [TaskData]. *)
Definition has_state_keys (d : StateStore.TaskDict) : bool :=
  bool_decide (is_Some (StateStore.td_current_stage d))
  || bool_decide (is_Some (StateStore.td_completed_stages d))
  || bool_decide (is_Some (StateStore.td_failed_stages d))
  || bool_decide (is_Some (StateStore.td_current_action d))
  || bool_decide (is_Some (StateStore.td_progress d))
  || bool_decide (is_Some (StateStore.td_logs d))
  || bool_decide (is_Some (StateStore.td_error_message d)).

(** [TaskData( **task_data_dict )] and [__post_init__], followed by the
    assignment to [trigger_source]; [now] is [datetime.now().isoformat()]
    at the call, the default of [created_at]. *)
Definition new_TaskData (now : string) (d : StateStore.TaskDict) : res TaskData :=
  if has_state_keys d
     || negb (StateStore.only_keys unread_fields (StateStore.td_other d))
  then Raise (TypeError "TaskData.__init__() got an unexpected keyword argument")
  else
    match StateStore.td_adw_id d, StateStore.td_title d, StateStore.td_description d with
    | Some adw_id, Some title, Some description =>
        let other := StateStore.td_other d in
        Ret (mkTaskData adw_id title description
               (default "feature" (StateStore.td_type d))
               (default "medium" (StateStore.td_priority d))
               (default ["plan"; "implement"] (StateStore.td_stages d))
               "kanban_ui"
               (default "initialized" (StateStore.td_workflow_status d))
               (mkUnread
                  (default now (other !! "created_at"))
                  (default "{}" (other !! "project_context"))
                  (default "automatic" (other !! "execution_mode"))
                  (default "null" (other !! "triggered_at"))
                  (default "true" (other !! "kanban_integration"))
                  (default "null" (other !! "ui_metadata"))))
    | _, _, _ => Raise (TypeError "TaskData.__init__() missing required positional argument")
    end.

(** [asdict(task_data)]: every field of [TaskData] is a key. *)
Definition asdict (task_data : TaskData) : StateStore.TaskDict :=
  StateStore.Build_TaskDict (Some (adw_id task_data)) (Some (title task_data))
    (Some (description task_data)) (Some (type_ task_data))
    (Some (priority task_data)) (Some (stages task_data))
    (Some (workflow_status task_data)) None None None None None None None
    (<["created_at" := created_at (unread task_data)]>
       (<["project_context" := project_context (unread task_data)]>
          (<["execution_mode" := execution_mode (unread task_data)]>
             (<["triggered_at" := triggered_at (unread task_data)]>
                (<["kanban_integration" := kanban_integration (unread task_data)]>
                   (<["trigger_source" := trigger_source task_data]>
                      (<["ui_metadata" := ui_metadata (unread task_data)]> ∅))))))).

(** [ADWOrchestrator.queue_task_execution]; an exception of [queue_task]
    is not caught. *)
Definition queue_task_execution (now : Z) (task_data : TaskData)
    (execution_queue : list TaskProcessor.Entry)
  : res unit * list TaskProcessor.Entry :=
  let task_dict := asdict task_data in
  let priority :=
    if String.eqb (priority task_data) "high" then TaskProcessor.HIGH
    else if String.eqb (priority task_data) "urgent" then TaskProcessor.URGENT
    else if String.eqb (priority task_data) "low" then TaskProcessor.LOW
    else TaskProcessor.MEDIUM in
  TaskProcessor.queue_task now task_dict priority execution_queue.

(** What the watcher finds when it handles a trigger file. *)
Inductive observation : Type :=
  | Unreadable                            (* [open] or [json.load] raises *)
  | TaskFileMissing                       (* [task_file.exists()] is false *)
  | TaskFileEmpty                         (* [read_json_file] gives [None] or an empty dict *)
  | TaskFile (task_data_dict : StateStore.TaskDict).

(** The watcher's state: its local set [processed_triggers], the
    processor's queue, and (for the statements only) the calls of
    [queue_task_execution] made so far, each with the name of the trigger
    file that caused it.  The worker threads, which take entries out of
    the queue while the watcher runs, are left out: here the queue
    changes by the watcher's [put] calls only. *)
Record state : Type := mkState {
  processed_triggers : gset string;
  execution_queue : list TaskProcessor.Entry;
  submissions : list (string * TaskData)
}.

Definition initial (execution_queue : list TaskProcessor.Entry) : state :=
  mkState ∅ execution_queue [].

Section Monitor.

(** [adws_dir.glob("trigger_*.json")] in polling round [i]: the names of
    the trigger files there (other programs add files, and a file whose
    [unlink] failed is still listed), or an exception. *)
Variable glob : nat -> res (list string).
Variable observe : nat -> string -> observation.
(** [datetime.now()] when the trigger is queued, and its text when the
    [TaskData] object is built. *)
Variable now : nat -> string -> Z.
Variable created_now : nat -> string -> string.

(** The body of [for trigger_file in ...], for the file called [name]. *)
Definition handle_trigger (i : nat) (st : state) (name : string) : state :=
  if decide (name ∈ processed_triggers st) then st
  else
    match observe i name with
    | Unreadable => st
    | TaskFileMissing => st
    | TaskFileEmpty =>
        mkState ({[name]} ∪ processed_triggers st) (execution_queue st) (submissions st)
    | TaskFile task_data_dict =>
        match new_TaskData (created_now i name) task_data_dict with
        | Raise _ => st
        | Ret task_data =>
            match queue_task_execution (now i name) task_data (execution_queue st) with
            | (Ret _, execution_queue) =>
                mkState ({[name]} ∪ processed_triggers st) execution_queue
                  (submissions st ++ [(name, task_data)])
            | (Raise _, execution_queue) =>
                (* the handler's [except] logs the error: the trigger is
                   not marked, the queue is as [put] left it *)
                mkState (processed_triggers st) execution_queue
                  (submissions st ++ [(name, task_data)])
            end
        end
    end.

(** One round of the [while] loop (the sleep apart). *)
Definition poll (i : nat) (st : state) : state :=
  match glob i with
  | Ret names => fold_left (handle_trigger i) names st
  | Raise _ => st
  end.

(** [monitor_file_triggers] for [rounds] rounds, from round [i] on; the
    loop ends when the shutdown event is set. *)
Fixpoint monitor_from (rounds i : nat) (st : state) : state :=
  match rounds with
  | O => st
  | S rounds' => monitor_from rounds' (S i) (poll i st)
  end.

Definition monitor_file_triggers (rounds : nat)
    (execution_queue : list TaskProcessor.Entry) : state :=
  monitor_from rounds 0 (initial execution_queue).

End Monitor.

(** How many submissions the trigger file [name] caused. *)
Definition submitted (name : string) (st : state) : nat :=
  count_occ string_dec (map fst (submissions st)) name.

(** A task as the watcher builds it from a task file. *)
Definition demo_task_data : TaskData :=
  mkTaskData "t1" "Add login" "Add a login form" "feature" "high"
    ["plan"; "implement"]%string "kanban_ui" "initialized"
    (mkUnread "2025-03-01T10:00:00" "{}" "automatic" "null" "true" "null").

(** A sample run: the trigger files of tasks [a] and [b] are there in the
    first round, the second one still in the next; the clock gives one
    reading per round. *)
Definition tied_glob (i : nat) : res (list string) :=
  Ret (if Nat.eqb i 0 then ["trigger_a.json"; "trigger_b.json"]%string
       else ["trigger_b.json"]%string).

Definition tied_observe (i : nat) (name : string) : observation :=
  TaskFile (if String.eqb name "trigger_a.json" then TaskProcessor.task_named "a"
            else TaskProcessor.task_named "b").

Definition tied_now (i : nat) (name : string) : Z := 205 + Z.of_nat i.

Definition tied_created (i : nat) (name : string) : string := "2025-03-01T10:00:00".

(** No trigger was submitted twice, and every submitted one is marked. *)
Definition deduplicated (st : state) : Prop :=
  forall name : string,
    (submitted name st <= 1)%nat /\
    (name ∉ processed_triggers st -> submitted name st = 0%nat).

End Watcher.

(** ** Persistence: [save_state] and [FileOperations.write_json_file] *)
Module Persist.

(** Whether a document holds nothing but JSON whitespace. *)
Fixpoint is_blank (text : string) : bool :=
  match text with
  | EmptyString => true
  | String c text' =>
      let n := nat_of_ascii c in
      ((n =? 32) || (n =? 10) || (n =? 13) || (n =? 9))%nat && is_blank text'
  end.

Section Files.

(** The record type: [StateData] for [StateManager], [ADWStateData] for
    [ADWState]; both classes have the same [load_state] and [save_state]. *)
Variable Record_ : Type.
Variable adw_id : Record_ -> string.
(** The json library, which is no part of the repository:
    [json.dumps(asdict(state), indent=2)], the text [json.dump] writes,
    and the decoding of a document that is not blank followed by the
    record's constructor ([None] when either raises). *)
Variable dumps : Record_ -> string.
Variable decode : string -> option Record_.
(** The agents directory and the name of the state file in a task
    directory ([state.json] or [adw_state.json]). *)
Variable agents_dir : string.
Variable file_name : string.
(** [pathlib]'s [/], with the path that results as the file system
    resolves it. *)
Variable joinpath : string -> string -> string.

(** [self.agents_dir / adw_id / file_name].  The files are kept by
    path, with their content. *)
Definition _get_state_file (id : string) : string :=
  joinpath (joinpath agents_dir id) file_name.

(** [json.load]: a blank document raises [JSONDecodeError]. *)
Definition json_load (text : string) : option Record_ :=
  if is_blank text then None else decode text.

(** [load_state]: [None] when the file is missing or reading it raises. *)
Definition load_state (files : gmap string string) (id : string) : option Record_ :=
  match files !! _get_state_file id with
  | None => None
  | Some text => json_load text
  end.

(** [save_state], run to its end. *)
Definition save_state (state : Record_) (files : gmap string string)
  : bool * gmap string string :=
  (true, <[_get_state_file (adw_id state) := dumps state]> files).

(** How far an interrupted [save_state] got: not yet to
    [open(state_file, 'w')], or past it with the first [n] characters of
    the document on disk ([open] creates or empties the file, and what
    [json.dump] writes reaches the disk as the buffer is flushed). *)
Inductive progress : Type :=
  | NotOpened
  | Written (n : nat).

Definition save_state_interrupted (p : progress) (state : Record_)
    (files : gmap string string) : gmap string string :=
  match p with
  | NotOpened => files
  | Written n =>
      <[_get_state_file (adw_id state) := substring 0 n (dumps state)]> files
  end.

(** [pathlib]'s [with_suffix], and the time stamp in the backup's name. *)
Variable with_suffix : string -> string -> string.
Variable stamp : string.

(** How far an interrupted [write_json_file(file_path, data, backup,
    atomic=True)] got. *)
Inductive atomic_progress : Type :=
  | Starting
  | BackedUp
  | TempWritten (n : nat)
  | Replaced.

Definition write_json_file_interrupted (p : atomic_progress) (file_path : string)
    (data : Record_) (backup : bool) (files : gmap string string)
  : gmap string string :=
  let backup_path := with_suffix file_path (".backup." ++ stamp)%string in
  let temp_path := with_suffix file_path ".tmp" in
  let backed_up :=
    match files !! file_path with
    | Some content => if backup then <[backup_path := content]> files else files
    | None => files
    end in
  match p with
  | Starting => files
  | BackedUp => backed_up
  | TempWritten n => <[temp_path := substring 0 n (dumps data)]> backed_up
  | Replaced => <[file_path := dumps data]> (delete temp_path backed_up)
  end.

End Files.

(** Two sample joins: plain joining with a slash, and joining as
    [PurePosixPath] does, which drops the slashes at the end of a part. *)
Definition slash_join (a b : string) : string := (a ++ "/" ++ b)%string.

Fixpoint strip_slashes (rev_part : string) : string :=
  match rev_part with
  | String c rest =>
      if (nat_of_ascii c =? 47)%nat then strip_slashes rest else rev_part
  | EmptyString => EmptyString
  end.

Definition pure_join (a b : string) : string :=
  (a ++ "/" ++ String.rev (strip_slashes (String.rev b)))%string.

End Persist.

(** ** state_manager.py: what each mutator writes into the record

    Every mutator loads the record, changes it in memory and saves it.
    The functions below are the in-memory changes, statement by
    statement as in the methods of [StateManager]. *)
Module Records.
Import StateStore.

Definition update_status_record (status : WorkflowStatus) (current_action : string)
    (error_message : option string) (state : StateData) : StateData :=
  let state := set_workflow_status (value status) state in
  let state :=
    if nonempty current_action then set_current_action current_action state
    else state in
  match error_message with
  | Some (String _ _) => set_error_message error_message state
  | _ => state
  end.

Definition update_stage_record (stage : string) (progress : option Q)
    (state : StateData) : StateData :=
  let state := set_current_stage stage state in
  let state := set_workflow_status (value EXECUTING) state in
  match progress with
  | Some p => set_progress p state
  | None => state
  end.

Definition complete_stage_record (stage : string) (state : StateData) : StateData :=
  let state :=
    if negb (mem stage (completed_stages state))
    then set_completed_stages (completed_stages state ++ [stage]) state
    else state in
  let state :=
    if mem stage (failed_stages state)
    then set_failed_stages (remove_first stage (failed_stages state)) state
    else state in
  let total_stages := length (stages state) in
  let completed_count := length (completed_stages state) in
  let state :=
    set_progress (inject_Z (Z.of_nat completed_count)
                  / inject_Z (Z.of_nat total_stages) * inject_Z 100)%Q state in
  if (completed_count =? total_stages)%nat
  then set_current_action "Task execution completed"
         (set_current_stage "completed"
            (set_workflow_status (value COMPLETED) state))
  else state.

Definition fail_stage_record (stage error_message : string) (state : StateData)
  : StateData :=
  let state :=
    if negb (mem stage (failed_stages state))
    then set_failed_stages (failed_stages state ++ [stage]) state
    else state in
  let state :=
    if mem stage (completed_stages state)
    then set_completed_stages (remove_first stage (completed_stages state)) state
    else state in
  let state := set_workflow_status (value FAILED) state in
  set_error_message (Some error_message) state.

Definition add_log_record (level stage message : string) (state : StateData)
  : StateData :=
  set_logs (logs state ++ [mkLogEntry level stage message]) state.

(** The record a mutator call saves; a [complete_stage] that raises (the
    stage list is empty, the division fails before the save) saves nothing. *)
Definition record_after (m : mutator) (state : StateData) : StateData :=
  match m with
  | UpdateStatus status current_action error_message =>
      update_status_record status current_action error_message state
  | UpdateStage stage progress => update_stage_record stage progress state
  | CompleteStage stage =>
      if (length (stages state) =? 0)%nat then state
      else complete_stage_record stage state
  | FailStage stage error_message => fail_stage_record stage error_message state
  | AddLog level stage message => add_log_record level stage message state
  end.

(** What the call returns when the task has a record. *)
Definition outcome (m : mutator) (state : StateData) : res bool :=
  match m with
  | CompleteStage _ =>
      if (length (stages state) =? 0)%nat then Raise ZeroDivisionError else Ret true
  | _ => Ret true
  end.

Definition records_after (ms : list mutator) (state : StateData) : StateData :=
  fold_left (fun st m => record_after m st) ms state.

(** The log entries a sequence of calls appends. *)
Definition entries_of (ms : list mutator) : list LogEntry :=
  flat_map (fun m =>
              match m with
              | AddLog level stage message => [mkLogEntry level stage message]
              | _ => []
              end) ms.

(** The two stage lists of a record are free of duplicates and share no
    stage. *)
Definition clean (state : StateData) : Prop :=
  List.NoDup (completed_stages state) /\ List.NoDup (failed_stages state) /\
  forall stage, ~ (In stage (completed_stages state) /\ In stage (failed_stages state)).

(** Two records describe the same task: id, metadata and stage list agree. *)
Definition same_task (a b : StateData) : Prop :=
  adw_id a = adw_id b /\ title a = title b /\ description a = description b /\
  type_ a = type_ b /\ priority a = priority b /\ stages a = stages b.

End Records.

(** ** task_processor.py: the mutator calls of [process_task]

    [process_task] talks to the store through the mutators only.  The
    functions below list the calls it makes, in order, as the loop of
    [process_task] makes them. *)
Module Script.
Import StateStore TaskProcessor.

Section StageCalls.

Variable config : WorkflowConfig.
Variable stage_succeeds : nat -> string -> bool.
Variable shutdown_is_set : nat -> bool.

(** The calls of the stage loop from round [i] on, and what the loop
    returns ([None] when it ends or breaks). *)
Fixpoint stage_calls (total_stages : nat) (i : nat) (stages : list string)
  : list mutator * option bool :=
  match stages with
  | [] => ([], None)
  | stage :: rest =>
      if shutdown_is_set i then ([], None)
      else
        let progress :=
          (inject_Z (Z.of_nat i) / inject_Z (Z.of_nat total_stages) * inject_Z 100)%Q in
        let started :=
          [UpdateStage stage (Some progress);
           AddLog "info" stage ("Starting " ++ stage ++ " stage")] in
        if stage_succeeds i stage then
          let '(ms, returned) := stage_calls total_stages (S i) rest in
          ((started
            ++ [CompleteStage stage;
                AddLog "success" stage ("Completed " ++ stage ++ " stage successfully")]
            ++ ms)%list, returned)
        else
          let error_msg := "Stage " ++ stage ++ " failed" in
          let failed := [FailStage stage error_msg; AddLog "error" stage error_msg] in
          if negb (pipeline_continue_on_failure config)
          then ((started ++ failed)%list, Some false)
          else
            let '(ms, returned) := stage_calls total_stages (S i) rest in
            ((started ++ failed ++ ms)%list, returned)
  end.

(** The calls of [process_task] after [initialize_state], and its result. *)
Definition task_calls (stages : list string) : list mutator * bool :=
  let '(ms, returned) := stage_calls (length stages) 0 stages in
  let executing := UpdateStatus EXECUTING "Processing task through stages" None in
  match returned with
  | Some result => (executing :: ms, result)
  | None =>
      ((executing :: ms
        ++ [UpdateStatus COMPLETED "Task execution completed successfully" None])%list,
       true)
  end.

End StageCalls.

(** The two log entries of a stage that succeeds. *)
Definition success_entries (stage : string) : list LogEntry :=
  [mkLogEntry "info" stage ("Starting " ++ stage ++ " stage");
   mkLogEntry "success" stage ("Completed " ++ stage ++ " stage successfully")].

(** A record whose stages are all done. *)
Definition finished (st : StateData) : Prop :=
  workflow_status st = value COMPLETED /\ current_stage st = "completed"%string /\
  (progress st == inject_Z 100)%Q.

End Script.

(** ** task_processor.py and adw_orchestrator.py: stopping and running a task *)
Module Control.
Import StateStore TaskProcessor.

Section StopTask.

Context {dirs : TaskDirs}.
(** The first statement of [stop_task]: terminating the process of a
    running execution; it returns, or [terminate] raises. *)
Variable terminate_execution : string -> res unit.

(** [TaskProcessor.stop_task]. *)
Definition stop_task (adw_id : string) : M bool :=
  try_except
    (match terminate_execution adw_id with
     | Raise e => raise e
     | Ret _ =>
         (update_status adw_id CANCELLED "Task execution cancelled by user" None ;;
          ret true)%method
     end)
    (fun _ => ret false).

End StopTask.

Section ExecuteTask.

Context {dirs : TaskDirs}.
Variable config : WorkflowConfig.
Variable new_WorkflowLogger : string -> res unit.
Variable stage_succeeds : nat -> string -> bool.
Variable shutdown_is_set : nat -> bool.

(** [ADWOrchestrator.execute_task]: the orchestrator's
    [active_executions] and the store it leaves.  [process_task] catches
    its own exceptions, so the [except] branch of [execute_task] is never
    entered after the first assignment. *)
Definition execute_task (task_data : Watcher.TaskData)
    (active_executions : gmap string string) (store : Store)
  : gmap string string * Store :=
  let task_dict := Watcher.asdict task_data in
  let active_executions :=
    <[Watcher.adw_id task_data := "executing"%string]> active_executions in
  let '(success, store') :=
    process_task config new_WorkflowLogger stage_succeeds shutdown_is_set
      task_dict store in
  if success
  then (<[Watcher.adw_id task_data := "completed"%string]> active_executions, store')
  else (<[Watcher.adw_id task_data := "failed"%string]> active_executions, store').

End ExecuteTask.

End Control.

(** ** adw_orchestrator.py: what the watcher can do with a trigger *)
Module Triggers.
Import Watcher.

(** The trigger cannot be handled now: it does not parse, its task file
    is not there, or the task file lacks a field [TaskData] requires or
    has a key that is no field of it.
    The handler's [except] (or the false [exists()]) skips the line that
    marks the trigger as processed. *)
Definition skipped (o : observation) : Prop :=
  match o with
  | Unreadable | TaskFileMissing => True
  | TaskFileEmpty => False
  | TaskFile task_data_dict =>
      match new_TaskData "" task_data_dict with
      | Raise _ => True
      | Ret _ => False
      end
  end.

End Triggers.

(** ** adw_state.py: workflow phases *)
Module Phases.
Import Ports.

Inductive WorkflowPhase : Type := PLAN | BUILD | TEST | REVIEW | DOCUMENT | SHIP.

(** [phase.value]. *)
Definition phase_value (phase : WorkflowPhase) : string :=
  match phase with
  | PLAN => "plan"
  | BUILD => "build"
  | TEST => "test"
  | REVIEW => "review"
  | DOCUMENT => "document"
  | SHIP => "ship"
  end.

Definition set_phase (phase status : string) (s : ADWStateData) : ADWStateData :=
  mkADWStateData (adw_id s) (issue_number s) (branch_name s) (worktree_path s)
    (backend_port s) (frontend_port s) status phase
    (completed_phases s) (failed_phases s) (all_adws s) (error_message s).

Definition set_completed_phases (v : list string) (s : ADWStateData) : ADWStateData :=
  mkADWStateData (adw_id s) (issue_number s) (branch_name s) (worktree_path s)
    (backend_port s) (frontend_port s) (workflow_status s) (current_phase s)
    v (failed_phases s) (all_adws s) (error_message s).

Definition set_failed_phases (v : list string) (s : ADWStateData) : ADWStateData :=
  mkADWStateData (adw_id s) (issue_number s) (branch_name s) (worktree_path s)
    (backend_port s) (frontend_port s) (workflow_status s) (current_phase s)
    (completed_phases s) v (all_adws s) (error_message s).

Definition set_failure (message : string) (s : ADWStateData) : ADWStateData :=
  mkADWStateData (adw_id s) (issue_number s) (branch_name s) (worktree_path s)
    (backend_port s) (frontend_port s) (StateStore.value StateStore.FAILED)
    (current_phase s) (completed_phases s) (failed_phases s) (all_adws s)
    (Some message).

(** [ADWState.save_state]: the record goes to the state file of the task
    whose id it carries (the write is taken to succeed). *)
Definition save_state (state : ADWStateData) (self : ADWState) : bool * ADWState :=
  (true, mkADWState (<[adw_id state := state]> (agents self))).

(** [ADWState.update_phase]; [status] is the value of the status passed. *)
Definition update_phase (id : string) (phase : WorkflowPhase) (status : string)
    (self : ADWState) : bool * ADWState :=
  match load_state self id with
  | None => (false, self)
  | Some state => save_state (set_phase (phase_value phase) status state) self
  end.

(** [ADWState.complete_phase]. *)
Definition complete_phase (id : string) (phase : WorkflowPhase) (self : ADWState)
  : bool * ADWState :=
  match load_state self id with
  | None => (false, self)
  | Some state =>
      let state :=
        if negb (StateStore.mem (phase_value phase) (completed_phases state))
        then set_completed_phases (completed_phases state ++ [phase_value phase])%list state
        else state in
      let state :=
        if StateStore.mem (phase_value phase) (failed_phases state)
        then set_failed_phases
               (StateStore.remove_first (phase_value phase) (failed_phases state)) state
        else state in
      save_state state self
  end.

(** [ADWState.fail_phase]: unlike [StateManager.fail_stage] it leaves
    [completed_phases] alone. *)
Definition fail_phase (id : string) (phase : WorkflowPhase) (error_message : string)
    (self : ADWState) : bool * ADWState :=
  match load_state self id with
  | None => (false, self)
  | Some state =>
      let state :=
        if negb (StateStore.mem (phase_value phase) (failed_phases state))
        then set_failed_phases (failed_phases state ++ [phase_value phase])%list state
        else state in
      save_state (set_failure error_message state) self
  end.

(** A call of one of the three phase methods, and a sequence of them on
    one task. *)
Inductive phase_call : Type :=
  | UpdatePhase (phase : WorkflowPhase) (status : string)
  | CompletePhase (phase : WorkflowPhase)
  | FailPhase (phase : WorkflowPhase) (error_message : string).

Definition phase_step (id : string) (c : phase_call) (self : ADWState) : bool * ADWState :=
  match c with
  | UpdatePhase phase status => update_phase id phase status self
  | CompletePhase phase => complete_phase id phase self
  | FailPhase phase error_message => fail_phase id phase error_message self
  end.

Definition phase_steps (id : string) (cs : list phase_call) (self : ADWState) : ADWState :=
  fold_left (fun self c => snd (phase_step id c self)) cs self.

End Phases.

(** ** worktree_ops.py: the ports still free *)
Module AvailablePorts.
Import Ports.

(** The dictionary [get_available_ports] returns; the two [used] lists
    are built from sets, in no particular order. *)
Record Report : Type := mkReport {
  backend : list Z;
  frontend : list Z;
  used_backend : gset Z;
  used_frontend : gset Z
}.

(** [range(lo, hi)]. *)
Definition range (lo hi : Z) : list Z :=
  map (fun i => lo + Z.of_nat i) (seq 0 (Z.to_nat (hi - lo))).

(** Truth value of an [Optional[int]]: [None] and [0] are false. *)
Definition truthy_port (port : option Z) : bool :=
  match port with
  | Some p => negb (p =? 0)
  | None => false
  end.

(** The loop over the active tasks, for one of the two port fields: the
    tasks whose state loads are the entries of [agents]. *)
Definition used (port : ADWStateData -> option Z) (self : ADWState) : gset Z :=
  fold_left
    (fun used_ports '(_, state) =>
       if truthy_port (port state)
       then {[ default 0 (port state) ]} ∪ used_ports
       else used_ports)
    (map_to_list (agents self)) ∅.

(** [WorktreeOperations.get_available_ports]. *)
Definition get_available_ports (self : ADWState) : Report :=
  let used_backend_ports := used backend_port self in
  let used_frontend_ports := used frontend_port self in
  let backend_range := range 9100 9115 in
  let frontend_range := range 9200 9215 in
  let available_backend :=
    filter (fun p => p ∉ used_backend_ports) backend_range in
  let available_frontend :=
    filter (fun p => p ∉ used_frontend_ports) frontend_range in
  mkReport available_backend available_frontend used_backend_ports used_frontend_ports.

(** A task whose state loads holds the port. *)
Definition held (port : ADWStateData -> option Z) (self : ADWState) (p : Z) : Prop :=
  exists id state, agents self !! id = Some state /\ port state = Some p.

End AvailablePorts.

(** ** adw_state.py: branch names

    Strings are byte strings; the ids, task types and numbers the callers
    pass are ASCII text, on which [lower] below is [str.lower]. *)
Module BranchName.

(** [s.replace(old, new)] for a non-empty [old]: the occurrences of [old]
    are replaced from left to right, without overlap.  [skip] counts the
    characters of a replaced occurrence still to pass over. *)
Fixpoint replace_from (old new : string) (skip : nat) (s : string) : string :=
  match s with
  | EmptyString => EmptyString
  | String c s' =>
      match skip with
      | S skip' => replace_from old new skip' s'
      | O =>
          if String.prefix old s
          then new ++ replace_from old new (String.length old - 1) s'
          else String c (replace_from old new 0 s')
      end
  end.

Definition replace (old new s : string) : string := replace_from old new 0 s.

Definition is_upper (c : ascii) : bool :=
  let n := nat_of_ascii c in ((65 <=? n) && (n <=? 90))%nat.

Definition lower_char (c : ascii) : ascii :=
  if is_upper c then ascii_of_nat (nat_of_ascii c + 32) else c.

(** [s.lower()]. *)
Fixpoint lower (s : string) : string :=
  match s with
  | EmptyString => EmptyString
  | String c s' => String (lower_char c) (lower s')
  end.

(** [str(n)] of an [int]. *)
Definition str_int (n : Z) : string := NilZero.string_of_int (Z.to_int n).

(** [ADWState.generate_branch_name]; an [issue_number] that is [None] or
    [0] is left out. *)
Definition generate_branch_name (adw_id : string) (issue_number : option Z)
    (task_type : string) : string :=
  let clean_adw_id :=
    if String.prefix "adw_" adw_id then replace "adw_" "" adw_id else adw_id in
  let with_number (n : Z) := task_type ++ "-" ++ str_int n ++ "-" ++ clean_adw_id in
  let without_number := task_type ++ "-" ++ clean_adw_id in
  let branch_name :=
    match issue_number with
    | Some n => if n =? 0 then without_number else with_number n
    | None => without_number
    end in
  replace "_" "-" (replace " " "-" (lower branch_name)).

(** The characters of a string. *)
Definition chars (s : string) : list ascii := list_ascii_of_string s.

End BranchName.

(** ** worktree_ops.py: reading [git worktree list --porcelain] *)
Module Porcelain.

(** An entry of the list [list_worktrees] returns: a dictionary with the
    keys [path], [branch] and [head], each present or not. *)
Record Worktree : Type := mkWorktree {
  path : option string;
  branch : option string;
  head : option string
}.

(** The empty dictionary, and the truth value of a dictionary. *)
Definition no_keys : Worktree := mkWorktree None None None.

Definition has_keys (w : Worktree) : bool :=
  match w with
  | mkWorktree None None None => false
  | _ => true
  end.

(** [line[n:]]. *)
Fixpoint slice_from (n : nat) (line : string) : string :=
  match n, line with
  | O, _ => line
  | S n', String _ line' => slice_from n' line'
  | S _, EmptyString => EmptyString
  end.

(** The body of [for line in ...], on the pair of [worktrees] and
    [current_worktree]. *)
Definition read_line (acc : list Worktree * Worktree) (line : string)
  : list Worktree * Worktree :=
  let '(worktrees, current_worktree) := acc in
  if String.prefix "worktree " line then
    ((if has_keys current_worktree then worktrees ++ [current_worktree] else worktrees)%list,
     mkWorktree (Some (slice_from 9 line)) None None)
  else if String.prefix "branch " line then
    (worktrees,
     mkWorktree (path current_worktree) (Some (slice_from 7 line)) (head current_worktree))
  else if String.prefix "HEAD " line then
    (worktrees,
     mkWorktree (path current_worktree) (branch current_worktree) (Some (slice_from 5 line)))
  else acc.

(** [WorktreeOperations.list_worktrees]; [porcelain] is the return code
    of the git command with the lines of its stripped output
    ([result.stdout.strip().split(newline)]), or [None] when running it
    raises. *)
Definition list_worktrees (porcelain : option (Z * list string)) : list Worktree :=
  match porcelain with
  | None => []
  | Some (returncode, lines) =>
      if returncode =? 0 then
        let '(worktrees, current_worktree) := fold_left read_line lines ([], no_keys) in
        if has_keys current_worktree then (worktrees ++ [current_worktree])%list
        else worktrees
      else []
  end.

(** The paths of the entries that have one. *)
Definition paths (worktrees : list Worktree) : list string := omap path worktrees.

End Porcelain.

(** ** file_ops.py: writing a JSON file

    The files are a map from path to content; directories are there when
    needed and reads and writes succeed. *)
Module FileOps.

Section Ops.

(** The document type with [json.dumps(data, indent=2, ensure_ascii=False)],
    [pathlib]'s [with_suffix], and [int(datetime.now().timestamp())] as
    text. *)
Variable Doc : Type.
Variable dumps : Doc -> string.
Variable with_suffix : string -> string -> string.
Variable stamp : string.

(** [shutil.copy2(src, dst)] of an existing file: [None] stands for
    [SameFileError]. *)
Definition copy2 (src dst : string) (files : gmap string string)
  : option (gmap string string) :=
  match files !! src with
  | None => None
  | Some content => if decide (src = dst) then None else Some (<[dst := content]> files)
  end.

(** [FileOperations.write_json_file]. *)
Definition write_json_file (file_path : string) (data : Doc) (backup atomic : bool)
    (files : gmap string string) : bool * gmap string string :=
  let backed_up :=
    if backup && bool_decide (is_Some (files !! file_path)) then
      let backup_path := with_suffix file_path (".backup." ++ stamp)%string in
      copy2 file_path backup_path files
    else Some files in
  match backed_up with
  | None => (false, files)
  | Some files =>
      if atomic then
        let temp_path := with_suffix file_path ".tmp" in
        let files := <[temp_path := dumps data]> files in
        (* temp_path.replace(file_path) *)
        let files :=
          match files !! temp_path with
          | Some content => <[file_path := content]> (delete temp_path files)
          | None => files
          end in
        (true, files)
      else (true, <[file_path := dumps data]> files)
  end.

End Ops.

End FileOps.

(** * Properties *)

(** *** The hash model agrees with CPython 3.11 on sample strings *)
Module CPythonFacts.

Example hash_a_seed0 : CPython.py_hash (CPython.hash_secret 0) "a" = 4644417185603328019.
Proof. vm_compute. reflexivity. Qed.

Example hash_adw1_seed1 : CPython.py_hash (CPython.hash_secret 1) "adw_1" = 2812038369961030451.
Proof. vm_compute. reflexivity. Qed.

Example hash_long_seed2 :
  CPython.py_hash (CPython.hash_secret 2) "test_deterministic_123" = 2090030910643897533.
Proof. vm_compute. reflexivity. Qed.

Example hash_negative_seed0 :
  CPython.py_hash (CPython.hash_secret 0) "test_deterministic_123" = -6505177992171913004.
Proof. vm_compute. reflexivity. Qed.

End CPythonFacts.

(** *** Facts about the allocator *)
Module PortsFacts.
Import Ports.

Lemma hash_value_bounds (hash : string -> Z) (id : string) :
  0 <= hash_value hash id < 15.
Proof. unfold hash_value. apply Z.mod_pos_bound. lia. Qed.

Lemma allocate_ports_eq (hash : string -> Z) (self : ADWState) (id : string) :
  allocate_ports hash self id = (9100 + hash_value hash id, 9200 + hash_value hash id).
Proof. reflexivity. Qed.

Lemma hash_value_in_slots (hash : string -> Z) (id : string) :
  In (hash_value hash id) slots.
Proof.
  pose proof (hash_value_bounds hash id) as Hb.
  set (x := hash_value hash id) in *.
  assert (Hx : x = 0 \/ x = 1 \/ x = 2 \/ x = 3 \/ x = 4 \/ x = 5 \/ x = 6 \/ x = 7
               \/ x = 8 \/ x = 9 \/ x = 10 \/ x = 11 \/ x = 12 \/ x = 13 \/ x = 14) by lia.
  unfold slots. simpl. intuition auto.
Qed.

(** Two tasks get the same pair exactly when their hash values agree. *)
Lemma same_pair_iff_same_slot (hash : string -> Z) (self : ADWState) (a b : string) :
  allocate_ports hash self a = allocate_ports hash self b <->
  hash_value hash a = hash_value hash b.
Proof.
  rewrite !allocate_ports_eq. split.
  - intros H. injection H as H _. lia.
  - intros ->. reflexivity.
Qed.

(** A map that is not injective on a duplicate-free list has two distinct
    elements with one image. *)
Lemma collision_in_list {A B : Type} (f : A -> B) (l : list A) :
  (forall x y : B, {x = y} + {x <> y}) ->
  List.NoDup l -> ~ List.NoDup (map f l) ->
  exists a b, In a l /\ In b l /\ a <> b /\ f a = f b.
Proof.
  intros dec. induction l as [|a l IH]; intros Hnd Hdup.
  - exfalso. apply Hdup. constructor.
  - apply NoDup_cons_iff in Hnd as [Ha Hl].
    destruct (in_dec dec (f a) (map f l)) as [Hin|Hout].
    + apply in_map_iff in Hin as [b [Hfb Hb]].
      exists a, b. repeat split; [now left | now right | | congruence].
      intros ->. contradiction.
    + destruct IH as (x & y & Hx & Hy & Hxy & Hf); [assumption | | ].
      * intros Hnd'. apply Hdup. simpl. constructor; assumption.
      * exists x, y. repeat split; auto; now right.
Qed.

Lemma sixteen_ids_NoDup : List.NoDup sixteen_ids.
Proof. apply NoDup_ListNoDup, (bool_decide_unpack _). vm_compute. reflexivity. Qed.

Lemma sixteen_slots_collide (hash : string -> Z) :
  ~ List.NoDup (map (hash_value hash) sixteen_ids).
Proof.
  intros Hnd.
  assert (Hlen : (length (map (hash_value hash) sixteen_ids) <= length slots)%nat).
  { apply NoDup_incl_length; [exact Hnd|].
    intros x Hx. apply in_map_iff in Hx as [id [<- _]]. apply hash_value_in_slots. }
  simpl in Hlen. lia.
Qed.

(** Within one process the pair depends on the task id alone: not on the
    state files, and so not on which tasks are live. *)
Lemma allocate_ports_ignores_state (hash : string -> Z) (self self' : ADWState) (id : string) :
  allocate_ports hash self id = allocate_ports hash self' id.
Proof. reflexivity. Qed.

(** Two processes agree on a task's pair exactly when their [hash]
    builtins agree on the id modulo 15. *)
Lemma allocate_ports_across_processes (hash1 hash2 : string -> Z) (self : ADWState) (id : string) :
  allocate_ports hash1 self id = allocate_ports hash2 self id <->
  hash_value hash1 id = hash_value hash2 id.
Proof.
  rewrite !allocate_ports_eq. split.
  - intros H. injection H as H _. lia.
  - intros ->. reflexivity.
Qed.

(** C1 (the code does not keep it): whatever the [hash] builtin computes,
    two distinct ids among any sixteen get the same port pair, so a set of
    two live tasks can be double booked: [allocate_ports] never looks at
    the ports other tasks hold. *)
Theorem allocate_ports_double_books (hash : string -> Z) (self : ADWState) :
  exists a b : string,
    In a sixteen_ids /\ In b sixteen_ids /\ a <> b /\
    allocate_ports hash self a = allocate_ports hash self b.
Proof.
  destruct (collision_in_list (hash_value hash) sixteen_ids Z.eq_dec
              sixteen_ids_NoDup (sixteen_slots_collide hash))
    as (a & b & Ha & Hb & Hab & Hslot).
  exists a, b. repeat split; try assumption.
  now apply same_pair_iff_same_slot.
Qed.

(** The same at concrete ids: in a CPython 3.11 process started with
    [PYTHONHASHSEED=2] the tasks [adw_1] and [adw_2] both get (9114, 9214). *)
Example double_booking_seed2 (self : ADWState) :
  allocate_ports (CPython.py_hash (CPython.hash_secret 2)) self "adw_1" = (9114, 9214) /\
  allocate_ports (CPython.py_hash (CPython.hash_secret 2)) self "adw_2" = (9114, 9214).
Proof. split; vm_compute; reflexivity. Qed.

(** C7 (the code does not keep the part on restarts): the pair of one task
    id differs between two interpreter processes, here [PYTHONHASHSEED=0]
    and [PYTHONHASHSEED=1]; the [str] hash is keyed by a per-process
    secret. *)
Theorem allocate_ports_changes_across_restarts (self : ADWState) :
  allocate_ports (CPython.py_hash (CPython.hash_secret 0)) self "adw_1" = (9103, 9203) /\
  allocate_ports (CPython.py_hash (CPython.hash_secret 1)) self "adw_1" = (9111, 9211).
Proof. split; vm_compute; reflexivity. Qed.

(** C10: both ports lie in their ranges, pass the record's validators, and
    the frontend port is the backend port plus 100; two tasks collide on
    the backend range exactly when they collide on the frontend range. *)
Theorem allocate_ports_ranges_coupled (hash : string -> Z) (self : ADWState) (id id' : string) :
  let '(backend, frontend) := allocate_ports hash self id in
  let '(backend', frontend') := allocate_ports hash self id' in
  9100 <= backend <= 9114 /\ 9200 <= frontend <= 9214 /\
  frontend = backend + 100 /\
  validate_backend_port (Some backend) = Ret (Some backend) /\
  validate_frontend_port (Some frontend) = Ret (Some frontend) /\
  (backend = backend' <-> frontend = frontend').
Proof.
  rewrite !allocate_ports_eq.
  pose proof (hash_value_bounds hash id) as Hb.
  pose proof (hash_value_bounds hash id') as Hb'.
  set (x := hash_value hash id) in *. set (y := hash_value hash id') in *.
  repeat split; try lia.
  - unfold validate_backend_port.
    replace ((9100 <=? 9100 + x) && (9100 + x <=? 9114)) with true; [reflexivity|].
    symmetry. apply andb_true_intro. split; apply Z.leb_le; lia.
  - unfold validate_frontend_port.
    replace ((9200 <=? 9200 + x) && (9200 + x <=? 9214)) with true; [reflexivity|].
    symmetry. apply andb_true_intro. split; apply Z.leb_le; lia.
Qed.

End PortsFacts.

(** *** Facts about worktree validation *)
Module WorktreeFacts.
Import Ports Worktree.

Example contains_middle : contains "trees/a1" "/repo  abc [main]
/repo/trees/a1  def [feature-a1]" = true.
Proof. reflexivity. Qed.

Example contains_absent : contains "trees/a2" "/repo/trees/a1  def [feature-a1]" = false.
Proof. reflexivity. Qed.

Example lines_of_listing :
  lines sample_listing =
  ["/repo                abc1234 [main]";
   "/repo/trees/adw_10   def5678 [feature-issue-3-adw-10]";
   "/repo/trees/adw_2    0a1b2c3 [feature-issue-4-adw-2]"; ""]%string.
Proof. reflexivity. Qed.

Example listed_sample :
  listed "/repo/trees/adw_10" sample_listing = true /\
  listed "/repo/trees/adw_2" sample_listing = true /\
  listed "/repo/trees/adw_1" sample_listing = false.
Proof. repeat split; reflexivity. Qed.

(** The reported fields: [valid] is their conjunction, each is the
    conjunction of the source's tests up to it, and without a state
    record all are false. *)
Lemma validate_worktree_fields
    (Path : string -> string) (exists_ is_dir : string -> bool)
    (git_worktree_list : option (Z * string)) (self : ADWState) (id : string) :
  let v := validate_worktree Path exists_ is_dir git_worktree_list self id in
  valid v = state_has_path v && directory_exists v && git_recognizes v /\
  match load_state self id with
  | None =>
      state_has_path v = false /\ directory_exists v = false /\
      git_recognizes v = false /\ valid v = false
  | Some state =>
      let path := Path (default ""%string (worktree_path state)) in
      state_has_path v = truthy (worktree_path state) /\
      directory_exists v = state_has_path v && (exists_ path && is_dir path) /\
      git_recognizes v =
        directory_exists v &&
        match git_worktree_list with
        | Some (returncode, stdout) => (returncode =? 0) && contains path stdout
        | None => false
        end
  end.
Proof.
  unfold validate_worktree.
  destruct (load_state self id) as [state|]; cbn zeta; [|repeat split; reflexivity].
  destruct (truthy (worktree_path state)); [|repeat split; reflexivity].
  destruct (exists_ _ && is_dir _); [|repeat split; reflexivity].
  destruct git_worktree_list as [[returncode stdout]|]; [|repeat split; reflexivity].
  destruct ((returncode =? 0) && contains _ stdout); repeat split; reflexivity.
Qed.

Lemma prefix_refl (s : string) : String.prefix s s = true.
Proof.
  induction s as [|c s IH]; simpl; [reflexivity|].
  destruct (ascii_dec c c); [exact IH|contradiction].
Qed.

Lemma prefix_trans (p l s : string) :
  String.prefix p l = true -> String.prefix l s = true -> String.prefix p s = true.
Proof.
  revert l s. induction p as [|a p IH]; intros l s Hpl Hls; [now destruct s|].
  destruct l as [|b l]; [discriminate|]. destruct s as [|c s]; [discriminate|].
  simpl in *.
  destruct (ascii_dec a b) as [->|]; [|discriminate].
  destruct (ascii_dec b c) as [->|]; [|discriminate].
  eapply IH; eassumption.
Qed.

Lemma contains_tail (needle : string) (c : ascii) (hay : string) :
  contains needle hay = true -> contains needle (String c hay) = true.
Proof. intros H. cbn [contains]. rewrite H. apply orb_true_r. Qed.

Lemma prefix_contains (needle hay : string) :
  String.prefix needle hay = true -> contains needle hay = true.
Proof. intros H. destruct hay; cbn [contains]; rewrite H; reflexivity. Qed.

(** A text that begins a part of the hay is in the hay. *)
Lemma contains_prefix (needle part hay : string) :
  String.prefix needle part = true -> contains part hay = true ->
  contains needle hay = true.
Proof.
  intros Hp. induction hay as [|c hay IH]; cbn [contains]; intros H.
  - rewrite orb_false_r in H. rewrite (prefix_trans _ _ _ Hp H). reflexivity.
  - apply orb_true_iff in H as [H|H].
    + rewrite (prefix_trans _ _ _ Hp H). reflexivity.
    + rewrite (IH H). apply orb_true_r.
Qed.

Lemma prefix_rev_app (current a b : string) :
  String.prefix a b = true ->
  String.prefix (String.rev_app current a) (String.rev_app current b) = true.
Proof.
  revert a b. induction current as [|c current IH]; intros a b H; simpl; [exact H|].
  apply IH. simpl. destruct (ascii_dec c c); [exact H|contradiction].
Qed.

Lemma contains_rev_app (needle current hay : string) :
  contains needle hay = true -> contains needle (String.rev_app current hay) = true.
Proof.
  revert hay. induction current as [|c current IH]; intros hay H; simpl; [exact H|].
  apply IH, contains_tail, H.
Qed.

(** Every line of a text is a part of it. *)
Lemma lines_from_contains (line text : string) :
  forall current,
    In line (lines_from current text) ->
    contains line (String.rev_app current text) = true.
Proof.
  induction text as [|c text IH]; intros current; cbn [lines_from].
  - intros [<-|[]]. apply prefix_contains, prefix_refl.
  - destruct (nat_of_ascii c =? 10)%nat.
    + intros [<-|Hin].
      * apply prefix_contains. unfold String.rev. now apply prefix_rev_app.
      * apply contains_rev_app, contains_tail. exact (IH EmptyString Hin).
    + intros Hin. exact (IH (String c current) Hin).
Qed.

Lemma entry_for_prefix (path line : string) :
  entry_for path line = true -> String.prefix path line = true.
Proof.
  revert line. induction path as [|a path IH]; intros line H; [now destruct line|].
  destruct line as [|b line]; [discriminate|]. simpl in *.
  destruct (ascii_dec a b); [now apply IH|discriminate].
Qed.

(** A path that the listing has an entry for is in the listing's text:
    the test of the source accepts every listed path.  The converse
    fails, see the theorem below. *)
Lemma listed_contains (path stdout : string) :
  listed path stdout = true -> contains path stdout = true.
Proof.
  unfold listed, lines. intros H. apply existsb_exists in H as (line & Hin & Hentry).
  eapply contains_prefix; [apply entry_for_prefix, Hentry|].
  exact (lines_from_contains line stdout EmptyString Hin).
Qed.

(** So a task whose state names a path that is a directory and that git
    lists is reported valid. *)
Lemma listed_worktree_is_valid
    (Path : string -> string) (exists_ is_dir : string -> bool)
    (stdout : string) (self : ADWState) (id : string) (state : ADWStateData)
    (path : string) :
  load_state self id = Some state -> worktree_path state = Some path ->
  path <> ""%string ->
  exists_ (Path path) = true -> is_dir (Path path) = true ->
  listed (Path path) stdout = true ->
  valid (validate_worktree Path exists_ is_dir (Some (0, stdout)) self id) = true.
Proof.
  intros Hstate Hpath Hne Hex Hdir Hlisted.
  unfold validate_worktree. rewrite Hstate, Hpath.
  destruct path as [|c path]; [contradiction|]. cbn [truthy]. unfold default, Datatypes.id.
  rewrite Hex, Hdir, (listed_contains _ _ Hlisted). reflexivity.
Qed.

(** The first check is the claim's: the state names a path. *)
Lemma truthy_names_path (state : ADWStateData) :
  truthy (worktree_path state) = true <-> names_path state.
Proof.
  unfold names_path. split.
  - destruct (worktree_path state) as [[|c path]|]; try discriminate.
    intros _. exists (String c path). split; [reflexivity|discriminate].
  - intros [path [-> Hpath]]. destruct path; [contradiction|reflexivity].
Qed.

(** C6: the third check of [validate_worktree] looks for the path
    anywhere in the text of the listing, not among its entries.  With the
    state of task adw_1 naming [/repo/trees/adw_1], that directory on
    disk, and git listing worktrees at [/repo], [/repo/trees/adw_10] and
    [/repo/trees/adw_2] only, no entry of the listing is the task's path,
    yet [git_recognizes] and [valid] are both true. *)
Theorem validate_worktree_accepts_unlisted_path :
  let v := validate_worktree (fun path => path) (fun _ => true) (fun _ => true)
             (Some (0, sample_listing)) sample_state "adw_1" in
  (exists state, load_state sample_state "adw_1" = Some state /\
     worktree_path state = Some "/repo/trees/adw_1"%string /\ names_path state) /\
  listed "/repo/trees/adw_1" sample_listing = false /\
  state_has_path v = true /\ directory_exists v = true /\
  git_recognizes v = true /\ valid v = true.
Proof.
  cbn zeta. split; [|repeat split; vm_compute; reflexivity].
  eexists. split; [vm_compute; reflexivity|]. split; [reflexivity|].
  apply truthy_names_path. reflexivity.
Qed.

End WorktreeFacts.

(** *** Facts about the store's mutators *)
Module StateStoreFacts.
Import StateStore.
Local Open Scope list_scope.

Lemma mem_In (x : string) (l : list string) : mem x l = true <-> In x l.
Proof. unfold mem. destruct (in_dec string_dec x l); split; intros; [assumption|reflexivity|discriminate|contradiction]. Qed.

Lemma mem_not_In (x : string) (l : list string) : mem x l = false <-> ~ In x l.
Proof. unfold mem. destruct (in_dec string_dec x l); split; intros; [discriminate|contradiction|assumption|reflexivity]. Qed.

Lemma remove_first_In (x y : string) (l : list string) :
  In y (remove_first x l) -> In y l.
Proof.
  induction l as [|z l IH]; simpl; [tauto|].
  destruct (string_dec x z); simpl; intuition.
Qed.

Lemma remove_first_NoDup (x : string) (l : list string) :
  List.NoDup l -> List.NoDup (remove_first x l).
Proof.
  induction 1 as [|z l Hz Hl IH]; simpl; [constructor|].
  destruct (string_dec x z); [assumption|].
  constructor; [|assumption]. intros Hin. apply Hz. eapply remove_first_In, Hin.
Qed.

Lemma NoDup_snoc (x : string) (l : list string) :
  List.NoDup l -> ~ In x l -> List.NoDup (l ++ [x]).
Proof.
  intros Hl Hx.
  induction Hl as [|z l Hz Hl IH]; simpl.
  - constructor; [tauto|constructor].
  - constructor.
    + rewrite in_app_iff. simpl. intros [H|[H|[]]]; [contradiction|].
      apply Hx. left. congruence.
    + apply IH. intros H. apply Hx. now right.
Qed.

Section Runs.

Context {dirs : TaskDirs}.

(** What each mutator does to the record of a task that has one. *)
Lemma update_status_run (id : string) (status : WorkflowStatus) (action : string)
    (err : option string) (store : Store) (st : StateData) :
  store !! task_dir id = Some st -> task_dir (adw_id st) = task_dir id ->
  exists st',
    update_status id status action err store = (Ret true, <[task_dir id := st']> store) /\
    adw_id st' = adw_id st /\ stages st' = stages st /\
    completed_stages st' = completed_stages st /\
    failed_stages st' = failed_stages st /\
    current_stage st' = current_stage st /\
    workflow_status st' = value status /\
    error_message st' =
      match err with Some (String _ _) => err | _ => error_message st end.
Proof.
  intros Hst Hid. unfold update_status, bind, load_state, save_state. rewrite Hst.
  eexists. split.
  - f_equal. f_equal. destruct (nonempty action), err as [[|c e]|]; simpl; exact Hid.
  - destruct (nonempty action), err as [[|c e]|]; simpl; repeat split; assumption.
Qed.

Lemma update_stage_run (id stage : string) (p : option Q) (store : Store) (st : StateData) :
  store !! task_dir id = Some st -> task_dir (adw_id st) = task_dir id ->
  exists st',
    update_stage id stage p store = (Ret true, <[task_dir id := st']> store) /\
    adw_id st' = adw_id st /\ stages st' = stages st /\
    completed_stages st' = completed_stages st /\
    failed_stages st' = failed_stages st /\
    current_stage st' = stage /\
    workflow_status st' = value EXECUTING /\
    error_message st' = error_message st.
Proof.
  intros Hst Hid. unfold update_stage, bind, load_state, save_state. rewrite Hst.
  eexists. split.
  - f_equal. f_equal. destruct p; simpl; exact Hid.
  - destruct p; simpl; repeat split; assumption.
Qed.

Lemma add_log_run (id lvl stage msg : string) (store : Store) (st : StateData) :
  store !! task_dir id = Some st -> task_dir (adw_id st) = task_dir id ->
  exists st',
    add_log id lvl stage msg store = (Ret true, <[task_dir id := st']> store) /\
    adw_id st' = adw_id st /\ stages st' = stages st /\
    completed_stages st' = completed_stages st /\
    failed_stages st' = failed_stages st /\
    current_stage st' = current_stage st /\
    workflow_status st' = workflow_status st /\
    error_message st' = error_message st.
Proof.
  intros Hst Hid. unfold add_log, bind, load_state, save_state. rewrite Hst.
  eexists. split.
  - f_equal. f_equal. simpl. exact Hid.
  - simpl. repeat split; assumption.
Qed.

Lemma fail_stage_run (id stage msg : string) (store : Store) (st : StateData) :
  store !! task_dir id = Some st -> task_dir (adw_id st) = task_dir id ->
  exists st',
    fail_stage id stage msg store = (Ret true, <[task_dir id := st']> store) /\
    adw_id st' = adw_id st /\ stages st' = stages st /\
    completed_stages st' =
      (if mem stage (completed_stages st)
       then remove_first stage (completed_stages st) else completed_stages st) /\
    failed_stages st' =
      (if mem stage (failed_stages st)
       then failed_stages st else failed_stages st ++ [stage]) /\
    current_stage st' = current_stage st /\
    workflow_status st' = value FAILED /\
    error_message st' = Some msg.
Proof.
  intros Hst Hid. unfold fail_stage, bind, load_state, save_state. rewrite Hst.
  destruct (mem stage (failed_stages st)) eqn:Hf; cbn -[mem];
    destruct (mem stage (completed_stages st)) eqn:Hc; cbn -[mem]; rewrite ?Hid;
    (eexists; split; [reflexivity|]); cbn -[mem]; repeat split; auto.
Qed.

Lemma complete_stage_run (id stage : string) (store : Store) (st : StateData) :
  store !! task_dir id = Some st -> task_dir (adw_id st) = task_dir id -> stages st <> [] ->
  exists st',
    complete_stage id stage store = (Ret true, <[task_dir id := st']> store) /\
    adw_id st' = adw_id st /\ stages st' = stages st /\
    completed_stages st' =
      (if mem stage (completed_stages st)
       then completed_stages st else completed_stages st ++ [stage]) /\
    failed_stages st' =
      (if mem stage (failed_stages st)
       then remove_first stage (failed_stages st) else failed_stages st) /\
    workflow_status st' =
      (if (length (completed_stages st') =? length (stages st))%nat
       then value COMPLETED else workflow_status st) /\
    error_message st' = error_message st.
Proof.
  intros Hst Hid Hne. unfold complete_stage, bind, load_state, save_state, raise. rewrite Hst.
  destruct (stages st) as [|s0 ss] eqn:Hstages; [congruence|].
  destruct (mem stage (completed_stages st)) eqn:Hc; cbn -[mem Nat.eqb length];
    destruct (mem stage (failed_stages st)) eqn:Hf; cbn -[mem Nat.eqb length];
    rewrite ?Hstages; change (length (s0 :: ss) =? 0)%nat with false;
    cbn -[mem Nat.eqb length];
    match goal with
    | |- context [(?a =? ?b)%nat] => destruct (a =? b)%nat eqn:Hlen
    end;
    cbn -[mem Nat.eqb length]; rewrite ?Hid; (eexists; split; [reflexivity|]);
    cbn -[mem Nat.eqb length]; rewrite ?Hstages, ?Hlen; repeat split; auto.
Qed.

Lemma value_inj (a b : WorkflowStatus) : value a = value b -> a = b.
Proof. destruct a, b; simpl; intros H; first [reflexivity | discriminate H]. Qed.

Lemma initialize_state_inv (task_data : TaskDict) (store store' : Store) (st : StateData) :
  initialize_state task_data store = (Ret st, store') ->
  exists st0,
    new_StateData task_data = Ret st0 /\
    st = set_workflow_status (value INITIALIZED) st0 /\
    store' = <[task_dir (adw_id st) := st]> store.
Proof.
  unfold initialize_state. destruct (new_StateData task_data) as [st0|e]; [|discriminate].
  unfold bind, save_state, ret. cbn. intros H. injection H as <- <-.
  exists st0. repeat split.
Qed.

(** The record [StateData] builds holds what the dictionary gives. *)
Lemma new_StateData_fields (task_data : TaskDict) (st0 : StateData) :
  new_StateData task_data = Ret st0 ->
  td_adw_id task_data = Some (adw_id st0) /\
  stages st0 = default ["plan"; "implement"]%string (td_stages task_data) /\
  current_stage st0 = default ""%string (td_current_stage task_data) /\
  completed_stages st0 = default [] (td_completed_stages task_data) /\
  failed_stages st0 = default [] (td_failed_stages task_data) /\
  logs st0 = default [] (td_logs task_data) /\
  error_message st0 = td_error_message task_data.
Proof.
  unfold new_StateData.
  destruct (negb (only_keys unread_fields (td_other task_data))); [discriminate|].
  destruct (td_adw_id task_data) as [id|]; [|discriminate].
  destruct (td_title task_data) as [t|]; [|discriminate].
  destruct (td_description task_data) as [d|]; [|discriminate].
  intros H. injection H as <-. cbn. repeat split.
Qed.

Lemma tracks_fresh (task_data : TaskDict) (store store' : Store) (st : StateData) :
  TaskProcessor.declared_progress task_data ->
  initialize_state task_data store = (Ret st, store') ->
  store' !! task_dir (adw_id st) = Some st /\ tracks (stages st) (adw_id st) st.
Proof.
  intros [Hnd Hincl] Hinit.
  destruct (initialize_state_inv _ _ _ _ Hinit) as (st0 & Hnew & -> & ->).
  destruct (new_StateData_fields _ _ Hnew) as (_ & Hs & _ & Hc & _).
  split; [apply lookup_insert_eq|].
  unfold tracks. cbn. rewrite Hs, Hc. repeat split; auto. discriminate.
Qed.

Lemma call_tracks (declared : list string) (id : string) (m : mutator)
    (store : Store) (st : StateData) :
  allowed declared m -> store !! task_dir id = Some st -> tracks declared id st ->
  exists st', snd (call id m store) !! task_dir id = Some st' /\ tracks declared id st'.
Proof.
  intros Hm Hst (Hid & Hstages & Hnd & Hincl & Hall).
  destruct m as [status action err|stage p|stage|stage msg|lvl stage msg]; simpl in *.
  - destruct (update_status_run id status action err store st Hst Hid)
      as (st' & -> & Hid' & Hs' & Hc' & _ & _ & Hw' & _).
    exists st'. simpl. split; [apply lookup_insert_eq|].
    unfold tracks. rewrite Hid', Hs', Hc', Hw'. repeat split; auto.
    intros Hv. apply value_inj in Hv. contradiction.
  - destruct (update_stage_run id stage p store st Hst Hid)
      as (st' & -> & Hid' & Hs' & Hc' & _ & _ & Hw' & _).
    exists st'. simpl. split; [apply lookup_insert_eq|].
    unfold tracks. rewrite Hid', Hs', Hc', Hw'. repeat split; auto.
    intros Hv. discriminate Hv.
  - assert (Hne : stages st <> []).
    { rewrite Hstages. intros Heq. rewrite Heq in Hm. exact Hm. }
    destruct (complete_stage_run id stage store st Hst Hid Hne)
      as (st' & -> & Hid' & Hs' & Hc' & _ & Hw' & _).
    exists st'. simpl. split; [apply lookup_insert_eq|].
    assert (Hnd' : List.NoDup (completed_stages st')).
    { rewrite Hc'. destruct (mem stage (completed_stages st)) eqn:Hmem; [assumption|].
      apply NoDup_snoc; [assumption|]. now apply mem_not_In. }
    assert (Hincl' : incl (completed_stages st') declared).
    { rewrite Hc'. destruct (mem stage (completed_stages st)); [assumption|].
      intros x Hx. apply in_app_iff in Hx as [Hx|[<-|[]]]; auto. }
    assert (Hgrow : incl (completed_stages st) (completed_stages st')).
    { rewrite Hc'. destruct (mem stage (completed_stages st)); [apply incl_refl|].
      apply incl_appl, incl_refl. }
    unfold tracks. rewrite Hid', Hs'. repeat split; auto.
    rewrite Hw'. destruct (length (completed_stages st') =? length (stages st))%nat eqn:Hlen.
    + intros _. apply Nat.eqb_eq in Hlen.
      apply NoDup_length_incl; [assumption| |assumption].
      rewrite Hlen, Hstages. apply Nat.le_refl.
    + intros Hv. eapply incl_tran; [apply Hall, Hv|exact Hgrow].
  - destruct (fail_stage_run id stage msg store st Hst Hid)
      as (st' & -> & Hid' & Hs' & Hc' & _ & _ & Hw' & _).
    exists st'. simpl. split; [apply lookup_insert_eq|].
    unfold tracks. rewrite Hid', Hs', Hc', Hw'. repeat split; auto.
    + destruct (mem stage (completed_stages st)); [|assumption].
      now apply remove_first_NoDup.
    + destruct (mem stage (completed_stages st)); [|assumption].
      intros x Hx. apply Hincl. eapply remove_first_In, Hx.
    + intros Hv. discriminate Hv.
  - destruct (add_log_run id lvl stage msg store st Hst Hid)
      as (st' & -> & Hid' & Hs' & Hc' & _ & _ & Hw' & _).
    exists st'. simpl. split; [apply lookup_insert_eq|].
    unfold tracks. rewrite Hid', Hs', Hc', Hw'. repeat split; auto.
Qed.

Lemma calls_tracks (declared : list string) (id : string) (ms : list mutator)
    (store : Store) (st : StateData) :
  Forall (allowed declared) ms -> store !! task_dir id = Some st -> tracks declared id st ->
  exists st', calls id ms store !! task_dir id = Some st' /\ tracks declared id st'.
Proof.
  intros Hms. revert store st.
  induction Hms as [|m ms Hm Hms IH]; intros store st Hst Ht; simpl.
  - exists st. split; assumption.
  - destruct (call_tracks declared id m store st Hm Hst Ht) as (st1 & Hst1 & Ht1).
    exact (IH _ _ Hst1 Ht1).
Qed.

End Runs.

End StateStoreFacts.

(** *** Facts about [process_task] *)
Module ProcessTaskFacts.
Import StateStore StateStoreFacts TaskProcessor.
Local Open Scope list_scope.

Lemma bind_run {A B : Type} (c : M A) (k : A -> M B) (store store' : Store) (a : A) :
  c store = (Ret a, store') -> bind c k store = k a store'.
Proof. intros H. unfold bind. rewrite H. reflexivity. Qed.

Section Loop.

Context {dirs : TaskDirs}.

Lemma tracks_after (declared : list string) (id : string) (m : mutator)
    (store : Store) (st st' : StateData) (r : res bool) :
  allowed declared m -> store !! task_dir id = Some st -> tracks declared id st ->
  call id m store = (r, <[task_dir id := st']> store) -> tracks declared id st'.
Proof.
  intros Hm Hst Ht Hcall.
  destruct (call_tracks declared id m store st Hm Hst Ht) as (st2 & Hst2 & Ht2).
  rewrite Hcall in Hst2. simpl in Hst2. rewrite lookup_insert_eq in Hst2.
  injection Hst2 as ->. exact Ht2.
Qed.

Variable config : WorkflowConfig.
Variable stage_succeeds : nat -> string -> bool.
Variable shutdown_is_set : nat -> bool.
Variable declared : list string.
Variable id : string.
Variable total : nat.

(** The stage loop on a task that has a record with the stage list
    [declared]: it returns and leaves a record; [Some b] comes with
    [b = False] and a failed stage. *)
Lemma stage_loop_spec (rest : list string) :
  forall (i : nat) (store : Store) (st : StateData),
    store !! task_dir id = Some st -> task_dir (adw_id st) = task_dir id ->
    stages st = declared -> incl rest declared ->
    exists (r : option bool) (store' : Store) (st' : StateData),
      stage_loop config stage_succeeds shutdown_is_set id total i rest store
        = (Ret r, store') /\
      store' !! task_dir id = Some st' /\
      adw_id st' = adw_id st /\ stages st' = declared /\
      (tracks declared id st -> tracks declared id st') /\
      match r with
      | Some b => b = false /\ stage_failed st'
      | None =>
          pipeline_continue_on_failure config = false ->
          (forall k, shutdown_is_set k = false) ->
          incl (completed_stages st) (completed_stages st') /\
          incl rest (completed_stages st')
      end.
Proof.
  induction rest as [|stage rest IH]; intros i store st Hst Hid Hstages Hincl.
  - exists None, store, st. simpl. unfold ret.
    split; [reflexivity|]. split; [assumption|]. split; [reflexivity|].
    split; [assumption|]. split; [tauto|].
    intros _ _. split; [apply incl_refl|intros x []].
  - simpl. destruct (shutdown_is_set i) eqn:Hshut.
    + exists None, store, st. unfold ret.
      split; [reflexivity|]. split; [assumption|]. split; [reflexivity|].
      split; [assumption|]. split; [tauto|].
      intros _ Hnever. rewrite Hnever in Hshut. discriminate Hshut.
    + assert (Hstage : In stage declared) by (apply Hincl; now left).
      assert (Hrest : incl rest declared) by (intros x Hx; apply Hincl; now right).
      (* update_stage *)
      match goal with |- context [update_stage id stage ?p] => set (p0 := p) end.
      destruct (update_stage_run id stage p0 store st Hst Hid)
        as (st1 & E1 & Hid1 & Hs1 & Hc1 & Hf1 & Hcur1 & _ & _).
      assert (Hd1 : task_dir (adw_id st1) = task_dir id) by (rewrite Hid1; exact Hid).
      assert (Ht1 : tracks declared id st -> tracks declared id st1)
        by (intros Ht; eapply (tracks_after declared id (UpdateStage stage p0)); eauto; exact I).
      rewrite (bind_run _ _ _ _ _ E1).
      assert (L1 : <[task_dir id:=st1]> store !! task_dir id = Some st1)
        by apply lookup_insert_eq.
      (* add_log *)
      match goal with |- context [add_log id ?l stage ?m] => set (l0 := l); set (m0 := m) end.
      destruct (add_log_run id l0 stage m0 _ st1 L1 Hd1)
        as (st2 & E2 & Hid2 & Hs2 & Hc2 & Hf2 & Hcur2 & _ & _).
      assert (Hd2 : task_dir (adw_id st2) = task_dir id) by (rewrite Hid2; exact Hd1).
      assert (Ht2 : tracks declared id st -> tracks declared id st2)
        by (intros Ht; eapply (tracks_after declared id (AddLog l0 stage m0)); eauto; exact I).
      rewrite (bind_run _ _ _ _ _ E2).
      assert (L2 : <[task_dir id:=st2]> (<[task_dir id:=st1]> store) !! task_dir id = Some st2)
        by apply lookup_insert_eq.
      cbv zeta. destruct (stage_succeeds i stage).
      * (* the stage succeeded *)
        assert (Hne : stages st2 <> []).
        { rewrite Hs2, Hs1, Hstages. intros Heq. rewrite Heq in Hstage. exact Hstage. }
        destruct (complete_stage_run id stage _ st2 L2 Hd2 Hne)
          as (st3 & E3 & Hid3 & Hs3 & Hc3 & _ & _ & _).
        assert (Hd3 : task_dir (adw_id st3) = task_dir id) by (rewrite Hid3; exact Hd2).
        assert (Ht3 : tracks declared id st -> tracks declared id st3)
          by (intros Ht; eapply (tracks_after declared id (CompleteStage stage)); eauto;
              exact Hstage).
        rewrite (bind_run _ _ _ _ _ E3).
        match goal with
        | |- context [bind (add_log id ?l stage ?m)] => set (l1 := l); set (m1 := m)
        end.
        match type of E3 with _ = (_, ?s) => set (store3 := s) in * end.
        assert (L3 : store3 !! task_dir id = Some st3) by apply lookup_insert_eq.
        destruct (add_log_run id l1 stage m1 _ st3 L3 Hd3)
          as (st4 & E4 & Hid4 & Hs4 & Hc4 & _ & _ & _ & _).
        assert (Hd4 : task_dir (adw_id st4) = task_dir id) by (rewrite Hid4; exact Hd3).
        assert (Ht4 : tracks declared id st -> tracks declared id st4)
          by (intros Ht; eapply (tracks_after declared id (AddLog l1 stage m1)); eauto;
              exact I).
        rewrite (bind_run _ _ _ _ _ E4).
        assert (L4 : <[task_dir id:=st4]> store3 !! task_dir id = Some st4)
          by apply lookup_insert_eq.
        assert (Hst4 : stages st4 = declared) by (rewrite Hs4, Hs3, Hs2, Hs1; exact Hstages).
        destruct (IH (S i) _ st4 L4 Hd4 Hst4 Hrest)
          as (r & store' & st' & Eloop & Hst' & Hid' & Hs' & Ht' & Hr).
        exists r, store', st'.
        split; [assumption|]. split; [assumption|].
        split; [rewrite Hid', Hid4, Hid3, Hid2, Hid1; reflexivity|].
        split; [assumption|]. split; [tauto|].
        destruct r as [b|]; [exact Hr|].
        intros Hcont Hnever. destruct (Hr Hcont Hnever) as [Hgrow Hall].
        assert (Hstep : incl (completed_stages st) (completed_stages st4)).
        { rewrite Hc4, Hc3, Hc2, Hc1.
          destruct (mem stage (completed_stages st)); [apply incl_refl|].
          apply incl_appl, incl_refl. }
        assert (Hin : In stage (completed_stages st4)).
        { rewrite Hc4, Hc3, Hc2, Hc1.
          destruct (mem stage (completed_stages st)) eqn:Hmem; [now apply mem_In|].
          apply in_app_iff. right. now left. }
        split.
        -- eapply incl_tran; eassumption.
        -- intros x [<-|Hx]; [apply Hgrow, Hin|apply Hall, Hx].
      * (* the stage failed *)
        match goal with |- context [fail_stage id stage ?m] => set (msg := m) end.
        destruct (fail_stage_run id stage msg _ st2 L2 Hd2)
          as (st3 & E3 & Hid3 & Hs3 & _ & Hf3 & Hcur3 & Hw3 & He3).
        assert (Hd3 : task_dir (adw_id st3) = task_dir id) by (rewrite Hid3; exact Hd2).
        assert (Ht3 : tracks declared id st -> tracks declared id st3)
          by (intros Ht; eapply (tracks_after declared id (FailStage stage msg)); eauto;
              exact I).
        rewrite (bind_run _ _ _ _ _ E3).
        match type of E3 with _ = (_, ?s) => set (store3 := s) in * end.
        assert (L3 : store3 !! task_dir id = Some st3) by apply lookup_insert_eq.
        destruct (add_log_run id "error" stage msg _ st3 L3 Hd3)
          as (st4 & E4 & Hid4 & Hs4 & _ & Hf4 & Hcur4 & Hw4 & He4).
        assert (Hd4 : task_dir (adw_id st4) = task_dir id) by (rewrite Hid4; exact Hd3).
        assert (Ht4 : tracks declared id st -> tracks declared id st4)
          by (intros Ht; eapply (tracks_after declared id (AddLog "error" stage msg)); eauto;
              exact I).
        rewrite (bind_run _ _ _ _ _ E4).
        assert (L4 : <[task_dir id:=st4]> store3 !! task_dir id = Some st4)
          by apply lookup_insert_eq.
        assert (Hst4 : stages st4 = declared) by (rewrite Hs4, Hs3, Hs2, Hs1; exact Hstages).
        destruct (pipeline_continue_on_failure config) eqn:Hcont; simpl.
        -- destruct (IH (S i) _ st4 L4 Hd4 Hst4 Hrest)
             as (r & store' & st' & Eloop & Hst' & Hid' & Hs' & Ht' & Hr).
           exists r, store', st'.
           split; [assumption|]. split; [assumption|].
           split; [rewrite Hid', Hid4, Hid3, Hid2, Hid1; reflexivity|].
           split; [assumption|]. split; [tauto|].
           destruct r as [b|]; [exact Hr|]. intros Hfalse. discriminate Hfalse.
        -- exists (Some false), (<[task_dir id:=st4]> store3), st4.
           unfold ret.
           split; [reflexivity|]. split; [assumption|].
           split; [rewrite Hid4, Hid3, Hid2, Hid1; reflexivity|].
           split; [assumption|]. split; [assumption|].
           split; [reflexivity|]. unfold stage_failed. split; [|split].
           ++ rewrite Hw4. exact Hw3.
           ++ rewrite Hcur4, Hcur3, Hcur2, Hcur1, Hf4, Hf3.
              destruct (mem stage (failed_stages st2)) eqn:Hmem; [now apply mem_In|].
              apply in_app_iff. right. now left.
           ++ rewrite He4, He3, Hcur4, Hcur3, Hcur2, Hcur1. reflexivity.
Qed.

End Loop.

Section Process.

Context {dirs : TaskDirs}.

Lemma initialize_state_run (task_data : TaskDict) (id : string) :
  well_formed task_data id ->
  exists st0,
    (forall store,
        initialize_state task_data store = (Ret st0, <[task_dir id := st0]> store)) /\
    adw_id st0 = id /\ workflow_status st0 = value INITIALIZED /\
    stages st0 = default ["plan"; "implement"]%string (td_stages task_data) /\
    current_stage st0 = default ""%string (td_current_stage task_data) /\
    completed_stages st0 = default [] (td_completed_stages task_data) /\
    failed_stages st0 = default [] (td_failed_stages task_data) /\
    logs st0 = default [] (td_logs task_data) /\
    error_message st0 = td_error_message task_data.
Proof.
  intros (Hid & _ & Ht & Hd & Hkeys). unfold initialize_state, new_StateData.
  rewrite Hid, Hkeys.
  destruct (td_title task_data) as [t|]; [|congruence].
  destruct (td_description task_data) as [d|]; [|congruence].
  eexists. unfold bind, save_state, ret. cbn. split; [reflexivity|].
  repeat split.
Qed.

(** What [process_task] leaves for a well-formed task: the record is
    there.  When the logger cannot be set up the result is [False] and
    the fresh record is marked failed; otherwise a [False] result comes
    with a failed stage, and a [True] result with status completed, and
    with every declared stage completed when stage failures stop the task
    and no shutdown is requested. *)
Lemma process_task_spec (config : WorkflowConfig) (new_WorkflowLogger : string -> res unit)
    (stage_succeeds : nat -> string -> bool)
    (shutdown_is_set : nat -> bool) (task_data : TaskDict) (id : string) (store : Store) :
  well_formed task_data id ->
  exists (b : bool) (store' : Store) (st : StateData),
    process_task config new_WorkflowLogger stage_succeeds shutdown_is_set task_data store
      = (b, store') /\
    store' !! task_dir id = Some st /\ adw_id st = id /\
    stages st = default ["plan"; "implement"]%string (td_stages task_data) /\
    (declared_progress task_data ->
     List.NoDup (completed_stages st) /\ incl (completed_stages st) (stages st)) /\
    match new_WorkflowLogger id with
    | Raise e =>
        b = false /\ workflow_status st = value FAILED /\
        current_stage st = default ""%string (td_current_stage task_data) /\
        failed_stages st = default [] (td_failed_stages task_data) /\
        error_message st =
          match Some (str_exn e) with
          | Some (String _ _) => Some (str_exn e)
          | _ => td_error_message task_data
          end
    | Ret _ =>
        if b then
          workflow_status st = value COMPLETED /\
          (pipeline_continue_on_failure config = false ->
           (forall k, shutdown_is_set k = false) ->
           incl (stages st) (completed_stages st))
        else stage_failed st
    end.
Proof.
  intros Hwf. pose proof Hwf as (Hid & Hne & _).
  destruct (initialize_state_run task_data id Hwf)
    as (st0 & E0 & Hid0 & Hw0 & Hs0 & Hcur0 & Hc0 & Hf0 & _ & He0).
  specialize (E0 store).
  assert (Hd0 : task_dir (adw_id st0) = task_dir id) by (rewrite Hid0; reflexivity).
  assert (Ht0 : declared_progress task_data -> tracks (stages st0) id st0).
  { intros [Hnd Hincl]. unfold tracks. rewrite Hs0, Hc0, Hw0.
    repeat split; auto. discriminate. }
  unfold process_task. rewrite Hid. destruct id as [|c id']; [congruence|].
  set (id := String c id') in *.
  unfold try_except. rewrite (bind_run _ _ _ _ _ E0).
  assert (L0 : <[task_dir id:=st0]> store !! task_dir id = Some st0) by apply lookup_insert_eq.
  destruct (new_WorkflowLogger id) as [u|e] eqn:Hlog.
  - unfold lift at 1. unfold bind at 1.
    match goal with |- context [update_status id EXECUTING ?a ?e] => set (a0 := a) end.
    destruct (update_status_run id EXECUTING a0 None _ st0 L0 Hd0)
      as (st1 & E1 & Hid1 & Hs1 & Hc1 & _).
    assert (Hd1 : task_dir (adw_id st1) = task_dir id) by (rewrite Hid1; exact Hd0).
    assert (Ht1 : declared_progress task_data -> tracks (stages st0) id st1).
    { intros Hdp.
      eapply (tracks_after (stages st0) id (UpdateStatus EXECUTING a0 None)); eauto.
      simpl. discriminate. }
    rewrite (bind_run _ _ _ _ _ E1). cbv zeta.
    match type of E1 with _ = (_, ?s) => set (store1 := s) in * end.
    assert (L1 : store1 !! task_dir id = Some st1) by apply lookup_insert_eq.
    destruct (stage_loop_spec config stage_succeeds shutdown_is_set (stages st0) id
                (length (stages st0)) (stages st0) 0%nat _ st1 L1 Hd1 Hs1 (incl_refl _))
      as (r & store2 & st2 & E2 & L2 & Hid2 & Hs2 & Ht2 & Hr).
    rewrite (bind_run _ _ _ _ _ E2).
    assert (Hd2 : task_dir (adw_id st2) = task_dir id) by (rewrite Hid2; exact Hd1).
    destruct r as [b|].
    + destruct Hr as [-> Hfail]. unfold ret.
      exists false, store2, st2.
      split; [reflexivity|]. split; [assumption|].
      split; [rewrite Hid2, Hid1; exact Hid0|].
      split; [rewrite Hs2; exact Hs0|].
      split; [|exact Hfail].
      intros Hdp. destruct (Ht2 (Ht1 Hdp)) as (_ & _ & Hnd2 & Hincl2 & _).
      rewrite Hs2. split; assumption.
    + match goal with |- context [update_status id COMPLETED ?a ?e] => set (a1 := a) end.
      destruct (update_status_run id COMPLETED a1 None _ st2 L2 Hd2)
        as (st3 & E3 & Hid3 & Hs3 & Hc3 & _ & _ & Hw3 & _).
      rewrite (bind_run _ _ _ _ _ E3). unfold ret.
      exists true, (<[task_dir id:=st3]> store2), st3.
      split; [reflexivity|]. split; [apply lookup_insert_eq|].
      split; [rewrite Hid3, Hid2, Hid1; exact Hid0|].
      split; [rewrite Hs3, Hs2; exact Hs0|].
      split.
      * intros Hdp. destruct (Ht2 (Ht1 Hdp)) as (_ & _ & Hnd2 & Hincl2 & _).
        rewrite Hs3, Hc3, Hs2. split; assumption.
      * split; [exact Hw3|]. intros Hcont Hnever.
        rewrite Hs3, Hc3, Hs2. apply (Hr Hcont Hnever).
  - unfold lift at 1. unfold bind at 1.
    match goal with |- context [update_status id FAILED ?a ?e] => set (a0 := a) end.
    destruct (update_status_run id FAILED a0 (Some (str_exn e)) _ st0 L0 Hd0)
      as (st1 & E1 & Hid1 & Hs1 & Hc1 & Hf1 & Hcur1 & Hw1 & He1).
    rewrite (bind_run _ _ _ _ _ E1). unfold ret.
    exists false, (<[task_dir id:=st1]> (<[task_dir id:=st0]> store)), st1.
    split; [reflexivity|]. split; [apply lookup_insert_eq|].
    split; [rewrite Hid1; exact Hid0|].
    split; [rewrite Hs1; exact Hs0|].
    split.
    + intros [Hnd Hincl]. rewrite Hs1, Hc1, Hs0, Hc0. split; assumption.
    + split; [reflexivity|]. split; [exact Hw1|].
      split; [rewrite Hcur1; exact Hcur0|].
      split; [rewrite Hf1; exact Hf0|].
      rewrite He1, He0. reflexivity.
Qed.

End Process.

(** C3 as stated fails: [update_status] sets the status to completed
    whatever [completed_stages] holds; here no stage is completed. *)
Lemma completed_without_stages :
  exists st : StateData,
    calls (dirs := plain_dirs) "t1" [UpdateStatus COMPLETED "" None]
      (snd (initialize_state (dirs := plain_dirs) demo_task ∅)) !! "t1"%string = Some st /\
    workflow_status st = value COMPLETED /\
    stages st = ["plan"; "implement"]%string /\
    completed_stages st = [] /\
    ~ (forall s, In s (completed_stages st) <-> In s (stages st)).
Proof.
  eexists. split; [vm_compute; reflexivity|]. cbn.
  repeat split. intros H. destruct (proj2 (H "plan"%string)); now left.
Qed.

(** [process_task] reaches the same kind of state: with
    continue-on-failure enabled a task whose first stage fails ends
    completed, and so does a task stopped by a shutdown request. *)
Example completed_after_failed_stage :
  let '(result, store) :=
    process_task (dirs := plain_dirs) continue_on_failure (fun _ => Ret tt)
      (fun i _ => Nat.eqb i 1) (fun _ => false) demo_task ∅ in
  result = true /\
  exists st : StateData,
    store !! "t1"%string = Some st /\ workflow_status st = value COMPLETED /\
    completed_stages st = ["implement"]%string /\ failed_stages st = ["plan"]%string.
Proof. vm_compute. split; [reflexivity|]. eexists. repeat split. Qed.

Example completed_after_shutdown :
  let '(result, store) :=
    process_task (dirs := plain_dirs) stop_on_failure (fun _ => Ret tt)
      (fun _ _ => true) (fun i => Nat.eqb i 1) demo_task ∅ in
  result = true /\
  exists st : StateData,
    store !! "t1"%string = Some st /\ workflow_status st = value COMPLETED /\
    completed_stages st = ["plan"]%string.
Proof. vm_compute. split; [reflexivity|]. eexists. repeat split. Qed.

(** A task dictionary may bring [completed_stages] of its own:
    [StateData] takes them as they are.  With one declared stage and an
    undeclared one listed as completed, [process_task] ends with both
    names in [completed_stages]. *)
Example completed_with_undeclared_stage :
  let '(result, store) :=
    process_task (dirs := plain_dirs) stop_on_failure (fun _ => Ret tt)
      (fun _ _ => true) (fun _ => false) resumed_task ∅ in
  result = true /\
  exists st : StateData,
    store !! "t1"%string = Some st /\ workflow_status st = value COMPLETED /\
    stages st = ["plan"]%string /\
    completed_stages st = ["deploy"; "plan"]%string.
Proof. vm_compute. split; [reflexivity|]. eexists. repeat split. Qed.

(** C3, amended: for a task set up by [initialize_state] from a
    dictionary whose own [completed_stages], if it has any, is a
    duplicate-free part of its stage list, and then changed by the stage
    mutators ([complete_stage] on its declared stages, [update_status] to
    any status but completed), status completed means that
    [completed_stages] holds each stage of the stage list, once; and a
    [process_task] on such a dictionary that stops on stage failure, sees
    no shutdown request and returns [True] leaves the task completed with
    that property. *)
Theorem completed_accounts_for_every_stage :
  (forall (dirs : TaskDirs) (task_data : TaskDict) (store0 store1 : Store)
          (st0 st : StateData) (ms : list mutator),
      declared_progress task_data ->
      initialize_state task_data store0 = (Ret st0, store1) ->
      Forall (allowed (stages st0)) ms ->
      calls (adw_id st0) ms store1 !! task_dir (adw_id st0) = Some st ->
      workflow_status st = value COMPLETED ->
      List.NoDup (completed_stages st) /\
      forall s, In s (completed_stages st) <-> In s (stages st)) /\
  (forall (dirs : TaskDirs) (config : WorkflowConfig)
          (new_WorkflowLogger : string -> res unit)
          (stage_succeeds : nat -> string -> bool)
          (shutdown_is_set : nat -> bool) (task_data : TaskDict) (id : string)
          (store store' : Store),
      well_formed task_data id ->
      declared_progress task_data ->
      pipeline_continue_on_failure config = false ->
      (forall k, shutdown_is_set k = false) ->
      process_task config new_WorkflowLogger stage_succeeds shutdown_is_set task_data store
        = (true, store') ->
      exists st : StateData,
        store' !! task_dir id = Some st /\ workflow_status st = value COMPLETED /\
        List.NoDup (completed_stages st) /\
        forall s, In s (completed_stages st) <-> In s (stages st)).
Proof.
  split.
  - intros dirs task_data store0 store1 st0 st ms Hdp Hinit Hms Hst Hdone.
    destruct (tracks_fresh task_data store0 store1 st0 Hdp Hinit) as (L0 & Ht0).
    destruct (calls_tracks (stages st0) (adw_id st0) ms store1 st0 Hms L0 Ht0)
      as (st' & Hst' & Ht').
    rewrite Hst in Hst'. injection Hst' as <-.
    destruct Ht' as (_ & Hs & Hnd & Hincl & Hall).
    split; [assumption|]. intros s. rewrite Hs. split; [apply Hincl|apply (Hall Hdone)].
  - intros dirs config new_WorkflowLogger stage_succeeds shutdown_is_set task_data id
      store store' Hwf Hdp Hcont Hnever Hrun.
    destruct (process_task_spec config new_WorkflowLogger stage_succeeds shutdown_is_set
                task_data id store Hwf)
      as (b & store2 & st & Hrun2 & Hst & _ & _ & Hprog & Hb).
    rewrite Hrun in Hrun2. injection Hrun2 as <- <-.
    destruct (Hprog Hdp) as [Hnd Hincl].
    destruct (new_WorkflowLogger id) as [u|e]; [|destruct Hb as [Hb _]; discriminate Hb].
    destruct Hb as [Hdone Hall].
    exists st. split; [assumption|]. split; [assumption|]. split; [assumption|].
    intros s. split; [apply Hincl|apply (Hall Hcont Hnever)].
Qed.

(** Both parts at the sample task: the mutator calls of a successful
    run, and [process_task] itself with every stage succeeding. *)
Lemma completed_accounts_for_every_stage_witness :
  (exists st : StateData,
     calls (dirs := plain_dirs) "t1"
       [UpdateStage "plan" None; CompleteStage "plan";
        UpdateStage "implement" None; CompleteStage "implement"]
       (snd (initialize_state (dirs := plain_dirs) demo_task ∅)) !! "t1"%string = Some st /\
     workflow_status st = value COMPLETED /\
     List.NoDup (completed_stages st) /\
     forall s, In s (completed_stages st) <-> In s (stages st)) /\
  (exists st : StateData,
     snd (process_task (dirs := plain_dirs) stop_on_failure (fun _ => Ret tt)
            (fun _ _ => true) (fun _ => false) demo_task ∅)
       !! "t1"%string = Some st /\
     workflow_status st = value COMPLETED /\
     List.NoDup (completed_stages st) /\
     forall s, In s (completed_stages st) <-> In s (stages st)).
Proof.
  split.
  - eexists. split; [vm_compute; reflexivity|]. split; [reflexivity|].
    eapply (proj1 completed_accounts_for_every_stage plain_dirs demo_task ∅ _ _ _
              [UpdateStage "plan" None; CompleteStage "plan";
               UpdateStage "implement" None; CompleteStage "implement"]).
    + split; [constructor|intros x []].
    + vm_compute. reflexivity.
    + repeat (constructor; simpl; auto).
    + vm_compute. reflexivity.
    + reflexivity.
  - eapply (proj2 completed_accounts_for_every_stage plain_dirs stop_on_failure
              (fun _ => Ret tt) (fun _ _ => true) (fun _ => false) demo_task "t1"%string ∅).
    + repeat split; simpl; congruence.
    + split; [constructor|intros x []].
    + reflexivity.
    + reflexivity.
    + vm_compute. reflexivity.
Defined.

(** C4 as stated fails: [update_status] sets the status to failed and
    touches neither [failed_stages] nor, without a message, [error_message]. *)
Lemma failed_without_failed_stage :
  exists st : StateData,
    calls (dirs := plain_dirs) "t1" [UpdateStatus FAILED "" None]
      (snd (initialize_state (dirs := plain_dirs) demo_task ∅)) !! "t1"%string = Some st /\
    workflow_status st = value FAILED /\
    ~ In (current_stage st) (failed_stages st) /\
    error_message st = None.
Proof.
  eexists. split; [vm_compute; reflexivity|]. cbn.
  repeat split. intros [].
Qed.

(** The processor's error path does the same to a task that has a record:
    a dictionary without a title makes [initialize_state] raise, and the
    handler marks the earlier record failed. *)
Example failed_through_error_path :
  let earlier := snd (initialize_state (dirs := plain_dirs) demo_task ∅) in
  let '(result, store) :=
    process_task (dirs := plain_dirs) stop_on_failure (fun _ => Ret tt)
      (fun _ _ => true) (fun _ => false)
      (mkTaskDict (Some "t1"%string) None (Some "again"%string) None None None) earlier in
  result = false /\
  exists st : StateData,
    store !! "t1"%string = Some st /\ workflow_status st = value FAILED /\
    current_stage st = ""%string /\ failed_stages st = [] /\
    error_message st <> None.
Proof. vm_compute. split; [reflexivity|]. eexists. repeat split. discriminate. Qed.

(** And to a well-formed task whose log file cannot be opened: the
    constructor of [WorkflowLogger] raises inside the [try], after
    [initialize_state] has saved the fresh record. *)
Example failed_when_logger_raises :
  let '(result, store) :=
    process_task (dirs := plain_dirs) stop_on_failure
      (fun _ => Raise (OSError "Permission denied"))
      (fun _ _ => true) (fun _ => false) demo_task ∅ in
  result = false /\
  exists st : StateData,
    store !! "t1"%string = Some st /\ workflow_status st = value FAILED /\
    current_stage st = ""%string /\ failed_stages st = [] /\
    completed_stages st = [] /\
    error_message st = Some "Permission denied"%string.
Proof. vm_compute. split; [reflexivity|]. eexists. repeat split. Qed.

(** C4, amended: [fail_stage] on the current stage of an existing task
    leaves status failed, the current stage among [failed_stages] and the
    error message set; whenever [process_task] returns [False] for a
    well-formed task whose logger could be set up, the stored record has
    status failed, its current stage among [failed_stages] and the
    message of that stage's failure as [error_message]; and
    [update_status] sets the status, the action (when one is given) and
    the error message (when one is given) and leaves every other field,
    [current_stage] and [failed_stages] among them, as it was. *)
Theorem failed_stage_is_recorded :
  (forall (dirs : TaskDirs) (id stage msg : string) (store : Store) (st : StateData),
      store !! task_dir id = Some st -> task_dir (adw_id st) = task_dir id ->
      current_stage st = stage ->
      exists st' : StateData,
        fail_stage id stage msg store = (Ret true, <[task_dir id := st']> store) /\
        workflow_status st' = value FAILED /\
        In (current_stage st') (failed_stages st') /\
        error_message st' = Some msg) /\
  (forall (dirs : TaskDirs) (config : WorkflowConfig)
          (new_WorkflowLogger : string -> res unit)
          (stage_succeeds : nat -> string -> bool)
          (shutdown_is_set : nat -> bool) (task_data : TaskDict) (id : string)
          (store store' : Store),
      well_formed task_data id ->
      new_WorkflowLogger id = Ret tt ->
      process_task config new_WorkflowLogger stage_succeeds shutdown_is_set task_data store
        = (false, store') ->
      exists st : StateData,
        store' !! task_dir id = Some st /\ workflow_status st = value FAILED /\
        In (current_stage st) (failed_stages st) /\
        error_message st = Some ("Stage " ++ current_stage st ++ " failed")%string) /\
  (forall (dirs : TaskDirs) (id : string) (status : WorkflowStatus)
          (current_action : string) (error_message : option string)
          (store : Store) (st : StateData),
      store !! task_dir id = Some st ->
      update_status id status current_action error_message store =
        (Ret true,
         <[task_dir (adw_id st) :=
             mkStateData (adw_id st) (title st) (description st) (type_ st)
               (priority st) (stages st) (value status) (current_stage st)
               (completed_stages st) (failed_stages st)
               (if nonempty current_action then current_action
                else StateStore.current_action st)
               (progress st) (logs st)
               (match error_message with
                | Some (String _ _) => error_message
                | _ => StateStore.error_message st
                end)]> store)).
Proof.
  split; [|split].
  - intros dirs id stage msg store st Hst Hid Hcur.
    destruct (fail_stage_run id stage msg store st Hst Hid)
      as (st' & E & _ & _ & _ & Hf & Hcur' & Hw & He).
    exists st'. split; [assumption|]. split; [assumption|]. split; [|assumption].
    rewrite Hcur', Hcur, Hf.
    destruct (mem stage (failed_stages st)) eqn:Hmem; [now apply mem_In|].
    apply in_app_iff. right. now left.
  - intros dirs config new_WorkflowLogger stage_succeeds shutdown_is_set task_data id
      store store' Hwf Hlog Hrun.
    destruct (process_task_spec config new_WorkflowLogger stage_succeeds shutdown_is_set
                task_data id store Hwf)
      as (b & store2 & st & Hrun2 & Hst & _ & _ & _ & Hb).
    rewrite Hrun in Hrun2. injection Hrun2 as <- <-.
    rewrite Hlog in Hb. destruct Hb as (Hw & Hin & He).
    exists st. repeat split; assumption.
  - intros dirs id status current_action error_message store st Hst.
    unfold update_status, bind, load_state, save_state. rewrite Hst.
    destruct (nonempty current_action), error_message as [[|c e]|]; reflexivity.
Qed.

(** The three parts at the sample task: [fail_stage] on the current
    stage, [process_task] with a first stage that fails, and
    [update_status] on the running task. *)
Lemma failed_stage_is_recorded_witness :
  (exists st' : StateData,
     fail_stage (dirs := plain_dirs) "t1" "plan" "Stage plan failed" plan_running
     = (Ret true, <["t1"%string := st']> plan_running) /\
     workflow_status st' = value FAILED /\
     In (current_stage st') (failed_stages st') /\
     error_message st' = Some "Stage plan failed"%string) /\
  (exists st : StateData,
     snd (process_task (dirs := plain_dirs) stop_on_failure (fun _ => Ret tt)
            (fun i _ => Nat.eqb i 1) (fun _ => false) demo_task ∅)
       !! "t1"%string = Some st /\
     workflow_status st = value FAILED /\
     In (current_stage st) (failed_stages st) /\
     error_message st = Some ("Stage " ++ current_stage st ++ " failed")%string) /\
  (exists st : StateData,
     plan_running !! "t1"%string = Some st /\
     current_stage st = "plan"%string /\ failed_stages st = [] /\
     update_status (dirs := plain_dirs) "t1" FAILED "" None plan_running =
       (Ret true,
        <["t1"%string := set_workflow_status (value FAILED) st]> plan_running)).
Proof.
  split; [|split].
  - eapply (proj1 failed_stage_is_recorded plain_dirs "t1"%string "plan"%string
              "Stage plan failed"%string plan_running _).
    + vm_compute. reflexivity.
    + reflexivity.
    + reflexivity.
  - eapply (proj1 (proj2 failed_stage_is_recorded) plain_dirs stop_on_failure
              (fun _ => Ret tt) (fun i _ => Nat.eqb i 1) (fun _ => false)
              demo_task "t1"%string ∅).
    + repeat split; simpl; congruence.
    + reflexivity.
    + vm_compute. reflexivity.
  - eexists. split; [vm_compute; reflexivity|]. split; [reflexivity|].
    split; [reflexivity|].
    refine (proj2 (proj2 failed_stage_is_recorded) plain_dirs "t1"%string FAILED
              ""%string None plan_running _ _).
    vm_compute. reflexivity.
Defined.

End ProcessTaskFacts.

(** *** Facts about [execute_stage] *)
Module ExecuteStageFacts.
Import TaskProcessor.
Local Open Scope list_scope.

Lemma attempt_loop_all_fail (run : string -> Z -> bool) (stage : string) (timeout : Z)
    (attempts : list Z) :
  (forall attempt, run stage attempt = false) ->
  attempt_loop run stage timeout attempts
  = (false, flat_map (failed_round timeout) attempts).
Proof.
  intros Hfail. induction attempts as [|a rest IH]; simpl; [reflexivity|].
  rewrite Hfail, IH. unfold failed_round. rewrite <- app_assoc. reflexivity.
Qed.

(** A [False] result means that every attempt was made and failed. *)
Lemma attempt_loop_false (run : string -> Z -> bool) (stage : string) (timeout : Z)
    (attempts : list Z) (trace : list event) :
  attempt_loop run stage timeout attempts = (false, trace) ->
  runs trace = attempts /\ Forall (fun attempt => run stage attempt = false) attempts.
Proof.
  revert trace. induction attempts as [|a rest IH]; simpl; intros trace H.
  - injection H as <-. split; [reflexivity|constructor].
  - destruct (run stage a) eqn:Ha; [discriminate|].
    destruct (attempt_loop run stage timeout rest) as [result trace'] eqn:Hrest.
    injection H as -> <-. destruct (IH trace' eq_refl) as [Hruns Hall].
    split; [|constructor; assumption].
    destruct (0 <? a); simpl; rewrite Hruns; reflexivity.
Qed.

Lemma runs_app (t1 t2 : list event) : runs (t1 ++ t2) = runs t1 ++ runs t2.
Proof.
  induction t1 as [|e t1 IH]; simpl; [reflexivity|].
  destruct e; simpl; rewrite IH; reflexivity.
Qed.

Lemma slept_app (t1 t2 : list event) : slept (t1 ++ t2) = slept t1 + slept t2.
Proof.
  induction t1 as [|e t1 IH]; simpl; [reflexivity|].
  destruct e; simpl; rewrite IH; lia.
Qed.

Lemma runs_failed_round (timeout attempt : Z) :
  runs (failed_round timeout attempt) = [attempt].
Proof. unfold failed_round. destruct (0 <? attempt); reflexivity. Qed.

Lemma runs_failed_rounds (timeout : Z) (attempts : list Z) :
  runs (flat_map (failed_round timeout) attempts) = attempts.
Proof.
  induction attempts as [|a rest IH]; simpl; [reflexivity|].
  rewrite runs_app, runs_failed_round, IH. reflexivity.
Qed.

Lemma slept_failed_rounds (timeout : Z) (n a : nat) :
  (1 <= a)%nat ->
  slept (flat_map (failed_round timeout) (map Z.of_nat (seq a n)))
  = 2 ^ Z.of_nat (a + n) - 2 ^ Z.of_nat a.
Proof.
  revert a. induction n as [|n IH]; intros a Ha; simpl.
  - rewrite Nat.add_0_r. lia.
  - rewrite slept_app, IH by lia. unfold failed_round.
    replace (0 <? Z.of_nat a) with true by (symmetry; apply Z.ltb_lt; lia).
    simpl slept.
    replace (Z.of_nat (a + S n)) with (Z.of_nat (S a + n)) by lia.
    replace (Z.of_nat (S a)) with (Z.of_nat a + 1) by lia.
    rewrite (Z.pow_add_r 2 (Z.of_nat a) 1) by lia. lia.
Qed.

Lemma range_succ (m : Z) :
  0 <= m -> range (m + 1) = 0 :: map Z.of_nat (seq 1 (Z.to_nat m)).
Proof.
  intros Hm. unfold range.
  replace (Z.to_nat (m + 1)) with (S (Z.to_nat m)) by lia. reflexivity.
Qed.

Lemma range_length (n : Z) : 0 <= n -> Z.of_nat (length (range n)) = n.
Proof. intros Hn. unfold range. rewrite length_map, length_seq. lia. Qed.

(** C5: when the configuration of a stage loads, its pipeline script
    exists and every attempt fails, [execute_stage] returns [False] after
    exactly [max_retries + 1] attempts, numbered 0 to [max_retries]; it
    sleeps [2 ** attempt] seconds right before each attempt from attempt 1
    on and not before attempt 0, in total [2 ** 1 + ... + 2 ** max_retries]
    seconds, which is [2 ** 1 + 2 ** 2] for two retries.  In any such run,
    a [False] result comes only after all these attempts were made and
    failed. *)
Theorem execute_stage_retry_bound
    (config : WorkflowConfig) (get_pipeline_config : string -> res (option PipelineConfig))
    (pipeline_script_exists : string -> bool) (run : string -> Z -> bool)
    (write_json_file : string -> bool) (stage : string)
    (pipeline_config : option PipelineConfig) :
  let max_retries := stage_max_retries config pipeline_config in
  let timeout := stage_timeout config pipeline_config in
  let outcome :=
    execute_stage config get_pipeline_config pipeline_script_exists run
      write_json_file stage in
  get_pipeline_config stage = Ret pipeline_config ->
  pipeline_script_exists stage = true ->
  0 <= max_retries ->
  (fst outcome = false ->
   runs (snd outcome) = range (max_retries + 1) /\
   Forall (fun attempt => run stage attempt = false) (range (max_retries + 1))) /\
  ((forall attempt, run stage attempt = false) ->
   fst outcome = false /\
   snd outcome = flat_map (failed_round timeout) (range (max_retries + 1)) /\
   runs (snd outcome) = range (max_retries + 1) /\
   Z.of_nat (length (runs (snd outcome))) = max_retries + 1 /\
   slept (snd outcome) = 2 ^ (max_retries + 1) - 2 /\
   (max_retries = 2 -> slept (snd outcome) = 2 ^ 1 + 2 ^ 2)).
Proof.
  intros max_retries timeout outcome Hconfig Hexists Hm.
  assert (Hout : outcome = attempt_loop run stage timeout (range (max_retries + 1))).
  { unfold outcome, execute_stage. rewrite Hconfig, Hexists. reflexivity. }
  split.
  - intros Hfalse. rewrite Hout in *.
    destruct (attempt_loop run stage timeout (range (max_retries + 1))) as [b trace] eqn:E.
    simpl in *. subst b. exact (attempt_loop_false _ _ _ _ _ E).
  - intros Hfail. rewrite Hout, (attempt_loop_all_fail _ _ _ _ Hfail). simpl.
    assert (Hslept : slept (flat_map (failed_round timeout) (range (max_retries + 1)))
                     = 2 ^ (max_retries + 1) - 2).
    { rewrite (range_succ _ Hm). cbn [flat_map]. rewrite slept_app.
      rewrite slept_failed_rounds by lia. unfold failed_round. simpl slept.
      replace (Z.of_nat (1 + Z.to_nat max_retries)) with (max_retries + 1) by lia.
      reflexivity. }
    split; [reflexivity|]. split; [reflexivity|].
    split; [apply runs_failed_rounds|].
    split; [rewrite runs_failed_rounds; apply range_length; lia|].
    split; [exact Hslept|].
    intros H2. rewrite Hslept, H2. reflexivity.
Qed.

(** Two retries: three runs, with sleeps of 2 and 4 seconds between them. *)
Lemma execute_stage_retry_bound_witness :
  let outcome :=
    execute_stage (mkWorkflowConfig 600 3 false) two_retries (fun _ => true)
      (fun _ _ => false) (fun _ => true) "plan" in
  fst outcome = false /\
  snd outcome = [RunPipeline 0 300; Sleep 2; RunPipeline 1 300; Sleep 4; RunPipeline 2 300] /\
  runs (snd outcome) = [0; 1; 2] /\
  slept (snd outcome) = 2 ^ 1 + 2 ^ 2.
Proof.
  cbv zeta.
  destruct (execute_stage_retry_bound (mkWorkflowConfig 600 3 false) two_retries
              (fun _ => true) (fun _ _ => false) (fun _ => true) "plan"%string
              (Some (mkPipelineConfig 300 2 []))
              eq_refl eq_refl ltac:(vm_compute; discriminate))
    as [_ Hall].
  destruct (Hall (fun _ => eq_refl)) as (Hres & Htrace & Hruns & _ & _ & Hsix).
  split; [exact Hres|]. split; [exact Htrace|]. split; [exact Hruns|].
  exact (Hsix eq_refl).
Defined.

(** The stage falls back to the global [max_retries] when it has no
    configuration of its own; a configuration that does not load gives
    [False] with no attempt. *)
Example execute_stage_default_retries :
  execute_stage (mkWorkflowConfig 600 1 false) (fun _ => Ret None) (fun _ => true)
    (fun _ _ => false) (fun _ => true) "build"
  = (false, [RunPipeline 0 600; Sleep 2; RunPipeline 1 600]).
Proof. reflexivity. Qed.

Example execute_stage_bad_config :
  execute_stage (mkWorkflowConfig 600 1 false) (fun _ => Raise (TypeError "unexpected keyword"))
    (fun _ => true) (fun _ _ => false) (fun _ => true) "build"
  = (false, []).
Proof. reflexivity. Qed.

End ExecuteStageFacts.

(** *** Facts about the execution queue *)
Module QueueFacts.
Import StateStore TaskProcessor.
Local Open Scope list_scope.

(** [<] on two entries that differ in priority or in time returns. *)
Lemma tuple_lt_differ (a b : Entry) :
  keys_differ a b -> exists r : bool, tuple_lt a b = Ret r.
Proof.
  unfold keys_differ, tuple_lt. intros Hne.
  destruct (priority_value a =? priority_value b) eqn:Hp; simpl; [|eauto].
  destruct (queued_at a =? queued_at b) eqn:Hq; simpl; [|eauto].
  apply Z.eqb_eq in Hp, Hq. tauto.
Qed.

(** On a tie of priority and time it compares the dictionaries, and
    raises when they are not equal. *)
Lemma tuple_lt_tie (a b : Entry) :
  priority_value a = priority_value b -> queued_at a = queued_at b ->
  task_data a <> task_data b ->
  tuple_lt a b = Raise (TypeError "'<' not supported between instances of 'dict' and 'dict'").
Proof.
  intros Hp Hq Hd. unfold tuple_lt. rewrite Hp, Hq, !Z.eqb_refl. simpl.
  destruct (decide (task_data a = task_data b)); [contradiction|reflexivity].
Qed.

Lemma swap_Forall (P : Entry -> Prop) (heap : list Entry) (i j : nat) :
  Forall P heap -> Forall P (swap heap i j).
Proof.
  intros H. unfold swap.
  destruct (heap !! i) as [a|] eqn:Ha; [|assumption].
  destruct (heap !! j) as [b|] eqn:Hb; [|assumption].
  apply Forall_insert; [apply Forall_insert|]; try assumption.
  - eapply Forall_lookup_1; eassumption.
  - eapply Forall_lookup_1; eassumption.
Qed.

Lemma swap_length (heap : list Entry) (i j : nat) : length (swap heap i j) = length heap.
Proof.
  unfold swap. destruct (heap !! i), (heap !! j); try reflexivity.
  rewrite !length_insert. reflexivity.
Qed.

(** Sifting moves entries and neither adds nor drops one. *)
Lemma siftdown_loop_Forall (P : Entry -> Prop) (rounds : nat) :
  forall (heap : list Entry) (startpos pos : nat),
    Forall P heap -> Forall P (snd (siftdown_loop rounds heap startpos pos)).
Proof.
  induction rounds as [|rounds IH]; intros heap startpos pos H; cbn [siftdown_loop];
    [assumption|].
  destruct (startpos <? pos)%nat; [|assumption].
  destruct (heap !! pos) as [newitem|]; [|assumption].
  destruct (heap !! ((pos - 1) / 2)%nat) as [parent|]; [|assumption].
  destruct (tuple_lt newitem parent) as [[|]|e]; try assumption.
  apply IH, swap_Forall, H.
Qed.

(** The item being sifted differs in priority or time from every other
    entry: no comparison raises. *)
Lemma siftdown_loop_returns (item : Entry) (rounds : nat) :
  forall (heap : list Entry) (pos : nat),
    heap !! pos = Some item ->
    (forall j e, j <> pos -> heap !! j = Some e -> keys_differ item e) ->
    fst (siftdown_loop rounds heap 0 pos) = Ret tt.
Proof.
  induction rounds as [|rounds IH]; intros heap pos Hpos Hothers; cbn [siftdown_loop];
    [reflexivity|].
  destruct (0 <? pos)%nat eqn:Hlt; [|reflexivity].
  apply Nat.ltb_lt in Hlt. rewrite Hpos.
  assert (Hpar : ((pos - 1) / 2 < pos)%nat).
  { apply Nat.le_lt_trans with (pos - 1)%nat; [|lia].
    apply Nat.Div0.div_le_upper_bound. lia. }
  destruct (heap !! ((pos - 1) / 2)%nat) as [parent|] eqn:Hparent; [|reflexivity].
  assert (Hd : keys_differ item parent) by (eapply Hothers; [|eassumption]; lia).
  destruct (tuple_lt_differ item parent Hd) as [[|] ->]; [|reflexivity].
  assert (Hlen : (pos < length heap)%nat) by (eapply lookup_lt_Some; eassumption).
  apply IH.
  - unfold swap. rewrite Hparent, Hpos.
    apply list_lookup_insert_eq. rewrite length_insert. lia.
  - intros j e Hj. unfold swap. rewrite Hparent, Hpos.
    rewrite list_lookup_insert_ne by lia.
    destruct (decide (j = pos)) as [->|Hjp].
    + rewrite list_lookup_insert_eq by assumption. intros [= <-]. exact Hd.
    + rewrite list_lookup_insert_ne by lia. apply Hothers, Hjp.
Qed.

(** [put] returns when the new entry differs in priority or time from
    every waiting entry; whether it returns or raises, the entry is in
    the list afterwards. *)
Lemma put_returns (item : Entry) (queue : list Entry) :
  Forall (keys_differ item) queue -> fst (put item queue) = Ret tt.
Proof.
  intros H. unfold put, heappush, siftdown.
  rewrite length_app. simpl. replace (length queue + 1 - 1)%nat with (length queue) by lia.
  apply (siftdown_loop_returns item).
  - rewrite lookup_app_r by lia. rewrite Nat.sub_diag. reflexivity.
  - intros j e Hj Hlook.
    destruct (decide (j < length queue)%nat) as [Hlt|Hge].
    + rewrite lookup_app_l in Hlook by assumption.
      eapply Forall_lookup_1; eassumption.
    + apply lookup_lt_Some in Hlook. rewrite length_app in Hlook. simpl in Hlook. lia.
Qed.

Lemma put_Forall (P : Entry -> Prop) (item : Entry) (queue : list Entry) :
  Forall P queue -> P item -> Forall P (snd (put item queue)).
Proof.
  intros H Hitem. unfold put, heappush, siftdown.
  apply siftdown_loop_Forall, Forall_app. split; [assumption|].
  constructor; [assumption|constructor].
Qed.

(** A second entry with the priority and the time of the one that waits,
    for another task: [put] raises, with both entries in the list. *)
Lemma put_raises_on_tie (a b : Entry) :
  priority_value b = priority_value a -> queued_at b = queued_at a ->
  task_data b <> task_data a ->
  put b [a] =
    (Raise (TypeError "'<' not supported between instances of 'dict' and 'dict'"), [a; b]).
Proof.
  intros Hp Hq Hd. unfold put, heappush, siftdown. cbn.
  rewrite (tuple_lt_tie b a Hp Hq Hd). reflexivity.
Qed.

(** Two tasks queued into an empty queue with different priority or time
    are dequeued in order: the one whose tuple is less comes first. *)
Lemma two_tasks_in_order (a b : Entry) :
  keys_differ b a ->
  exists first second : Entry,
    put b [a] = (Ret tt, [first; second]) /\
    get [first; second] = (Ret (Some first), [second]) /\
    get [second] = (Ret (Some second), []) /\
    tuple_lt first second = Ret true /\
    (first = a /\ second = b \/ first = b /\ second = a).
Proof.
  intros Hd.
  assert (Hab : tuple_lt b a = Ret true \/
                tuple_lt b a = Ret false /\ tuple_lt a b = Ret true).
  { unfold keys_differ in Hd. unfold tuple_lt.
    destruct (Z.eqb_spec (priority_value b) (priority_value a)) as [Hp|Hp]; simpl.
    - rewrite <- Hp, Z.eqb_refl. simpl.
      destruct (Z.eqb_spec (queued_at b) (queued_at a)) as [Hq|Hq]; simpl; [tauto|].
      destruct (Z.eqb_spec (queued_at a) (queued_at b)) as [Hq'|Hq']; simpl; [congruence|].
      destruct (Z.ltb_spec (queued_at b) (queued_at a)); [left; reflexivity|right].
      split; [reflexivity|]. f_equal. apply Z.ltb_lt. lia.
    - destruct (Z.eqb_spec (priority_value a) (priority_value b)) as [Hp'|Hp']; simpl;
        [congruence|].
      destruct (Z.ltb_spec (priority_value b) (priority_value a)); [left; reflexivity|right].
      split; [reflexivity|]. f_equal. apply Z.ltb_lt. lia. }
  destruct Hab as [Hlt|[Hge Hlt]].
  - exists b, a. unfold put, get, heappush, heappop, siftup, siftdown. cbn. rewrite Hlt. cbn.
    repeat split; try reflexivity; auto.
  - exists a, b. unfold put, get, heappush, heappop, siftup, siftdown. cbn. rewrite Hge. cbn.
    repeat split; try reflexivity; auto.
Qed.

Example two_tasks_by_priority :
  put (entry_of 7 (task_named "b") HIGH) [entry_of 3 (task_named "a") LOW] =
    (Ret tt, [entry_of 7 (task_named "b") HIGH; entry_of 3 (task_named "a") LOW]).
Proof. reflexivity. Qed.

(** C8: an urgent task is queued, then two medium tasks whose
    [datetime.now()] readings are equal.  All three [put] calls return.
    The first [get] takes the urgent entry out of the list and, while it
    restores the heap, compares the two medium tuples: they tie on
    priority and time, the comparison reaches the dictionaries and raises
    [TypeError].  The urgent task is neither returned nor waiting any
    more; the next calls return the two medium tasks. *)
Theorem get_drops_urgent_task_on_tie :
  let u := entry_of 100 (task_named "hotfix") URGENT in
  let a := entry_of 205 (task_named "report") MEDIUM in
  let b := entry_of 205 (task_named "cleanup") MEDIUM in
  queue_task 100 (task_named "hotfix") URGENT [] = (Ret tt, [u]) /\
  queue_task 205 (task_named "report") MEDIUM [u] = (Ret tt, [u; a]) /\
  queue_task 205 (task_named "cleanup") MEDIUM [u; a] = (Ret tt, [u; a; b]) /\
  get [u; a; b] =
    (Raise (TypeError "'<' not supported between instances of 'dict' and 'dict'"),
     [a; b]) /\
  get [a; b] = (Ret (Some a), [b]) /\
  get [b] = (Ret (Some b), []) /\
  get [] = (Ret None, []).
Proof. cbv zeta. repeat split; vm_compute; reflexivity. Qed.

End QueueFacts.

Module WatcherFacts.
Import Watcher.
Local Open Scope list_scope.

Lemma submitted_snoc (name name' : string) (task_data : TaskData) (pt : gset string)
    (q : list TaskProcessor.Entry) (subs : list (string * TaskData)) :
  submitted name (mkState pt q (subs ++ [(name', task_data)]))
  = (submitted name (mkState pt q subs) + (if string_dec name' name then 1 else 0))%nat.
Proof.
  unfold submitted. simpl. rewrite map_app, count_occ_app. simpl.
  destruct (string_dec name' name); reflexivity.
Qed.

(** Whether [TaskData] accepts a dictionary does not depend on the time
    of the call. *)
Lemma new_TaskData_raises (now now' : string) (d : StateStore.TaskDict) (e : exn) :
  new_TaskData now d = Raise e -> new_TaskData now' d = Raise e.
Proof.
  unfold new_TaskData.
  destruct (has_state_keys d || negb (StateStore.only_keys unread_fields (StateStore.td_other d)));
    [auto|].
  destruct (StateStore.td_adw_id d), (StateStore.td_title d), (StateStore.td_description d);
    auto; discriminate.
Qed.

(** What [asdict] gives is a dictionary [StateData] accepts. *)
Lemma asdict_only_keys (task_data : TaskData) :
  StateStore.only_keys StateStore.unread_fields (StateStore.td_other (asdict task_data)) = true.
Proof. destruct task_data as [? ? ? ? ? ? ? ? []]. vm_compute. reflexivity. Qed.

(** No entry waits with the time of the call: queueing returns. *)
Lemma queue_task_execution_returns (time : Z) (task_data : TaskData)
    (queue : list TaskProcessor.Entry) :
  Forall (fun e => TaskProcessor.queued_at e <> time) queue ->
  fst (queue_task_execution time task_data queue) = Ret tt.
Proof.
  intros Hq. unfold queue_task_execution, TaskProcessor.queue_task.
  destruct (StateStore.td_adw_id (asdict task_data)) as [[|c id]|]; try reflexivity.
  apply QueueFacts.put_returns.
  eapply Forall_impl; [exact Hq|].
  intros e He. right. simpl. congruence.
Qed.

(** Queueing leaves the entries that waited and at most one more, with
    the time of the call. *)
Lemma queue_task_execution_Forall (P : TaskProcessor.Entry -> Prop) (time : Z)
    (task_data : TaskData) (queue : list TaskProcessor.Entry) :
  (forall e, TaskProcessor.queued_at e = time -> P e) ->
  Forall P queue ->
  Forall P (snd (queue_task_execution time task_data queue)).
Proof.
  intros Hnew Hq. unfold queue_task_execution, TaskProcessor.queue_task.
  destruct (StateStore.td_adw_id (asdict task_data)) as [[|c id]|]; try assumption.
  apply QueueFacts.put_Forall; [assumption|]. apply Hnew. reflexivity.
Qed.

Section FreshClock.

Variable glob : nat -> res (list string).
Variable observe : nat -> string -> observation.
Variable now : nat -> string -> Z.
Variable created_now : nat -> string -> string.

(** The clock never gives one reading twice. *)
Hypothesis now_fresh :
  forall i n i' n', now i n = now i' n' -> i = i' /\ n = n'.

(** In round [i], an entry of the queue waited before the watcher
    started, with a time that is no reading of the watcher's, or was
    queued for a trigger of an earlier round or for a trigger of this
    round that is marked. *)
Let known (i : nat) (st : state) (e : TaskProcessor.Entry) : Prop :=
  (forall i' n', TaskProcessor.queued_at e <> now i' n') \/
  exists i' n',
    TaskProcessor.queued_at e = now i' n' /\
    (i' < i \/ i' = i /\ n' ∈ processed_triggers st)%nat.

Let invariant (i : nat) (st : state) : Prop :=
  deduplicated st /\ Forall (known i st) (execution_queue st).

Lemma handle_trigger_invariant (i : nat) (st : state) (name : string) :
  invariant i st -> invariant i (handle_trigger observe now created_now i st name).
Proof.
  intros [Hst Hq]. unfold handle_trigger.
  destruct (decide (name ∈ processed_triggers st)) as [Hin|Hout]; [split; assumption|].
  assert (Hgrow : forall e, known i st e ->
            forall queue subs,
              known i (mkState ({[name]} ∪ processed_triggers st) queue subs) e).
  { intros e [Hold|(i' & n' & He & Hwhen)] queue subs; [now left|right].
    exists i', n'. split; [assumption|].
    destruct Hwhen as [Hlt|[-> Hn']]; [now left|right].
    split; [reflexivity|]. simpl. apply elem_of_union. now right. }
  destruct (observe i name) as [| | |d]; try (split; assumption).
  - split.
    + intros n. destruct (Hst n) as [Hle Hzero]. split; [exact Hle|].
      simpl. intros Hn. apply Hzero. intros Hc. apply Hn, elem_of_union. now right.
    + simpl. eapply Forall_impl; [exact Hq|]. intros e He. now apply Hgrow.
  - destruct (new_TaskData (created_now i name) d) as [task_data|e]; [|split; assumption].
    assert (Hfree : Forall (fun e => TaskProcessor.queued_at e <> now i name)
                      (execution_queue st)).
    { eapply Forall_impl; [exact Hq|].
      intros e [Hold|(i' & n' & He & Hwhen)]; [apply Hold|].
      rewrite He. intros Heq. apply now_fresh in Heq as [-> ->].
      destruct Hwhen as [Hlt|[_ Hn']]; [lia|contradiction]. }
    pose proof (queue_task_execution_returns (now i name) task_data _ Hfree) as Hret.
    pose proof (queue_task_execution_Forall
                  (known i (mkState ({[name]} ∪ processed_triggers st) []
                              (submissions st)))
                  (now i name) task_data (execution_queue st)) as Hput.
    destruct (queue_task_execution (now i name) task_data (execution_queue st))
      as [[u|e] queue]; [|discriminate Hret].
    split.
    + intros n. destruct (Hst n) as [Hle Hzero].
      rewrite submitted_snoc.
      change (submitted n {| processed_triggers := {[name]} ∪ processed_triggers st;
                             execution_queue := queue;
                             submissions := submissions st |})
        with (submitted n st).
      destruct (string_dec name n) as [<-|Hne].
      * rewrite (Hzero Hout). split; [lia|]. simpl. intros Hn. exfalso.
        apply Hn, elem_of_union. left. now apply elem_of_singleton.
      * split; [lia|]. simpl. intros Hn. rewrite Nat.add_0_r. apply Hzero.
        intros Hc. apply Hn, elem_of_union. now right.
    + simpl in Hput |- *. eapply Forall_impl; [apply Hput|].
      * intros e He. right. exists i, name. split; [assumption|].
        right. split; [reflexivity|]. simpl.
        apply elem_of_union. left. now apply elem_of_singleton.
      * eapply Forall_impl; [exact Hq|]. intros e He. now apply Hgrow.
      * intros e He. exact He.
Qed.

Lemma poll_invariant (i : nat) (st : state) :
  invariant i st -> invariant (S i) (poll glob observe now created_now i st).
Proof.
  intros Hinv.
  assert (Hround : invariant i (poll glob observe now created_now i st)).
  { unfold poll. destruct (glob i) as [names|e]; [|assumption].
    revert st Hinv. induction names as [|name names IH]; intros st Hinv; simpl;
      [assumption|].
    apply IH. now apply handle_trigger_invariant. }
  destruct Hround as [Hst Hq]. split; [assumption|].
  eapply Forall_impl; [exact Hq|].
  intros e [Hold|(i' & n' & He & Hwhen)]; [now left|right].
  exists i', n'. split; [assumption|]. left. lia.
Qed.

(** With such a clock no [put] meets a tie: however many rounds the
    watcher polls, whatever the directory lists and whatever it finds in
    the files, a trigger file causes at most one submission. *)
Lemma monitor_deduplicated (rounds : nat) (execution_queue : list TaskProcessor.Entry) :
  Forall (fun e => forall i n, TaskProcessor.queued_at e <> now i n) execution_queue ->
  deduplicated (monitor_file_triggers glob observe now created_now rounds execution_queue).
Proof.
  intros Hq. unfold monitor_file_triggers.
  assert (Hgen : forall k i st,
             invariant i st ->
             deduplicated (monitor_from glob observe now created_now k i st)).
  { clear Hq. intros k. induction k as [|k IH]; intros i st Hinv; simpl.
    - apply Hinv.
    - apply IH, poll_invariant, Hinv. }
  apply Hgen. split.
  - intros n. split; [apply Nat.le_0_l|reflexivity].
  - simpl. eapply Forall_impl; [exact Hq|]. intros e He. now left.
Qed.

End FreshClock.

(** The sample run of the theorem below, with a clock that gives every
    call a reading of its own: both triggers are submitted once. *)
Example fresh_clock_run :
  deduplicated
    (monitor_file_triggers tied_glob tied_observe
       (fun i name => Z.pos (encode (i, name))) tied_created 2 []).
Proof.
  apply monitor_deduplicated; [|constructor].
  intros i n i' n' H. injection H as H. apply (inj encode) in H.
  injection H as -> ->. split; reflexivity.
Qed.

(** The same trigger file listed in three rounds (and twice in one of
    them) is submitted once. *)
Example trigger_seen_three_times :
  let st :=
    monitor_file_triggers
      (fun _ => Ret ["trigger_1.json"; "trigger_1.json"]%string)
      (fun _ _ => TaskFile (StateStore.mkTaskDict (Some "t1") (Some "T") (Some "D")
                              None (Some "high") None)%string)
      (fun i _ => Z.of_nat i) (fun _ _ => "2025-01-01T00:00:00"%string) 3 [] in
  submitted "trigger_1.json" st = 1%nat /\ length (execution_queue st) = 1%nat.
Proof. vm_compute. split; reflexivity. Qed.

(** C9: two trigger files, for two different tasks of the same priority,
    are found in the first polling round, and [datetime.now()] gives the
    same reading for both.  The first is queued and marked.  For the
    second, [put] raises [TypeError] (the tuples tie on priority and
    time), after the entry is in the queue; the handler's [except] skips
    the line that marks the trigger, which stays unmarked and in place.
    The next round submits it again: one trigger file, two submissions,
    and the task twice in the queue. *)
Theorem tied_trigger_is_submitted_twice :
  let first := monitor_file_triggers tied_glob tied_observe tied_now tied_created 1 [] in
  let second := monitor_file_triggers tied_glob tied_observe tied_now tied_created 2 [] in
  submitted "trigger_a.json" first = 1%nat /\
  submitted "trigger_b.json" first = 1%nat /\
  ("trigger_a.json"%string ∈ processed_triggers first) /\
  ("trigger_b.json"%string ∉ processed_triggers first) /\
  map (fun entry => StateStore.td_adw_id (TaskProcessor.task_data entry))
    (execution_queue first) = [Some "a"; Some "b"]%string /\
  submitted "trigger_b.json" second = 2%nat /\
  map (fun entry => StateStore.td_adw_id (TaskProcessor.task_data entry))
    (execution_queue second) = [Some "a"; Some "b"; Some "b"]%string /\
  ~ deduplicated second.
Proof.
  cbv zeta.
  assert (Htwice :
    submitted "trigger_b.json"
      (monitor_file_triggers tied_glob tied_observe tied_now tied_created 2 []) = 2%nat)
    by (vm_compute; reflexivity).
  split; [vm_compute; reflexivity|]. split; [vm_compute; reflexivity|].
  split; [refine (bool_decide_unpack _ _); vm_compute; exact I|].
  split; [refine (proj1 (bool_decide_eq_false _) _); vm_compute; reflexivity|].
  split; [vm_compute; reflexivity|]. split; [exact Htwice|].
  split; [vm_compute; reflexivity|].
  intros Hdedup. destruct (Hdedup "trigger_b.json"%string) as [Hle _].
  rewrite Htwice in Hle. lia.
Qed.

End WatcherFacts.

Module PersistFacts.
Import Persist.

Section FilesFacts.

Variable Record_ : Type.
Variable adw_id : Record_ -> string.
Variable dumps : Record_ -> string.
Variable decode : string -> option Record_.
Variable agents_dir : string.
Variable file_name : string.
Variable joinpath : string -> string -> string.

Lemma substring_all (s : string) : substring 0 (String.length s) s = s.
Proof. induction s as [|c s IH]; simpl; [reflexivity|]. now rewrite IH. Qed.

Lemma substring_none (s : string) : substring 0 0 s = EmptyString.
Proof. destruct s; reflexivity. Qed.

(** An interruption after the last character is a completed save. *)
Lemma save_state_interrupted_at_end (state : Record_) (files : gmap string string) :
  save_state_interrupted Record_ adw_id dumps agents_dir file_name joinpath
    (Written (String.length (dumps state))) state files
  = snd (save_state Record_ adw_id dumps agents_dir file_name joinpath state files).
Proof. unfold save_state_interrupted, save_state. simpl. now rewrite substring_all. Qed.

(** [save_state] writes to the state file itself: no other path changes,
    so there is no temporary file and no rename. *)
Lemma save_state_writes_in_place (p : progress) (state : Record_)
    (files : gmap string string) (path : string) :
  path <> _get_state_file agents_dir file_name joinpath (adw_id state) ->
  save_state_interrupted Record_ adw_id dumps agents_dir file_name joinpath p state files !! path
  = files !! path.
Proof.
  intros Hne. destruct p as [|n]; simpl; [reflexivity|].
  now apply lookup_insert_ne.
Qed.

(** The sibling [write_json_file] does what the claim describes: until
    the rename the target keeps its previous content, after it the target
    holds the new document. *)
Lemma write_json_file_atomic (with_suffix : string -> string -> string) (stamp : string)
    (p : atomic_progress) (file_path : string) (data : Record_) (backup : bool)
    (files : gmap string string) :
  with_suffix file_path ".tmp" <> file_path ->
  with_suffix file_path (".backup." ++ stamp)%string <> file_path ->
  let files' :=
    write_json_file_interrupted Record_ dumps with_suffix stamp p file_path data
      backup files in
  files' !! file_path = files !! file_path \/ files' !! file_path = Some (dumps data).
Proof.
  intros Htmp Hbak. cbv zeta. unfold write_json_file_interrupted.
  assert (Hkeep : forall content,
             (if backup
              then <[with_suffix file_path (".backup." ++ stamp)%string := content]> files
              else files) !! file_path = files !! file_path).
  { intros content. destruct backup; [|reflexivity]. now apply lookup_insert_ne. }
  destruct p as [| |n|].
  - now left.
  - left. destruct (files !! file_path) eqn:E; [rewrite Hkeep|]; congruence.
  - left. rewrite lookup_insert_ne by assumption.
    destruct (files !! file_path) eqn:E; [rewrite Hkeep|]; congruence.
  - right. apply lookup_insert_eq.
Qed.

(** The scenario in full: a record that was saved and loads back is gone
    when the next save of the task is interrupted right after the [open]. *)
Lemma previous_record_lost (old new : Record_) (files : gmap string string) :
  adw_id new = adw_id old ->
  is_blank (dumps old) = false -> decode (dumps old) = Some old ->
  let saved := snd (save_state Record_ adw_id dumps agents_dir file_name joinpath old files) in
  load_state Record_ decode agents_dir file_name joinpath saved (adw_id old) = Some old /\
  load_state Record_ decode agents_dir file_name joinpath
    (save_state_interrupted Record_ adw_id dumps agents_dir file_name joinpath
       (Written 0) new saved)
    (adw_id old) = None.
Proof.
  intros Hid Hblank Hdecode. cbv zeta. unfold load_state, save_state_interrupted, save_state.
  simpl. rewrite Hid, !lookup_insert_eq, substring_none. unfold json_load.
  rewrite Hblank. split; [assumption|reflexivity].
Qed.

End FilesFacts.

(** C2 (the code does not keep it): [save_state] opens the state file
    itself for writing.  Interrupted after the [open] and before the first
    flush, it leaves the file empty, and [load_state] returns [None]:
    neither the record that was there nor the new one. *)
Theorem save_state_interrupted_loses_record
    (Record_ : Type) (adw_id : Record_ -> string) (dumps : Record_ -> string)
    (decode : string -> option Record_) (agents_dir file_name : string)
    (joinpath : string -> string -> string)
    (state : Record_) (files : gmap string string) :
  let files' :=
    save_state_interrupted Record_ adw_id dumps agents_dir file_name joinpath
       (Written 0) state files in
  files' !! _get_state_file agents_dir file_name joinpath (adw_id state) = Some EmptyString /\
  load_state Record_ decode agents_dir file_name joinpath files' (adw_id state) = None.
Proof.
  cbv zeta. unfold load_state, save_state_interrupted.
  rewrite lookup_insert_eq, substring_none. split; reflexivity.
Qed.

End PersistFacts.

(** *** Further facts about the store's mutators *)
Module RecordsFacts.
Import StateStore Records StateStoreFacts.
Local Open Scope list_scope.

Lemma record_after_same_task (m : mutator) (st : StateData) :
  same_task st (record_after m st).
Proof.
  unfold same_task.
  destruct m as [status action err|stage p|stage|stage msg|lvl stage msg]; simpl.
  - unfold update_status_record. destruct (nonempty action), err as [[|c e]|]; cbn; auto 10.
  - unfold update_stage_record. destruct p; cbn; auto 10.
  - destruct (length (stages st) =? 0)%nat; [auto 10|].
    unfold complete_stage_record.
    destruct (mem stage (completed_stages st)); cbn -[Nat.eqb];
      destruct (mem stage (failed_stages st)); cbn -[Nat.eqb];
      match goal with |- context [if (?a =? ?b)%nat then _ else _] => destruct (a =? b)%nat end;
      cbn; auto 10.
  - unfold fail_stage_record.
    destruct (mem stage (failed_stages st)); cbn;
      destruct (mem stage (completed_stages st)); cbn; auto 10.
  - cbn. auto 10.
Qed.

(** A mutator call on a task with a record: what it returns and saves. *)
Lemma call_record {dirs : TaskDirs} (id : string) (m : mutator) (store : Store) (st : StateData) :
  store !! task_dir id = Some st -> task_dir (adw_id st) = task_dir id ->
  call id m store = (outcome m st, <[task_dir id := record_after m st]> store).
Proof.
  intros Hst Hid.
  destruct m as [status action err|stage p|stage|stage msg|lvl stage msg];
    unfold call, outcome, record_after.
  - unfold update_status, update_status_record, bind, load_state, save_state, ret.
    rewrite Hst.
    destruct (nonempty action), err as [[|c e]|]; cbn; rewrite ?Hid; reflexivity.
  - unfold update_stage, update_stage_record, bind, load_state, save_state, ret.
    rewrite Hst. destruct p; cbn; rewrite ?Hid; reflexivity.
  - unfold complete_stage, complete_stage_record, bind, load_state, save_state,
      ret, raise.
    rewrite Hst.
    destruct (mem stage (completed_stages st)) eqn:Hc;
      cbn -[mem Nat.eqb length remove_first Qmult Qdiv inject_Z];
      destruct (mem stage (failed_stages st)) eqn:Hf;
      cbn -[mem Nat.eqb length remove_first Qmult Qdiv inject_Z];
      destruct (length (stages st) =? 0)%nat eqn:Hlen;
      cbn -[mem Nat.eqb length remove_first Qmult Qdiv inject_Z];
      rewrite ?insert_id by assumption; try reflexivity;
      match goal with
      | |- context [if (?a =? ?b)%nat then _ else _] =>
          destruct (a =? b)%nat;
          cbn -[mem Nat.eqb length remove_first Qmult Qdiv inject_Z];
          rewrite ?Hid; reflexivity
      end.
  - unfold fail_stage, fail_stage_record, bind, load_state, save_state, ret.
    rewrite Hst.
    destruct (mem stage (failed_stages st)); cbn -[mem remove_first];
      destruct (mem stage (completed_stages st)); cbn -[mem remove_first];
      rewrite ?Hid; reflexivity.
  - unfold add_log, add_log_record, bind, load_state, save_state, ret.
    rewrite Hst. cbn. rewrite ?Hid. reflexivity.
Qed.

Lemma same_task_refl (a : StateData) : same_task a a.
Proof. unfold same_task. auto 10. Qed.

Lemma same_task_trans (a b c : StateData) :
  same_task a b -> same_task b c -> same_task a c.
Proof.
  unfold same_task. intros (?&?&?&?&?&?) (?&?&?&?&?&?).
  repeat split; congruence.
Qed.

Lemma records_after_same_task (ms : list mutator) (st : StateData) :
  same_task st (records_after ms st).
Proof.
  revert st. induction ms as [|m ms IH]; intros st; simpl.
  - apply same_task_refl.
  - eapply same_task_trans; [apply record_after_same_task|apply IH].
Qed.

(** A sequence of calls on a task with a record rewrites that record. *)
Lemma calls_records {dirs : TaskDirs}
    (id : string) (ms : list mutator) (store : Store) (st : StateData) :
  store !! task_dir id = Some st -> task_dir (adw_id st) = task_dir id ->
  calls id ms store = <[task_dir id := records_after ms st]> store.
Proof.
  revert store st. induction ms as [|m ms IH]; intros store st Hst Hid; simpl.
  - now rewrite insert_id.
  - rewrite (call_record id m store st Hst Hid). simpl.
    rewrite (IH _ (record_after m st)).
    + now rewrite insert_insert_eq.
    + apply lookup_insert_eq.
    + pose proof (record_after_same_task m st) as (H & _). congruence.
Qed.

Lemma call_missing {dirs : TaskDirs} (id : string) (m : mutator) (store : Store) :
  store !! task_dir id = None -> call id m store = (Ret false, store).
Proof.
  intros H.
  destruct m; simpl;
    unfold update_status, update_stage, complete_stage, fail_stage, add_log,
      bind, load_state, ret;
    rewrite H; reflexivity.
Qed.

Lemma initialize_state_record {dirs : TaskDirs} (task_data : TaskDict)
    (store store' : Store) (st : StateData) :
  initialize_state task_data store = (Ret st, store') ->
  store' !! task_dir (adw_id st) = Some st /\
  completed_stages st = default [] (td_completed_stages task_data) /\
  failed_stages st = default [] (td_failed_stages task_data) /\
  logs st = default [] (td_logs task_data) /\
  error_message st = td_error_message task_data /\
  workflow_status st = value INITIALIZED.
Proof.
  intros Hinit.
  destruct (initialize_state_inv _ _ _ _ Hinit) as (st0 & Hnew & -> & ->).
  destruct (new_StateData_fields _ _ Hnew) as (_ & _ & _ & Hc & Hf & Hl & He).
  split; [apply lookup_insert_eq|]. cbn. auto 10.
Qed.

(** The stage lists after [complete_stage] and [fail_stage]. *)
Lemma complete_stage_record_lists (stage : string) (st : StateData) :
  completed_stages (complete_stage_record stage st) =
    (if mem stage (completed_stages st) then completed_stages st
     else completed_stages st ++ [stage]) /\
  failed_stages (complete_stage_record stage st) =
    (if mem stage (failed_stages st) then remove_first stage (failed_stages st)
     else failed_stages st).
Proof.
  unfold complete_stage_record.
  destruct (mem stage (completed_stages st)); cbn -[mem Nat.eqb length remove_first];
    destruct (mem stage (failed_stages st)); cbn -[mem Nat.eqb length remove_first];
    match goal with
    | |- context [if (?a =? ?b)%nat then _ else _] => destruct (a =? b)%nat
    end; cbn; split; reflexivity.
Qed.

Lemma fail_stage_record_lists (stage msg : string) (st : StateData) :
  failed_stages (fail_stage_record stage msg st) =
    (if mem stage (failed_stages st) then failed_stages st
     else failed_stages st ++ [stage]) /\
  completed_stages (fail_stage_record stage msg st) =
    (if mem stage (completed_stages st) then remove_first stage (completed_stages st)
     else completed_stages st).
Proof.
  unfold fail_stage_record.
  destruct (mem stage (failed_stages st)); cbn -[mem remove_first];
    destruct (mem stage (completed_stages st)); cbn -[mem remove_first];
    split; reflexivity.
Qed.

Lemma remove_first_absent (x : string) (l : list string) :
  List.NoDup l -> ~ In x (remove_first x l).
Proof.
  induction 1 as [|z l Hz Hl IH]; simpl; [tauto|].
  destruct (string_dec x z) as [->|Hne]; [assumption|].
  simpl. intros [H|H]; [congruence|contradiction].
Qed.

Lemma remove_first_other (x y : string) (l : list string) :
  x <> y -> In y l -> In y (remove_first x l).
Proof.
  intros Hne. induction l as [|z l IH]; simpl; [tauto|].
  destruct (string_dec x z) as [->|Hz]; simpl.
  - intros [H|H]; [congruence|assumption].
  - intros [H|H]; [now left|right; now apply IH].
Qed.

(** Moving [stage] to the list [into] and out of the list [out_of] keeps
    the two lists duplicate-free and disjoint. *)
Lemma move_clean (stage : string) (into out_of : list string) :
  List.NoDup into -> List.NoDup out_of ->
  (forall s, ~ (In s into /\ In s out_of)) ->
  let into' := if mem stage into then into else into ++ [stage] in
  let out_of' := if mem stage out_of then remove_first stage out_of else out_of in
  List.NoDup into' /\ List.NoDup out_of' /\
  forall s, ~ (In s into' /\ In s out_of').
Proof.
  intros Hi Ho Hd. cbv zeta.
  destruct (mem stage into) eqn:Hmi, (mem stage out_of) eqn:Hmo.
  - apply mem_In in Hmi, Hmo. exfalso. apply (Hd stage). tauto.
  - split; [assumption|]. split; [assumption|]. assumption.
  - apply mem_not_In in Hmi. apply mem_In in Hmo.
    split; [now apply NoDup_snoc|]. split; [now apply remove_first_NoDup|].
    intros s [Hs1 Hs2]. apply in_app_iff in Hs1. destruct Hs1 as [Hs1|[<-|[]]].
    + apply (Hd s). split; [assumption|]. eapply remove_first_In, Hs2.
    + now apply (remove_first_absent stage out_of).
  - apply mem_not_In in Hmi, Hmo.
    split; [now apply NoDup_snoc|]. split; [assumption|].
    intros s [Hs1 Hs2]. apply in_app_iff in Hs1. destruct Hs1 as [Hs1|[<-|[]]].
    + apply (Hd s). tauto.
    + contradiction.
Qed.

Lemma record_after_clean (m : mutator) (st : StateData) :
  clean st -> clean (record_after m st).
Proof.
  intros (Hc & Hf & Hd). unfold clean.
  destruct m as [status action err|stage p|stage|stage msg|lvl stage msg];
    cbn [record_after].
  - unfold update_status_record.
    destruct (nonempty action), err as [[|c e]|]; cbn; auto.
  - unfold update_stage_record. destruct p; cbn; auto.
  - destruct (length (stages st) =? 0)%nat; [auto|].
    destruct (complete_stage_record_lists stage st) as [-> ->].
    apply (move_clean stage _ _ Hc Hf Hd).
  - destruct (fail_stage_record_lists stage msg st) as [-> ->].
    destruct (move_clean stage (failed_stages st) (completed_stages st) Hf Hc) as (A & B & C).
    + intros s [H1 H2]. apply (Hd s). tauto.
    + split; [exact B|]. split; [exact A|]. intros s [H1 H2]. apply (C s). tauto.
  - cbn. auto.
Qed.

Lemma records_after_clean (ms : list mutator) (st : StateData) :
  clean st -> clean (records_after ms st).
Proof.
  revert st. induction ms as [|m ms IH]; intros st H; simpl; [assumption|].
  apply IH, record_after_clean, H.
Qed.

Lemma record_after_logs (m : mutator) (st : StateData) :
  logs (record_after m st) = logs st ++ entries_of [m].
Proof.
  destruct m as [status action err|stage p|stage|stage msg|lvl stage msg]; simpl;
    rewrite ?app_nil_r.
  - unfold update_status_record.
    destruct (nonempty action), err as [[|c e]|]; reflexivity.
  - unfold update_stage_record. destruct p; reflexivity.
  - destruct (length (stages st) =? 0)%nat; [reflexivity|].
    unfold complete_stage_record.
    destruct (mem stage (completed_stages st)); cbn -[mem Nat.eqb length remove_first];
      destruct (mem stage (failed_stages st)); cbn -[mem Nat.eqb length remove_first];
      match goal with
      | |- context [if (?a =? ?b)%nat then _ else _] => destruct (a =? b)%nat
      end; reflexivity.
  - unfold fail_stage_record.
    destruct (mem stage (failed_stages st)); cbn -[mem remove_first];
      destruct (mem stage (completed_stages st)); reflexivity.
  - reflexivity.
Qed.

Lemma records_after_logs (ms : list mutator) (st : StateData) :
  logs (records_after ms st) = logs st ++ entries_of ms.
Proof.
  revert st. induction ms as [|m ms IH]; intros st; simpl.
  - now rewrite app_nil_r.
  - rewrite IH, record_after_logs. simpl. rewrite app_nil_r.
    now rewrite <- app_assoc.
Qed.

(** X1: from [initialize_state] on a dictionary whose own stage lists,
    if it brings any, are duplicate-free and disjoint, whatever mutators
    are called on the task, its record lists no stage twice in
    [completed_stages] or in [failed_stages], and no stage in both. *)
Theorem stage_lists_stay_disjoint {dirs : TaskDirs} (task_data : TaskDict)
    (ms : list mutator) (store store0 : Store) (st0 : StateData) :
  TaskProcessor.disjoint_history task_data ->
  initialize_state task_data store = (Ret st0, store0) ->
  exists st,
    calls (adw_id st0) ms store0 !! task_dir (adw_id st0) = Some st /\ clean st.
Proof.
  intros Hhist Hinit.
  destruct (initialize_state_record _ _ _ _ Hinit) as (Hst & Hc & Hf & _).
  exists (records_after ms st0).
  rewrite (calls_records _ ms _ st0 Hst eq_refl). split; [apply lookup_insert_eq|].
  apply records_after_clean. unfold clean. rewrite Hc, Hf. exact Hhist.
Qed.

Lemma stage_lists_stay_disjoint_witness :
  exists st,
    calls (dirs := TaskProcessor.plain_dirs) "t1"
      [CompleteStage "plan"; FailStage "plan" "boom"; FailStage "implement" "boom";
       CompleteStage "implement"; CompleteStage "plan"]
      TaskProcessor.demo_store !! "t1"%string = Some st /\
    clean st.
Proof.
  apply (stage_lists_stay_disjoint (dirs := TaskProcessor.plain_dirs)
           TaskProcessor.demo_task
           [CompleteStage "plan"; FailStage "plan" "boom"; FailStage "implement" "boom";
            CompleteStage "implement"; CompleteStage "plan"] ∅
           TaskProcessor.demo_store
           (mkStateData "t1" "Add login" "Add a login form" "feature" "medium"
              ["plan"; "implement"]%string (value INITIALIZED) "" [] [] "" 0%Q [] None)).
  - split; [constructor|]. split; [constructor|]. intros s [[] _].
  - vm_compute. reflexivity.
Defined.

(** A dictionary may list a stage both as completed and as failed;
    [StateData] takes the lists as they are. *)
Example stage_lists_taken_from_dictionary :
  exists st,
    snd (initialize_state (dirs := TaskProcessor.plain_dirs)
           (Build_TaskDict (Some "t1"%string) (Some "a"%string) (Some "b"%string)
              None None None None None (Some ["plan"%string]) (Some ["plan"%string])
              None None None None ∅) ∅) !! "t1"%string = Some st /\
    completed_stages st = ["plan"%string] /\ failed_stages st = ["plan"%string].
Proof. eexists. split; [vm_compute; reflexivity|]. split; reflexivity. Qed.

(** X2: no mutator changes what a task is: after any sequence of calls
    the record has the id, title, description, type, priority and stage
    list it had before. *)
Theorem mutators_keep_task_identity {dirs : TaskDirs}
    (id : string) (ms : list mutator) (store : Store)
    (st : StateData) :
  store !! task_dir id = Some st -> task_dir (adw_id st) = task_dir id ->
  exists st', calls id ms store !! task_dir id = Some st' /\ same_task st st'.
Proof.
  intros Hst Hid. exists (records_after ms st).
  rewrite (calls_records id ms store st Hst Hid).
  split; [apply lookup_insert_eq|apply records_after_same_task].
Qed.

Lemma mutators_keep_task_identity_witness :
  exists st',
    calls (dirs := TaskProcessor.plain_dirs) "t1"
      [UpdateStage "deploy" None; CompleteStage "deploy";
                UpdateStatus CANCELLED "stop" (Some "x"%string)]
      TaskProcessor.demo_store !! "t1"%string = Some st' /\
    same_task
      (mkStateData "t1" "Add login" "Add a login form" "feature" "medium"
         ["plan"; "implement"]%string (value INITIALIZED) "" [] [] "" 0%Q [] None) st'.
Proof.
  apply (mutators_keep_task_identity (dirs := TaskProcessor.plain_dirs) "t1"
           [UpdateStage "deploy" None; CompleteStage "deploy";
            UpdateStatus CANCELLED "stop" (Some "x"%string)]
           TaskProcessor.demo_store).
  - vm_compute. reflexivity.
  - reflexivity.
Defined.

(** X3: the log of a task only grows, and only [add_log] writes to it:
    after any sequence of calls the log is the old log followed by one
    entry per [add_log] call, in call order. *)
Theorem logs_are_append_only {dirs : TaskDirs} (id : string) (ms : list mutator) (store : Store)
    (st : StateData) :
  store !! task_dir id = Some st -> task_dir (adw_id st) = task_dir id ->
  exists st', calls id ms store !! task_dir id = Some st' /\
              logs st' = logs st ++ entries_of ms.
Proof.
  intros Hst Hid. exists (records_after ms st).
  rewrite (calls_records id ms store st Hst Hid).
  split; [apply lookup_insert_eq|apply records_after_logs].
Qed.

Lemma logs_are_append_only_witness :
  exists st',
    calls (dirs := TaskProcessor.plain_dirs) "t1"
      [AddLog "info" "plan" "one"; FailStage "plan" "boom";
                AddLog "error" "plan" "two"]
      TaskProcessor.demo_store !! "t1"%string = Some st' /\
    logs st' = [] ++ [mkLogEntry "info" "plan" "one"; mkLogEntry "error" "plan" "two"].
Proof.
  apply (logs_are_append_only (dirs := TaskProcessor.plain_dirs) "t1"
           [AddLog "info" "plan" "one"; FailStage "plan" "boom";
            AddLog "error" "plan" "two"]
           TaskProcessor.demo_store
           (mkStateData "t1" "Add login" "Add a login form" "feature" "medium"
              ["plan"; "implement"]%string (value INITIALIZED) "" [] [] "" 0%Q [] None)).
  - vm_compute. reflexivity.
  - reflexivity.
Defined.

(** A mutator saves under the id the record carries, whatever id it was
    loaded under. *)
Lemma call_saves_under_own_id {dirs : TaskDirs} (id : string) (m : mutator) (store : Store)
    (st : StateData) :
  store !! task_dir id = Some st ->
  call id m store =
    (outcome m st,
     match outcome m st with
     | Ret _ => <[task_dir (adw_id st) := record_after m st]> store
     | Raise _ => store
     end).
Proof.
  intros Hst.
  destruct m as [status action err|stage p|stage|stage msg|lvl stage msg];
    unfold call, outcome, record_after.
  - unfold update_status, update_status_record, bind, load_state, save_state, ret.
    rewrite Hst.
    destruct (nonempty action), err as [[|c e]|]; reflexivity.
  - unfold update_stage, update_stage_record, bind, load_state, save_state, ret.
    rewrite Hst. destruct p; reflexivity.
  - unfold complete_stage, complete_stage_record, bind, load_state, save_state,
      ret, raise.
    rewrite Hst.
    destruct (mem stage (completed_stages st)) eqn:Hc;
      cbn -[mem Nat.eqb length remove_first Qmult Qdiv inject_Z];
      destruct (mem stage (failed_stages st)) eqn:Hf;
      cbn -[mem Nat.eqb length remove_first Qmult Qdiv inject_Z];
      destruct (length (stages st) =? 0)%nat eqn:Hlen;
      cbn -[mem Nat.eqb length remove_first Qmult Qdiv inject_Z];
      try reflexivity;
      match goal with
      | |- context [if (?a =? ?b)%nat then _ else _] =>
          destruct (a =? b)%nat; reflexivity
      end.
  - unfold fail_stage, fail_stage_record, bind, load_state, save_state, ret.
    rewrite Hst.
    destruct (mem stage (failed_stages st)); cbn -[mem remove_first];
      destruct (mem stage (completed_stages st)); reflexivity.
  - unfold add_log, add_log_record, bind, load_state, save_state, ret.
    rewrite Hst. reflexivity.
Qed.

Lemma calls_missing {dirs : TaskDirs} (id : string) (ms : list mutator) (store : Store) :
  store !! task_dir id = None -> calls id ms store = store.
Proof.
  intros H. induction ms as [|m ms IH]; simpl; [reflexivity|].
  rewrite (call_missing id m store H). exact IH.
Qed.

(** X4: a mutator called for a task that has no record returns [False]
    and writes nothing: no sequence of calls creates the record. *)
Theorem mutators_need_a_record {dirs : TaskDirs} (id : string) (ms : list mutator) (store : Store) :
  store !! task_dir id = None ->
  calls id ms store = store /\
  Forall (fun m => call id m store = (Ret false, store)) ms.
Proof.
  intros H. split; [now apply calls_missing|].
  apply List.Forall_forall. intros m _. now apply call_missing.
Qed.

Lemma mutators_need_a_record_witness :
  let ms := [UpdateStage "plan" None; CompleteStage "plan"; AddLog "info" "plan" "x";
             FailStage "plan" "boom"; UpdateStatus FAILED "x" None] in
  let store := TaskProcessor.demo_store in
  calls (dirs := TaskProcessor.plain_dirs) "t2" ms store = store /\
  Forall (fun m => call (dirs := TaskProcessor.plain_dirs) "t2" m store = (Ret false, store)) ms.
Proof.
  cbv zeta.
  apply (mutators_need_a_record (dirs := TaskProcessor.plain_dirs) "t2"
           [UpdateStage "plan" None; CompleteStage "plan"; AddLog "info" "plan" "x";
            FailStage "plan" "boom"; UpdateStatus FAILED "x" None]
           TaskProcessor.demo_store).
  vm_compute. reflexivity.
Defined.

(** X5: when the record of a task is filed in the task's own directory,
    mutator calls for that task leave the record in every other task
    directory as it is. *)
Theorem mutators_touch_one_record {dirs : TaskDirs} (id other : string)
    (ms : list mutator) (store : Store) :
  (forall st, store !! task_dir id = Some st -> task_dir (adw_id st) = task_dir id) ->
  task_dir other <> task_dir id ->
  calls id ms store !! task_dir other = store !! task_dir other.
Proof.
  intros Hfiled Hne.
  destruct (store !! task_dir id) as [st|] eqn:Hst.
  - rewrite (calls_records id ms store st Hst (Hfiled st eq_refl)).
    apply lookup_insert_ne. congruence.
  - now rewrite calls_missing.
Qed.

Lemma mutators_touch_one_record_witness :
  let store :=
    snd (initialize_state (dirs := TaskProcessor.plain_dirs)
           (mkTaskDict (Some "t2"%string) (Some "b"%string) (Some "c"%string) None None None)
           TaskProcessor.demo_store) in
  calls (dirs := TaskProcessor.plain_dirs) "t1"
    [CompleteStage "plan"; FailStage "implement" "boom"] store !! "t2"%string =
  store !! "t2"%string.
Proof.
  cbv zeta.
  apply (mutators_touch_one_record (dirs := TaskProcessor.plain_dirs) "t1" "t2"
           [CompleteStage "plan"; FailStage "implement" "boom"]).
  - intros st H. vm_compute in H. injection H as <-. reflexivity.
  - discriminate.
Defined.

(** Two ids that name one directory share the record: a call for one of
    them changes what the other one loads. *)
Example ids_of_one_directory_share_a_record :
  let dirs : TaskDirs := fun id => if String.eqb id "./t1" then "t1"%string else id in
  let store := snd (initialize_state (dirs := dirs) TaskProcessor.demo_task ∅) in
  fst (load_state (dirs := dirs) "t1"
         (calls (dirs := dirs) "./t1" [FailStage "plan" "boom"] store))
  <> fst (load_state (dirs := dirs) "t1" store).
Proof. cbv zeta. vm_compute. discriminate. Qed.

(** X6: a record filed in a directory other than the one its own id
    names is never updated: a mutator called for the filing id leaves that
    record as it was and writes the changed copy over the record of the
    task whose id the record carries. *)
Theorem misfiled_record_overwrites_another_task {dirs : TaskDirs} (id : string)
    (m : mutator) (store : Store) (st : StateData) :
  store !! task_dir id = Some st -> task_dir (adw_id st) <> task_dir id ->
  stages st <> [] ->
  fst (call id m store) = Ret true /\
  snd (call id m store) !! task_dir id = Some st /\
  snd (call id m store) !! task_dir (adw_id st) = Some (record_after m st).
Proof.
  intros Hst Hne Hstages.
  rewrite (call_saves_under_own_id id m store st Hst).
  assert (Hout : outcome m st = Ret true).
  { destruct m; try reflexivity. simpl.
    destruct (stages st); [contradiction|reflexivity]. }
  rewrite Hout. simpl. split; [reflexivity|]. split.
  - rewrite lookup_insert_ne by assumption. exact Hst.
  - apply lookup_insert_eq.
Qed.

Lemma misfiled_record_overwrites_another_task_witness :
  let copied :=
    mkStateData "t1" "Add login" "Add a login form" "feature" "medium"
      ["plan"; "implement"]%string (value INITIALIZED) "" [] [] "" 0%Q [] None in
  let store : Store := <["t1-copy"%string := copied]> (<["t1"%string := copied]> ∅) in
  fst (call (dirs := TaskProcessor.plain_dirs) "t1-copy" (FailStage "plan" "boom") store)
    = Ret true /\
  snd (call (dirs := TaskProcessor.plain_dirs) "t1-copy" (FailStage "plan" "boom") store)
    !! "t1-copy"%string = Some copied /\
  snd (call (dirs := TaskProcessor.plain_dirs) "t1-copy" (FailStage "plan" "boom") store)
    !! "t1"%string = Some (record_after (FailStage "plan" "boom") copied).
Proof.
  cbv zeta.
  apply (misfiled_record_overwrites_another_task (dirs := TaskProcessor.plain_dirs)
           "t1-copy" (FailStage "plan" "boom")).
  - vm_compute. reflexivity.
  - discriminate.
  - discriminate.
Defined.

(** X7: [complete_stage] on a task whose stage list is empty raises
    [ZeroDivisionError] before it saves, so the store is as it was; with
    a stage in the list it returns [True]. *)
Theorem complete_stage_needs_stages {dirs : TaskDirs} (id stage : string) (store : Store)
    (st : StateData) :
  store !! task_dir id = Some st ->
  (stages st = [] ->
   complete_stage id stage store = (Raise ZeroDivisionError, store)) /\
  (stages st <> [] -> fst (complete_stage id stage store) = Ret true).
Proof.
  intros Hst.
  pose proof (call_saves_under_own_id id (CompleteStage stage) store st Hst) as H.
  simpl in H. rewrite H. split; intros Hs.
  - rewrite Hs. reflexivity.
  - destruct (stages st); [contradiction|reflexivity].
Qed.

Lemma complete_stage_needs_stages_witness :
  let store :=
    snd (initialize_state (dirs := TaskProcessor.plain_dirs)
           (mkTaskDict (Some "t0"%string) (Some "a"%string) (Some "b"%string) None None
              (Some []))
           TaskProcessor.demo_store) in
  complete_stage (dirs := TaskProcessor.plain_dirs) "t0" "plan" store
    = (Raise ZeroDivisionError, store) /\
  fst (complete_stage (dirs := TaskProcessor.plain_dirs) "t1" "plan" store) = Ret true.
Proof.
  cbv zeta. split.
  - refine (proj1 (complete_stage_needs_stages (dirs := TaskProcessor.plain_dirs)
                     "t0" "plan" _
                     (mkStateData "t0" "a" "b" "feature" "medium" []
                        (value INITIALIZED) "" [] [] "" 0%Q [] None) _) _);
      [vm_compute; reflexivity|reflexivity].
  - refine (proj2 (complete_stage_needs_stages (dirs := TaskProcessor.plain_dirs)
                     "t1" "plan" _
                     (mkStateData "t1" "Add login" "Add a login form" "feature" "medium"
                        ["plan"; "implement"]%string (value INITIALIZED) "" [] [] ""
                        0%Q [] None) _) _);
      [vm_compute; reflexivity|discriminate].
Defined.

Lemma mem_snoc (x : string) (l : list string) : mem x (l ++ [x]) = true.
Proof. apply mem_In, in_app_iff. right. now left. Qed.

Lemma mem_remove_first (x : string) (l : list string) :
  List.NoDup l -> mem x (remove_first x l) = false.
Proof. intros H. now apply mem_not_In, remove_first_absent. Qed.

(** The fields [complete_stage] computes, and those it leaves alone. *)
Lemma complete_stage_record_fields (stage : string) (st : StateData) :
  let st' := complete_stage_record stage st in
  let done := (length (completed_stages st') =? length (stages st))%nat in
  workflow_status st' = (if done then value COMPLETED else workflow_status st) /\
  current_stage st' = (if done then "completed"%string else current_stage st) /\
  progress st' =
    (inject_Z (Z.of_nat (length (completed_stages st')))
     / inject_Z (Z.of_nat (length (stages st))) * inject_Z 100)%Q /\
  error_message st' = error_message st.
Proof.
  cbv zeta. unfold complete_stage_record.
  destruct (mem stage (completed_stages st));
    cbn -[mem Nat.eqb length remove_first Qmult Qdiv inject_Z];
    destruct (mem stage (failed_stages st));
    cbn -[mem Nat.eqb length remove_first Qmult Qdiv inject_Z];
    match goal with
    | |- context [if (?a =? ?b)%nat then _ else _] => destruct (a =? b)%nat eqn:He
    end; cbn -[mem Nat.eqb length remove_first Qmult Qdiv inject_Z];
    rewrite ?He; auto.
Qed.

(** [complete_stage]'s record, field by field. *)
Lemma complete_stage_record_eq (stage : string) (st : StateData) :
  complete_stage_record stage st =
  let c' := if mem stage (completed_stages st) then completed_stages st
            else completed_stages st ++ [stage] in
  let f' := if mem stage (failed_stages st) then remove_first stage (failed_stages st)
            else failed_stages st in
  let done := (length c' =? length (stages st))%nat in
  mkStateData (adw_id st) (title st) (description st) (type_ st) (priority st)
    (stages st)
    (if done then value COMPLETED else workflow_status st)
    (if done then "completed"%string else current_stage st)
    c' f'
    (if done then "Task execution completed"%string else current_action st)
    (inject_Z (Z.of_nat (length c')) / inject_Z (Z.of_nat (length (stages st)))
     * inject_Z 100)%Q
    (logs st) (error_message st).
Proof.
  destruct st as [id ti de ty pr ss ws cs c f ca p lg em].
  unfold complete_stage_record.
  cbn -[mem Nat.eqb length remove_first Qmult Qdiv inject_Z].
  destruct (mem stage c);
    cbn -[mem Nat.eqb length remove_first Qmult Qdiv inject_Z];
    destruct (mem stage f);
    cbn -[mem Nat.eqb length remove_first Qmult Qdiv inject_Z];
    match goal with
    | |- context [if (?a =? ?b)%nat then _ else _] => destruct (a =? b)%nat
    end; reflexivity.
Qed.

Lemma complete_stage_record_idem (stage : string) (st : StateData) :
  List.NoDup (failed_stages st) ->
  complete_stage_record stage (complete_stage_record stage st) =
  complete_stage_record stage st.
Proof.
  intros Hf.
  rewrite (complete_stage_record_eq stage (complete_stage_record stage st)).
  rewrite !(complete_stage_record_eq stage st).
  cbv zeta.
  cbn [adw_id title description type_ priority stages workflow_status current_stage
       completed_stages failed_stages current_action progress logs error_message].
  set (c' := if mem stage (completed_stages st) then completed_stages st
             else completed_stages st ++ [stage]).
  set (f' := if mem stage (failed_stages st) then remove_first stage (failed_stages st)
             else failed_stages st).
  assert (Hc' : mem stage c' = true).
  { unfold c'. destruct (mem stage (completed_stages st)) eqn:Hm;
      [assumption|apply mem_snoc]. }
  assert (Hf' : mem stage f' = false).
  { unfold f'. destruct (mem stage (failed_stages st)) eqn:Hm;
      [now apply mem_remove_first|assumption]. }
  rewrite Hc', Hf'.
  destruct (length c' =? length (stages st))%nat; reflexivity.
Qed.

(** X8: [complete_stage] is idempotent on what the record says of the
    task: on a record whose [failed_stages] has no duplicate, completing
    a stage a second time leaves every field of [StateData] above, in
    every record, as the first call left it.  (The second call saves
    again, and every save rewrites the [updated_at] time stamp, which is
    no field of the record here.) *)
Theorem complete_stage_idempotent {dirs : TaskDirs}
    (id stage : string) (store : Store) (st : StateData) :
  store !! task_dir id = Some st -> task_dir (adw_id st) = task_dir id ->
  List.NoDup (failed_stages st) ->
  calls id [CompleteStage stage; CompleteStage stage] store =
  calls id [CompleteStage stage] store.
Proof.
  intros Hst Hid Hf.
  rewrite !(calls_records id _ store st Hst Hid). f_equal.
  unfold records_after. cbn [fold_left record_after].
  destruct (length (stages st) =? 0)%nat eqn:Hlen; [now rewrite Hlen|].
  pose proof (record_after_same_task (CompleteStage stage) st) as (_&_&_&_&_&Hs).
  cbn [record_after] in Hs. rewrite Hlen in Hs. rewrite <- Hs, Hlen.
  now apply complete_stage_record_idem.
Qed.

Lemma complete_stage_idempotent_witness :
  let store :=
    calls (dirs := TaskProcessor.plain_dirs) "t1"
      [FailStage "plan" "boom"] TaskProcessor.demo_store in
  calls (dirs := TaskProcessor.plain_dirs) "t1" [CompleteStage "plan"; CompleteStage "plan"] store =
  calls (dirs := TaskProcessor.plain_dirs) "t1" [CompleteStage "plan"] store.
Proof.
  cbv zeta.
  refine (complete_stage_idempotent (dirs := TaskProcessor.plain_dirs) "t1" "plan" _
            (mkStateData "t1" "Add login" "Add a login form" "feature" "medium"
               ["plan"; "implement"]%string (value FAILED) "" [] ["plan"%string] ""
               0%Q [] (Some "boom"%string)) _ _ _).
  - vm_compute. reflexivity.
  - reflexivity.
  - apply NoDup_ListNoDup, (bool_decide_unpack _). vm_compute. reflexivity.
Defined.

(** X9: completing a stage that had failed takes it out of
    [failed_stages] and puts it into [completed_stages], but the error
    message of the failure stays in the record, and so does the status
    failed unless the stage was the last one missing. *)
Theorem completing_a_failed_stage {dirs : TaskDirs} (id stage msg : string) (store : Store)
    (st : StateData) :
  store !! task_dir id = Some st -> task_dir (adw_id st) = task_dir id ->
  List.NoDup (failed_stages st) -> stages st <> [] ->
  exists st',
    calls id [FailStage stage msg; CompleteStage stage] store !! task_dir id = Some st' /\
    In stage (completed_stages st') /\ ~ In stage (failed_stages st') /\
    error_message st' = Some msg /\
    workflow_status st' =
      (if (length (completed_stages st') =? length (stages st'))%nat
       then value COMPLETED else value FAILED).
Proof.
  intros Hst Hid Hf Hs.
  rewrite (calls_records id _ store st Hst Hid).
  eexists. split; [apply lookup_insert_eq|].
  unfold records_after. cbn [fold_left record_after].
  set (st1 := fail_stage_record stage msg st).
  pose proof (record_after_same_task (FailStage stage msg) st) as (_&_&_&_&_&Hs1).
  cbn [record_after] in Hs1. fold st1 in Hs1.
  assert (Hlen : (length (stages st1) =? 0)%nat = false).
  { rewrite <- Hs1. destruct (stages st); [contradiction|reflexivity]. }
  rewrite Hlen.
  destruct (complete_stage_record_lists stage st1) as [Hc2 Hf2].
  destruct (complete_stage_record_fields stage st1) as (Hw & _ & _ & He).
  pose proof (record_after_same_task (CompleteStage stage) st1) as (_&_&_&_&_&Hs2).
  cbn [record_after] in Hs2. rewrite Hlen in Hs2.
  destruct (fail_stage_record_lists stage msg st) as [Hf1 _]. fold st1 in Hf1.
  assert (Hnd : List.NoDup (failed_stages st1)).
  { rewrite Hf1. destruct (mem stage (failed_stages st)) eqn:Hm; [assumption|].
    apply NoDup_snoc; [assumption|now apply mem_not_In]. }
  split; [|split; [|split]].
  - rewrite Hc2. destruct (mem stage (completed_stages st1)) eqn:Hm.
    + now apply mem_In.
    + apply in_app_iff. right. now left.
  - rewrite Hf2. destruct (mem stage (failed_stages st1)) eqn:Hm.
    + now apply remove_first_absent.
    + now apply mem_not_In.
  - rewrite He. reflexivity.
  - rewrite Hw, <- Hs2. reflexivity.
Qed.

Lemma completing_a_failed_stage_witness :
  exists st',
    calls (dirs := TaskProcessor.plain_dirs) "t1" [FailStage "plan" "boom"; CompleteStage "plan"]
      TaskProcessor.demo_store !! "t1"%string = Some st' /\
    In "plan"%string (completed_stages st') /\ ~ In "plan"%string (failed_stages st') /\
    error_message st' = Some "boom"%string /\
    workflow_status st' =
      (if (length (completed_stages st') =? length (stages st'))%nat
       then value COMPLETED else value FAILED).
Proof.
  refine (completing_a_failed_stage (dirs := TaskProcessor.plain_dirs) "t1" "plan" "boom" _
            (mkStateData "t1" "Add login" "Add a login form" "feature" "medium"
               ["plan"; "implement"]%string (value INITIALIZED) "" [] [] ""
               0%Q [] None) _ _ _ _).
  - vm_compute. reflexivity.
  - reflexivity.
  - constructor.
  - discriminate.
Defined.

Lemma progress_in_range (n t : nat) :
  (n <= t)%nat -> (0 < t)%nat ->
  (0 <= inject_Z (Z.of_nat n) / inject_Z (Z.of_nat t) * inject_Z 100 <= inject_Z 100)%Q.
Proof.
  intros Hn Ht.
  assert (Hpos : (0 < inject_Z (Z.of_nat t))%Q).
  { unfold Qlt, inject_Z. simpl. lia. }
  assert (H0 : (0 <= inject_Z (Z.of_nat n))%Q).
  { unfold Qle, inject_Z. simpl. lia. }
  assert (Hle : (inject_Z (Z.of_nat n) <= inject_Z (Z.of_nat t))%Q).
  { unfold Qle, inject_Z. simpl. lia. }
  assert (Hq0 : (0 <= inject_Z (Z.of_nat n) / inject_Z (Z.of_nat t))%Q).
  { apply Qle_shift_div_l; [assumption|]. now rewrite Qmult_0_l. }
  assert (Hq1 : (inject_Z (Z.of_nat n) / inject_Z (Z.of_nat t) <= 1)%Q).
  { apply Qle_shift_div_r; [assumption|]. now rewrite Qmult_1_l. }
  split.
  - apply Qmult_le_0_compat; [assumption|]. unfold Qle. simpl. lia.
  - rewrite <- (Qmult_1_l (inject_Z 100)) at 2.
    apply Qmult_le_compat_r; [assumption|]. unfold Qle. simpl. lia.
Qed.

(** X10: when [completed_stages] is a duplicate-free part of the stage
    list, completing a stage of the stage list leaves a progress between
    0 and 100: the percentage of the stages that are completed. *)
Theorem complete_stage_progress_in_range {dirs : TaskDirs} (id stage : string) (store : Store)
    (st : StateData) :
  store !! task_dir id = Some st -> task_dir (adw_id st) = task_dir id ->
  List.NoDup (completed_stages st) -> incl (completed_stages st) (stages st) ->
  In stage (stages st) ->
  exists st',
    snd (complete_stage id stage store) !! task_dir id = Some st' /\
    (0 <= progress st' <= inject_Z 100)%Q.
Proof.
  intros Hst Hid Hnd Hincl Hin.
  pose proof (call_record id (CompleteStage stage) store st Hst Hid) as H.
  cbn [call record_after outcome] in H.
  assert (Hlen : (length (stages st) =? 0)%nat = false).
  { destruct (stages st); [destruct Hin|reflexivity]. }
  rewrite Hlen in H. rewrite H. cbn [snd].
  eexists. split; [apply lookup_insert_eq|].
  destruct (complete_stage_record_fields stage st) as (_ & _ & -> & _).
  destruct (complete_stage_record_lists stage st) as [-> _].
  apply progress_in_range.
  - apply NoDup_incl_length.
    + destruct (mem stage (completed_stages st)) eqn:Hm; [assumption|].
      apply NoDup_snoc; [assumption|now apply mem_not_In].
    + destruct (mem stage (completed_stages st)); [assumption|].
      intros s Hs. apply in_app_iff in Hs. destruct Hs as [Hs|[<-|[]]]; auto.
  - apply Nat.eqb_neq in Hlen. lia.
Qed.

Lemma complete_stage_progress_in_range_witness :
  exists st',
    snd (complete_stage (dirs := TaskProcessor.plain_dirs) "t1" "plan" TaskProcessor.demo_store)
      !! "t1"%string = Some st' /\
    (0 <= progress st' <= inject_Z 100)%Q.
Proof.
  refine (complete_stage_progress_in_range (dirs := TaskProcessor.plain_dirs) "t1" "plan" _
            (mkStateData "t1" "Add login" "Add a login form" "feature" "medium"
               ["plan"; "implement"]%string (value INITIALIZED) "" [] [] ""
               0%Q [] None) _ _ _ _ _).
  - vm_compute. reflexivity.
  - reflexivity.
  - constructor.
  - intros s [].
  - now left.
Defined.

(** Outside that case the percentage leaves the range: completing a
    stage the task does not declare, after its only stage, gives 200. *)
Example progress_beyond_100 :
  let one_stage :=
    mkTaskDict (Some "t3"%string) (Some "a"%string) (Some "b"%string) None None
      (Some ["plan"%string]) in
  exists st,
    calls (dirs := TaskProcessor.plain_dirs) "t3" [CompleteStage "plan"; CompleteStage "ship"]
      (snd (initialize_state (dirs := TaskProcessor.plain_dirs) one_stage ∅)) !! "t3"%string = Some st /\
    (progress st == inject_Z 200)%Q.
Proof. cbv zeta. eexists. split; [vm_compute; reflexivity|]. reflexivity. Qed.

End RecordsFacts.

(** *** [process_task] as a sequence of mutator calls *)
Module ScriptFacts.
Import StateStore Records StateStoreFacts RecordsFacts TaskProcessor Script.
Import ProcessTaskFacts.
Local Open Scope list_scope.

Lemma records_after_app (ms1 ms2 : list mutator) (st : StateData) :
  records_after (ms1 ++ ms2) st = records_after ms2 (records_after ms1 st).
Proof. unfold records_after. apply fold_left_app. Qed.

Lemma outcome_with_stages (m : mutator) (st : StateData) :
  stages st <> [] -> outcome m st = Ret true.
Proof.
  intros H. destruct m; try reflexivity. simpl.
  destruct (stages st); [contradiction|reflexivity].
Qed.

Lemma record_after_stages (m : mutator) (st : StateData) :
  stages (record_after m st) = stages st.
Proof. pose proof (record_after_same_task m st) as (_&_&_&_&_&H). congruence. Qed.

Lemma record_after_adw_id (m : mutator) (st : StateData) :
  adw_id (record_after m st) = adw_id st.
Proof. pose proof (record_after_same_task m st) as (H&_). congruence. Qed.

(** One call in a chain of binds, for a task with stages. *)
Lemma bind_call {dirs : TaskDirs} {B : Type} (id : string) (m : mutator)
    (k : bool -> M B) (store : Store) (st : StateData) :
  store !! task_dir id = Some st -> task_dir (adw_id st) = task_dir id ->
  stages st <> [] ->
  bind (call id m) k store = k true (<[task_dir id := record_after m st]> store).
Proof.
  intros Hst Hid Hs. apply bind_run.
  rewrite (call_record id m store st Hst Hid).
  now rewrite (outcome_with_stages m st Hs).
Qed.

Section Calls.

Context {dirs : TaskDirs}.
Variable config : WorkflowConfig.
Variable stage_succeeds : nat -> string -> bool.
Variable shutdown_is_set : nat -> bool.
Variable id : string.
Variable total : nat.

Lemma stage_loop_calls (rest : list string) :
  forall (i : nat) (store : Store) (st : StateData),
    store !! task_dir id = Some st -> task_dir (adw_id st) = task_dir id ->
    (rest = [] \/ stages st <> []) ->
    stage_loop config stage_succeeds shutdown_is_set id total i rest store =
    (Ret (snd (stage_calls config stage_succeeds shutdown_is_set total i rest)),
     <[task_dir id := records_after
               (fst (stage_calls config stage_succeeds shutdown_is_set total i rest)) st]>
       store).
Proof.
  induction rest as [|stage rest IH]; intros i store st Hst Hid Hs.
  - simpl. unfold ret. now rewrite insert_id.
  - destruct Hs as [Hs|Hs]; [discriminate|].
    simpl. destruct (shutdown_is_set i).
    + simpl. unfold ret. now rewrite insert_id.
    + match goal with |- context [update_stage id stage ?p] => set (p0 := p) end.
      change (update_stage id stage p0) with (call id (UpdateStage stage p0)).
      rewrite (bind_call id _ _ store st Hst Hid Hs).
      set (st1 := record_after (UpdateStage stage p0) st).
      assert (Hid1 : task_dir (adw_id st1) = task_dir id)
        by (unfold st1; now rewrite record_after_adw_id).
      assert (Hs1 : stages st1 <> []) by (unfold st1; now rewrite record_after_stages).
      match goal with |- context [add_log id ?l stage ?m] =>
        change (add_log id l stage m) with (call id (AddLog l stage m));
        set (m1 := AddLog l stage m) end.
      rewrite (bind_call id m1 _ _ st1 (lookup_insert_eq _ _ _) Hid1 Hs1).
      set (st2 := record_after m1 st1).
      assert (Hid2 : task_dir (adw_id st2) = task_dir id)
        by (unfold st2; now rewrite record_after_adw_id).
      assert (Hs2 : stages st2 <> []) by (unfold st2; now rewrite record_after_stages).
      rewrite insert_insert_eq.
      cbv zeta. destruct (stage_succeeds i stage).
      * change (complete_stage id stage) with (call id (CompleteStage stage)).
        rewrite (bind_call id _ _ _ st2 (lookup_insert_eq _ _ _) Hid2 Hs2).
        set (st3 := record_after (CompleteStage stage) st2).
        assert (Hid3 : task_dir (adw_id st3) = task_dir id)
          by (unfold st3; now rewrite record_after_adw_id).
        assert (Hs3 : stages st3 <> []) by (unfold st3; now rewrite record_after_stages).
        rewrite insert_insert_eq.
        match goal with |- context [add_log id ?l stage ?m] =>
          change (add_log id l stage m) with (call id (AddLog l stage m));
          set (m3 := AddLog l stage m) end.
        rewrite (bind_call id m3 _ _ st3 (lookup_insert_eq _ _ _) Hid3 Hs3).
        set (st4 := record_after m3 st3).
        assert (Hid4 : task_dir (adw_id st4) = task_dir id)
          by (unfold st4; now rewrite record_after_adw_id).
        assert (Hs4 : stages st4 <> []) by (unfold st4; now rewrite record_after_stages).
        rewrite insert_insert_eq.
        rewrite (IH (S i) _ st4 (lookup_insert_eq _ _ _) Hid4 (or_intror Hs4)).
        rewrite insert_insert_eq.
        destruct (stage_calls config stage_succeeds shutdown_is_set total (S i) rest)
          as [ms r].
        reflexivity.
      * match goal with |- context [fail_stage id stage ?m] =>
          change (fail_stage id stage m) with (call id (FailStage stage m));
          set (msg := m) end.
        rewrite (bind_call id _ _ _ st2 (lookup_insert_eq _ _ _) Hid2 Hs2).
        set (st3 := record_after (FailStage stage msg) st2).
        assert (Hid3 : task_dir (adw_id st3) = task_dir id)
          by (unfold st3; now rewrite record_after_adw_id).
        assert (Hs3 : stages st3 <> []) by (unfold st3; now rewrite record_after_stages).
        rewrite insert_insert_eq.
        change (add_log id "error" stage msg) with (call id (AddLog "error" stage msg)).
        rewrite (bind_call id _ _ _ st3 (lookup_insert_eq _ _ _) Hid3 Hs3).
        set (st4 := record_after (AddLog "error" stage msg) st3).
        assert (Hid4 : task_dir (adw_id st4) = task_dir id)
          by (unfold st4; now rewrite record_after_adw_id).
        assert (Hs4 : stages st4 <> []) by (unfold st4; now rewrite record_after_stages).
        rewrite insert_insert_eq.
        destruct (pipeline_continue_on_failure config); simpl negb; cbv iota.
        -- rewrite (IH (S i) _ st4 (lookup_insert_eq _ _ _) Hid4 (or_intror Hs4)).
           rewrite insert_insert_eq.
           destruct (stage_calls config stage_succeeds shutdown_is_set total (S i) rest)
             as [ms r].
           reflexivity.
        -- reflexivity.
Qed.

End Calls.

(** [process_task] on a well-formed task whose logger can be set up:
    its result is the script's, and it files the record the script's
    calls make of the fresh record. *)
Lemma process_task_calls {dirs : TaskDirs} (config : WorkflowConfig)
    (new_WorkflowLogger : string -> res unit) (stage_succeeds : nat -> string -> bool)
    (shutdown_is_set : nat -> bool) (task_data : TaskDict) (id : string) :
  well_formed task_data id -> new_WorkflowLogger id = Ret tt ->
  exists st0,
    adw_id st0 = id /\
    stages st0 = default ["plan"; "implement"]%string (td_stages task_data) /\
    completed_stages st0 = default [] (td_completed_stages task_data) /\
    failed_stages st0 = default [] (td_failed_stages task_data) /\
    logs st0 = default [] (td_logs task_data) /\
    error_message st0 = td_error_message task_data /\
    forall store,
      process_task config new_WorkflowLogger stage_succeeds shutdown_is_set task_data store =
      (snd (task_calls config stage_succeeds shutdown_is_set (stages st0)),
       <[task_dir id := records_after
                 (fst (task_calls config stage_succeeds shutdown_is_set (stages st0)))
                 st0]> store).
Proof.
  intros Hwf Hlog. pose proof Hwf as (Hid & Hne & _).
  destruct (initialize_state_run task_data id Hwf)
    as (st0 & E0 & Hid0 & _ & Hs0 & _ & Hc0 & Hf0 & Hl0 & He0).
  exists st0. repeat (split; [assumption|]).
  intros store.
  assert (Hd0 : task_dir (adw_id st0) = task_dir id) by (rewrite Hid0; reflexivity).
  unfold process_task. rewrite Hid. destruct id as [|c id']; [congruence|].
  set (id := String c id') in *.
  unfold try_except. rewrite (bind_run _ _ _ _ _ (E0 store)).
  rewrite Hlog. unfold lift at 1. unfold bind at 1.
  match goal with |- context [update_status id EXECUTING ?a ?e] =>
    change (update_status id EXECUTING a e) with (call id (UpdateStatus EXECUTING a e));
    set (m0 := UpdateStatus EXECUTING a e) end.
  pose proof (call_record id m0 (<[task_dir id := st0]> store) st0
                (lookup_insert_eq _ _ _) Hd0) as E1.
  change (outcome m0 st0) with (Ret true : res bool) in E1.
  rewrite (bind_run _ _ _ _ _ E1). rewrite insert_insert_eq. cbv zeta.
  set (st1 := record_after m0 st0).
  assert (Hid1 : task_dir (adw_id st1) = task_dir id)
    by (unfold st1; now rewrite record_after_adw_id).
  assert (Hs1 : stages st1 = stages st0) by (unfold st1; now rewrite record_after_stages).
  assert (Hor : stages st0 = [] \/ stages st1 <> []).
  { rewrite Hs1. destruct (stages st0); [now left|right; discriminate]. }
  rewrite (bind_run _ _ _ _ _
             (stage_loop_calls config stage_succeeds shutdown_is_set id
                (length (stages st0)) (stages st0) 0%nat (<[task_dir id := st1]> store) st1
                (lookup_insert_eq _ _ _) Hid1 Hor)).
  rewrite insert_insert_eq.
  unfold task_calls.
  destruct (stage_calls config stage_succeeds shutdown_is_set (length (stages st0)) 0
              (stages st0)) as [ms r].
  cbn [fst snd]. fold m0.
  destruct r as [b|].
  - unfold ret. cbn [fst snd]. reflexivity.
  - match goal with |- context [update_status id COMPLETED ?a ?e] =>
      change (update_status id COMPLETED a e) with (call id (UpdateStatus COMPLETED a e));
      set (m2 := UpdateStatus COMPLETED a e) end.
    set (st2 := records_after ms st1).
    assert (Hid2 : task_dir (adw_id st2) = task_dir id).
    { unfold st2. pose proof (records_after_same_task ms st1) as (H&_).
      rewrite <- H. exact Hid1. }
    pose proof (call_record id m2 (<[task_dir id := st2]> store) st2
                  (lookup_insert_eq _ _ _) Hid2) as E2.
    change (outcome m2 st2) with (Ret true : res bool) in E2.
    rewrite (bind_run _ _ _ _ _ E2). rewrite insert_insert_eq. unfold ret.
    cbn [fst snd]. f_equal. f_equal.
    change (m0 :: ms ++ [m2]) with ((m0 :: ms) ++ [m2]).
    rewrite records_after_app. reflexivity.
Qed.

(** X11: for a task dictionary that [StateData] accepts, neither the
    result of [process_task] nor the record it leaves depends on the
    store it starts from: an earlier record in the task's directory is
    replaced, and the record in every other directory is left as it is. *)
Theorem process_task_replaces_one_record {dirs : TaskDirs} (config : WorkflowConfig)
    (new_WorkflowLogger : string -> res unit)
    (stage_succeeds : nat -> string -> bool) (shutdown_is_set : nat -> bool)
    (task_data : TaskDict) (id : string) :
  well_formed task_data id ->
  exists (result : bool) (st : StateData),
    forall store,
      process_task config new_WorkflowLogger stage_succeeds shutdown_is_set task_data store =
      (result, <[task_dir id := st]> store).
Proof.
  intros Hwf.
  destruct (new_WorkflowLogger id) as [[]|e] eqn:Hlog.
  - destruct (process_task_calls config new_WorkflowLogger stage_succeeds shutdown_is_set
                task_data id Hwf Hlog) as (st0 & _ & _ & _ & _ & _ & _ & H).
    eexists _, _. exact H.
  - pose proof Hwf as (Hid & Hne & _).
    destruct (initialize_state_run task_data id Hwf) as (st0 & E0 & Hid0 & _).
    assert (Hd0 : task_dir (adw_id st0) = task_dir id) by (rewrite Hid0; reflexivity).
    exists false. eexists. intros store.
    unfold process_task. rewrite Hid. destruct id as [|c id']; [congruence|].
    set (id := String c id') in *.
    unfold try_except. rewrite (bind_run _ _ _ _ _ (E0 store)).
    rewrite Hlog. unfold lift at 1. unfold bind at 1.
    match goal with |- context [update_status id FAILED ?a ?b] =>
      change (update_status id FAILED a b) with (call id (UpdateStatus FAILED a b));
      set (m := UpdateStatus FAILED a b) end.
    pose proof (call_record id m (<[task_dir id := st0]> store) st0
                  (lookup_insert_eq _ _ _) Hd0) as E1.
    change (outcome m st0) with (Ret true : res bool) in E1.
    rewrite (bind_run _ _ _ _ _ E1). rewrite insert_insert_eq. unfold ret.
    reflexivity.
Qed.

Lemma process_task_replaces_one_record_witness :
  exists (result : bool) (st : StateData),
    forall store,
      process_task (dirs := plain_dirs) stop_on_failure (fun _ => Ret tt)
        (fun i _ => negb (Nat.eqb i 1)) (fun _ => false) demo_task store =
      (result, <["t1"%string := st]> store).
Proof.
  apply (process_task_replaces_one_record (dirs := plain_dirs) stop_on_failure
           (fun _ => Ret tt) (fun i _ => negb (Nat.eqb i 1)) (fun _ => false)
           demo_task "t1").
  repeat split; simpl; congruence.
Defined.

(** A key that is no field of [StateData] makes the constructor raise:
    [process_task] then returns [False] and leaves what the error path
    makes of the store, an earlier record marked failed or no record. *)
Example process_task_unknown_key :
  let extra := Build_TaskDict (Some "t1"%string) (Some "a"%string) (Some "b"%string)
                 None None None None None None None None None None None
                 {[ "assignee"%string := "kim"%string ]} in
  process_task (dirs := plain_dirs) stop_on_failure (fun _ => Ret tt)
    (fun _ _ => true) (fun _ => false) extra ∅ = (false, ∅) /\
  exists st,
    snd (process_task (dirs := plain_dirs) stop_on_failure (fun _ => Ret tt)
           (fun _ _ => true) (fun _ => false) extra demo_store) !! "t1"%string = Some st /\
    workflow_status st = value FAILED.
Proof.
  cbv zeta. split; [vm_compute; reflexivity|].
  eexists. split; [vm_compute; reflexivity|reflexivity].
Qed.


(** The record once a stage has been started. *)
Lemma started_record (stage l m : string) (p : Q) (st : StateData) :
  record_after (AddLog l stage m) (record_after (UpdateStage stage (Some p)) st) =
  mkStateData (adw_id st) (title st) (description st) (type_ st) (priority st)
    (stages st) (value EXECUTING) stage (completed_stages st) (failed_stages st)
    (current_action st) p (logs st ++ [mkLogEntry l stage m]) (error_message st).
Proof. destruct st. reflexivity. Qed.

Lemma completed_record (stage : string) (st : StateData) :
  stages st <> [] ->
  record_after (CompleteStage stage) st = complete_stage_record stage st.
Proof.
  intros H. cbn [record_after]. destruct (stages st); [contradiction|reflexivity].
Qed.

Lemma full_progress (n : nat) :
  (0 < n)%nat ->
  (inject_Z (Z.of_nat n) / inject_Z (Z.of_nat n) * inject_Z 100 == inject_Z 100)%Q.
Proof.
  intros Hn. unfold Qdiv. rewrite Qmult_inv_r.
  - apply Qmult_1_l.
  - unfold Qeq, inject_Z. simpl. lia.
Qed.

Section Prefix.

Variable config : WorkflowConfig.
Variable stage_succeeds : nat -> string -> bool.
Variable shutdown_is_set : nat -> bool.
Variable total : nat.
Variable rest : list string.

(** A run of stages that all succeed, with no shutdown request: the loop
    goes on with the stages after them, and the run's stages have joined
    [completed_stages], in order. *)
Lemma success_prefix (pre : list string) :
  forall (i : nat) (st : StateData) (done : list string),
    stages st <> [] -> List.NoDup (done ++ pre) ->
    completed_stages st = done -> failed_stages st = [] ->
    (forall j x, (i <= j < i + length pre)%nat ->
                 stage_succeeds j x = true /\ shutdown_is_set j = false) ->
    exists ms,
      stage_calls config stage_succeeds shutdown_is_set total i (pre ++ rest) =
        (ms ++ fst (stage_calls config stage_succeeds shutdown_is_set total
                      (i + length pre) rest),
         snd (stage_calls config stage_succeeds shutdown_is_set total
                (i + length pre) rest)) /\
      let st' := records_after ms st in
      completed_stages st' = done ++ pre /\ failed_stages st' = [] /\
      error_message st' = error_message st /\
      logs st' = logs st ++ flat_map success_entries pre /\
      (pre <> [] -> length (done ++ pre) = length (stages st) -> finished st').
Proof.
  induction pre as [|stage pre IH]; intros i st done Hs Hnd Hc Hf Hok.
  - exists []. simpl. rewrite Nat.add_0_r, !app_nil_r.
    split; [now destruct (stage_calls _ _ _ _ _ _)|].
    split; [assumption|]. split; [assumption|]. split; [reflexivity|].
    split; [reflexivity|]. intros H. now contradiction H.
  - destruct (Hok i stage) as [Hsucc Hshut]; [simpl; lia|].
    cbn [app stage_calls]. rewrite Hshut, Hsucc.
    match goal with |- context [UpdateStage stage (Some ?p)] => set (p0 := p) end.
    set (m1 := AddLog "info" stage ("Starting " ++ stage ++ " stage")%string).
    set (m3 := AddLog "success" stage
                 ("Completed " ++ stage ++ " stage successfully")%string).
    set (st2 := record_after m1 (record_after (UpdateStage stage (Some p0)) st)).
    set (st4 := record_after m3 (record_after (CompleteStage stage) st2)).
    assert (E2 : st2 = _) by apply started_record.
    assert (Hs2 : stages st2 = stages st) by (rewrite E2; reflexivity).
    assert (Hnotin : ~ In stage done).
    { intros Hin. apply NoDup_remove_2 in Hnd. apply Hnd.
      apply in_app_iff. now left. }
    assert (Hm : mem stage (completed_stages st2) = false).
    { rewrite E2. cbn [completed_stages]. rewrite Hc. now apply mem_not_In. }
    assert (Hmf : mem stage (failed_stages st2) = false).
    { rewrite E2. cbn [failed_stages]. rewrite Hf. reflexivity. }
    assert (E4 : st4 = set_logs (logs (complete_stage_record stage st2)
                                  ++ [mkLogEntry "success" stage
                                        ("Completed " ++ stage ++ " stage successfully")%string])
                         (complete_stage_record stage st2)).
    { unfold st4. rewrite completed_record by (rewrite Hs2; exact Hs). reflexivity. }
    pose proof (complete_stage_record_eq stage st2) as E3. cbv zeta in E3.
    rewrite Hm, Hmf in E3.
    assert (Hc4 : completed_stages st4 = done ++ [stage]).
    { rewrite E4, E3. cbn [set_logs completed_stages]. rewrite E2.
      cbn [completed_stages]. now rewrite Hc. }
    assert (Hf4 : failed_stages st4 = []).
    { rewrite E4, E3. cbn [set_logs failed_stages]. rewrite E2.
      cbn [failed_stages]. exact Hf. }
    assert (Hs4 : stages st4 = stages st).
    { rewrite E4, E3. cbn [set_logs stages]. exact Hs2. }
    assert (He4 : error_message st4 = error_message st).
    { rewrite E4, E3. cbn [set_logs error_message]. rewrite E2. reflexivity. }
    assert (Hl4 : logs st4 = logs st ++ success_entries stage).
    { rewrite E4, E3. cbn [set_logs logs]. rewrite E2. cbn [logs].
      rewrite <- app_assoc. reflexivity. }
    destruct (IH (S i) st4 (done ++ [stage])) as (ms & Hcalls & Hc' & Hf' & He' & Hl' & Hfin').
    + rewrite Hs4. exact Hs.
    + rewrite <- app_assoc. exact Hnd.
    + exact Hc4.
    + exact Hf4.
    + intros j x Hj. apply Hok. simpl. lia.
    + replace (i + length (stage :: pre))%nat with (S i + length pre)%nat
        by (simpl; lia).
      rewrite Hcalls.
      exists ([UpdateStage stage (Some p0); m1; CompleteStage stage; m3] ++ ms).
      split; [reflexivity|].
      cbv zeta. rewrite records_after_app.
      change (records_after [UpdateStage stage (Some p0); m1; CompleteStage stage; m3] st)
        with st4.
      rewrite Hc', Hf', He', Hl', He4, Hl4, <- !app_assoc.
      split; [reflexivity|]. split; [reflexivity|]. split; [reflexivity|].
      split; [reflexivity|].
      intros _ Hlen. destruct pre as [|stage' pre'].
      * assert (ms = []) as ->.
        { apply (f_equal fst) in Hcalls. cbn [app length fst] in Hcalls.
          rewrite Nat.add_0_r in Hcalls.
          apply (f_equal (@length mutator)) in Hcalls.
          rewrite length_app in Hcalls.
          destruct ms; [reflexivity|]. simpl in Hcalls. lia. }
        cbn [records_after fold_left].
        assert (Hdone : (length (done ++ [stage]) =? length (stages st2))%nat = true).
        { rewrite Hs2. apply Nat.eqb_eq. exact Hlen. }
        unfold finished. rewrite E4, E3. cbn [set_logs workflow_status current_stage progress].
        replace (completed_stages st2) with done by (rewrite E2; now cbn [completed_stages]).
        rewrite Hdone. split; [reflexivity|]. split; [reflexivity|].
        apply Nat.eqb_eq in Hdone. rewrite Hdone. apply full_progress.
        rewrite Hs2. destruct (stages st); [contradiction|simpl; lia].
      * apply Hfin'; [discriminate|]. rewrite Hs4, <- app_assoc. exact Hlen.
Qed.

End Prefix.

(** The record once [process_task] has set the status to executing. *)
Lemma executing_record (action : string) (st : StateData) :
  let st1 := record_after (UpdateStatus EXECUTING action None) st in
  stages st1 = stages st /\ completed_stages st1 = completed_stages st /\
  failed_stages st1 = failed_stages st /\ logs st1 = logs st /\
  error_message st1 = error_message st.
Proof.
  cbv zeta. cbn [record_after]. unfold update_status_record.
  destruct (nonempty action); cbn; auto.
Qed.

(** The record once [process_task] has set the status to completed. *)
Lemma completed_status_record (action : string) (st : StateData) :
  let st1 := record_after (UpdateStatus COMPLETED action None) st in
  workflow_status st1 = value COMPLETED /\
  stages st1 = stages st /\ completed_stages st1 = completed_stages st /\
  failed_stages st1 = failed_stages st /\ logs st1 = logs st /\
  error_message st1 = error_message st /\ current_stage st1 = current_stage st /\
  progress st1 = progress st.
Proof.
  cbv zeta. cbn [record_after]. unfold update_status_record.
  destruct (nonempty action); cbn; auto 10.
Qed.

Lemma stage_calls_continue (config : WorkflowConfig)
    (stage_succeeds : nat -> string -> bool) (shutdown_is_set : nat -> bool)
    (total : nat) (rest : list string) :
  pipeline_continue_on_failure config = true ->
  forall i, snd (stage_calls config stage_succeeds shutdown_is_set total i rest) = None.
Proof.
  intros Hcont. induction rest as [|stage rest IH]; intros i; simpl; [reflexivity|].
  destruct (shutdown_is_set i); [reflexivity|].
  rewrite Hcont. simpl.
  specialize (IH (S i)).
  destruct (stage_calls config stage_succeeds shutdown_is_set total (S i) rest) as [ms r].
  destruct (stage_succeeds i stage); exact IH.
Qed.

(** X12: for a dictionary that brings no history of its own and a
    logger that can be set up: when every stage succeeds and no shutdown
    is requested, [process_task] returns [True] and leaves the task
    completed: every
    stage of its duplicate-free stage list is in [completed_stages], in
    order, no stage is failed, there is no error message, and the log
    holds a start and a success entry per stage. *)
Theorem process_task_all_stages_succeed {dirs : TaskDirs} (config : WorkflowConfig)
    (new_WorkflowLogger : string -> res unit)
    (stage_succeeds : nat -> string -> bool) (shutdown_is_set : nat -> bool)
    (task_data : TaskDict) (id : string) :
  well_formed task_data id -> no_history task_data ->
  new_WorkflowLogger id = Ret tt ->
  List.NoDup (default ["plan"; "implement"]%string (td_stages task_data)) ->
  (forall i stage, stage_succeeds i stage = true) ->
  (forall i, shutdown_is_set i = false) ->
  exists st,
    (forall store,
        process_task config new_WorkflowLogger stage_succeeds shutdown_is_set task_data store =
        (true, <[task_dir id := st]> store)) /\
    stages st = default ["plan"; "implement"]%string (td_stages task_data) /\
    completed_stages st = stages st /\ failed_stages st = [] /\
    error_message st = None /\ workflow_status st = value COMPLETED /\
    logs st = flat_map success_entries (stages st).
Proof.
  intros Hwf Hhist Hlog Hnd Hsucc Hshut.
  destruct (process_task_calls config new_WorkflowLogger stage_succeeds shutdown_is_set
              task_data id Hwf Hlog) as (st0 & Hid0 & Hs0 & Hc0 & Hf0 & Hl0 & He0 & Hrun).
  destruct Hhist as (Hh1 & Hh2 & Hh3 & Hh4). rewrite Hh1 in Hc0. rewrite Hh2 in Hf0.
  rewrite Hh3 in Hl0. rewrite Hh4 in He0.
  rewrite <- Hs0 in *.
  unfold task_calls in Hrun.
  set (m0 := UpdateStatus EXECUTING "Processing task through stages" None) in *.
  set (m2 := UpdateStatus COMPLETED "Task execution completed successfully" None) in *.
  set (st1 := record_after m0 st0).
  destruct (executing_record "Processing task through stages" st0)
    as (Hs1 & Hc1 & Hf1 & Hl1 & He1).
  fold m0 in Hs1, Hc1, Hf1, Hl1, He1. fold st1 in Hs1, Hc1, Hf1, Hl1, He1.
  assert (Hloop : exists ms,
             stage_calls config stage_succeeds shutdown_is_set (length (stages st0)) 0
               (stages st0) = (ms, None) /\
             completed_stages (records_after ms st1) = stages st0 /\
             failed_stages (records_after ms st1) = [] /\
             error_message (records_after ms st1) = None /\
             logs (records_after ms st1) = flat_map success_entries (stages st0)).
  { assert (Hcase : stages st0 = [] \/ stages st0 <> []).
    { destruct (stages st0); [now left|right; discriminate]. }
    destruct Hcase as [Hss|Hss].
    - exists []. rewrite Hss. cbn [stage_calls records_after fold_left flat_map].
      rewrite Hc1, Hf1, He1, Hl1. auto.
    - destruct (success_prefix config stage_succeeds shutdown_is_set
                  (length (stages st0)) [] (stages st0) 0%nat st1 [])
        as (ms & Hcalls & Hc & Hf & He & Hl & _).
      + rewrite Hs1. exact Hss.
      + exact Hnd.
      + rewrite Hc1. exact Hc0.
      + rewrite Hf1. exact Hf0.
      + intros j x _. split; [apply Hsucc|apply Hshut].
      + exists ms. rewrite app_nil_r in Hcalls. simpl in Hcalls.
        rewrite app_nil_r in Hcalls.
        split; [exact Hcalls|].
        rewrite Hc, Hf, He, Hl, He1, Hl1, He0, Hl0. auto. }
  destruct Hloop as (ms & Hcalls & Hc & Hf & He & Hl).
  rewrite Hcalls in Hrun. cbn [fst snd] in Hrun.
  eexists. split; [exact Hrun|].
  change (m0 :: ms ++ [m2]) with ((m0 :: ms) ++ [m2]).
  rewrite records_after_app.
  change (records_after (m0 :: ms) st0) with (records_after ms st1).
  destruct (completed_status_record "Task execution completed successfully"
              (records_after ms st1)) as (Hw & Hs3 & Hc3 & Hf3 & Hl3 & He3 & _).
  fold m2 in Hw, Hs3, Hc3, Hf3, Hl3, He3.
  change (records_after [m2] (records_after ms st1))
    with (record_after m2 (records_after ms st1)).
  pose proof (records_after_same_task ms st1) as (_&_&_&_&_&Hs2).
  rewrite Hs3, Hc3, Hf3, Hl3, He3, <- Hs2, Hs1, Hc, Hf, He, Hl. auto 10.
Qed.

Lemma process_task_all_stages_succeed_witness :
  exists st,
    (forall store,
        process_task (dirs := plain_dirs) stop_on_failure (fun _ => Ret tt)
          (fun _ _ => true) (fun _ => false) demo_task store =
        (true, <["t1"%string := st]> store)) /\
    stages st = default ["plan"; "implement"]%string (td_stages demo_task) /\
    completed_stages st = stages st /\ failed_stages st = [] /\
    error_message st = None /\ workflow_status st = value COMPLETED /\
    logs st = flat_map success_entries (stages st).
Proof.
  apply (process_task_all_stages_succeed (dirs := plain_dirs) stop_on_failure
           (fun _ => Ret tt) (fun _ _ => true) (fun _ => false) demo_task "t1").
  - repeat split; simpl; congruence.
  - repeat split.
  - reflexivity.
  - apply NoDup_ListNoDup, (bool_decide_unpack _). vm_compute. reflexivity.
  - reflexivity.
  - reflexivity.
Defined.





(** X15: once the logger is set up, with [pipeline_continue_on_failure]
    on, [process_task] returns [True] and leaves the status completed
    whatever the stages did, also when every one of them failed. *)
Theorem process_task_continue_reports_success {dirs : TaskDirs} (config : WorkflowConfig)
    (new_WorkflowLogger : string -> res unit)
    (stage_succeeds : nat -> string -> bool) (shutdown_is_set : nat -> bool)
    (task_data : TaskDict) (id : string) :
  well_formed task_data id -> new_WorkflowLogger id = Ret tt ->
  pipeline_continue_on_failure config = true ->
  exists st,
    (forall store,
        process_task config new_WorkflowLogger stage_succeeds shutdown_is_set task_data store =
        (true, <[task_dir id := st]> store)) /\
    workflow_status st = value COMPLETED.
Proof.
  intros Hwf Hlog Hcont.
  destruct (process_task_calls config new_WorkflowLogger stage_succeeds shutdown_is_set
              task_data id Hwf Hlog) as (st0 & _ & _ & _ & _ & _ & _ & Hrun).
  unfold task_calls in Hrun.
  pose proof (stage_calls_continue config stage_succeeds shutdown_is_set
                (length (stages st0)) (stages st0) Hcont 0%nat) as Hnone.
  destruct (stage_calls config stage_succeeds shutdown_is_set (length (stages st0)) 0
              (stages st0)) as [ms r].
  simpl in Hnone. subst r. cbn [fst snd] in Hrun.
  eexists. split; [exact Hrun|].
  match goal with |- context [?a :: ms ++ [?b]] =>
    change (a :: ms ++ [b]) with ((a :: ms) ++ [b]) end.
  rewrite records_after_app.
  apply (completed_status_record "Task execution completed successfully").
Qed.

Lemma process_task_continue_reports_success_witness :
  exists st,
    (forall store,
        process_task (dirs := plain_dirs) continue_on_failure (fun _ => Ret tt)
          (fun _ _ => false) (fun _ => false)
          demo_task store =
        (true, <["t1"%string := st]> store)) /\
    workflow_status st = value COMPLETED.
Proof.
  apply (process_task_continue_reports_success (dirs := plain_dirs) continue_on_failure
           (fun _ => Ret tt) (fun _ _ => false) (fun _ => false) demo_task "t1").
  - repeat split; simpl; congruence.
  - reflexivity.
  - reflexivity.
Defined.

(** X16: a task dictionary that has an id but lacks the title or the
    description is rejected: [process_task] returns [False] and creates
    no record, so a task without an earlier record leaves the store
    unchanged; an earlier record of the task is marked failed with an
    error message, its stage lists left as they were. *)
Theorem process_task_rejects_incomplete_task {dirs : TaskDirs} (config : WorkflowConfig)
    (new_WorkflowLogger : string -> res unit)
    (stage_succeeds : nat -> string -> bool) (shutdown_is_set : nat -> bool)
    (task_data : TaskDict) (id : string) (store : Store) :
  td_adw_id task_data = Some id -> id <> ""%string ->
  td_title task_data = None \/ td_description task_data = None ->
  (forall st, store !! task_dir id = Some st -> task_dir (adw_id st) = task_dir id) ->
  exists store',
    process_task config new_WorkflowLogger stage_succeeds shutdown_is_set task_data store
      = (false, store') /\
    match store !! task_dir id with
    | None => store' = store
    | Some st =>
        exists st' msg,
          store' = <[task_dir id := st']> store /\
          workflow_status st' = value FAILED /\ error_message st' = Some msg /\
          completed_stages st' = completed_stages st /\
          failed_stages st' = failed_stages st /\ stages st' = stages st
    end.
Proof.
  intros Hid Hne Hmissing Hfiled.
  unfold process_task. rewrite Hid. destruct id as [|c id']; [congruence|].
  set (id := String c id') in *.
  assert (Hraise : exists e msg, initialize_state task_data = raise e /\
                                 str_exn e = msg /\ nonempty msg = true).
  { unfold initialize_state, new_StateData. rewrite Hid.
    destruct (negb (only_keys unread_fields (td_other task_data)));
      [eexists _, _; (split; [reflexivity|]); split; reflexivity|].
    destruct Hmissing as [-> | ->]; [|destruct (td_title task_data)];
      eexists _, _; (split; [reflexivity|]); split; reflexivity. }
  destruct Hraise as (e & msg & Hinit & Hmsg & Hnonempty).
  unfold try_except, bind at 1. rewrite Hinit. unfold raise at 1.
  rewrite Hmsg.
  match goal with |- context [update_status id FAILED ?a ?b] =>
    change (update_status id FAILED a b) with (call id (UpdateStatus FAILED a b));
    set (m := UpdateStatus FAILED a b) end.
  destruct (store !! task_dir id) as [st|] eqn:Hst.
  - pose proof (call_record id m store st Hst (Hfiled st eq_refl)) as E.
    change (outcome m st) with (Ret true : res bool) in E.
    rewrite (bind_run _ _ _ _ _ E). unfold ret.
    eexists. split; [reflexivity|].
    exists (record_after m st), msg. split; [reflexivity|].
    unfold m. cbn [record_after]. unfold update_status_record.
    destruct msg as [|c0 msg0]; [discriminate|].
    destruct (nonempty _); cbn; auto.
  - pose proof (call_missing id m store Hst) as E.
    rewrite (bind_run _ _ _ _ _ E). unfold ret.
    eexists. split; reflexivity.
Qed.

Lemma process_task_rejects_incomplete_task_witness :
  let untitled :=
    mkTaskDict (Some "t1"%string) None (Some "Add a login form"%string) None None None in
  let store :=
    snd (process_task (dirs := plain_dirs) stop_on_failure (fun _ => Ret tt)
           (fun _ _ => true) (fun _ => false) demo_task ∅) in
  exists store',
    process_task (dirs := plain_dirs) stop_on_failure (fun _ => Ret tt)
      (fun _ _ => true) (fun _ => false) untitled store
      = (false, store') /\
    match store !! "t1"%string with
    | None => store' = store
    | Some st =>
        exists st' msg,
          store' = <["t1"%string := st']> store /\
          workflow_status st' = value FAILED /\ error_message st' = Some msg /\
          completed_stages st' = completed_stages st /\
          failed_stages st' = failed_stages st /\ stages st' = stages st
    end.
Proof.
  cbv zeta.
  apply (process_task_rejects_incomplete_task (dirs := plain_dirs) stop_on_failure
           (fun _ => Ret tt) (fun _ _ => true) (fun _ => false)
           (mkTaskDict (Some "t1"%string) None (Some "Add a login form"%string)
              None None None) "t1").
  - reflexivity.
  - discriminate.
  - now left.
  - intros st H. vm_compute in H. injection H as <-. reflexivity.
Defined.

End ScriptFacts.

(** *** Further facts about [execute_stage] *)
Module RetryFacts.
Import TaskProcessor ExecuteStageFacts.
Local Open Scope list_scope.

Lemma attempt_loop_first_success (run : string -> Z -> bool) (stage : string)
    (timeout : Z) (before after : list Z) (attempt : Z) :
  (forall a, In a before -> run stage a = false) ->
  run stage attempt = true ->
  attempt_loop run stage timeout (before ++ attempt :: after) =
  (true, flat_map (failed_round timeout) (before ++ [attempt])).
Proof.
  intros Hfail Hok. induction before as [|a before IH]; simpl.
  - rewrite Hok. unfold failed_round. now rewrite app_nil_r.
  - rewrite (Hfail a) by now left.
    rewrite IH by (intros a' Ha'; apply Hfail; now right).
    unfold failed_round. now rewrite <- app_assoc.
Qed.

Lemma range_split (k m : Z) :
  0 <= k <= m ->
  range (m + 1) =
  range k ++ k :: map Z.of_nat (seq (S (Z.to_nat k)) (Z.to_nat (m - k))).
Proof.
  intros Hk. unfold range.
  replace (Z.to_nat (m + 1)) with (Z.to_nat k + S (Z.to_nat (m - k)))%nat by lia.
  rewrite seq_app, map_app. simpl. f_equal. f_equal. lia.
Qed.

Lemma range_snoc (k : Z) : 0 <= k -> range (k + 1) = range k ++ [k].
Proof.
  intros Hk. rewrite (range_split k k) by lia.
  replace (Z.to_nat (k - k)) with 0%nat by lia. reflexivity.
Qed.

Lemma In_range (a n : Z) : In a (range n) -> 0 <= a < n.
Proof.
  unfold range. rewrite in_map_iff. intros (x & <- & Hx). apply in_seq in Hx. lia.
Qed.

Lemma slept_all_rounds (timeout m : Z) :
  0 <= m -> slept (flat_map (failed_round timeout) (range (m + 1))) = 2 ^ (m + 1) - 2.
Proof.
  intros Hm. rewrite (range_succ _ Hm). cbn [flat_map]. rewrite slept_app.
  rewrite slept_failed_rounds by lia. unfold failed_round. simpl slept.
  replace (Z.of_nat (1 + Z.to_nat m)) with (m + 1) by lia.
  reflexivity.
Qed.

(** X17: when the configuration of a stage loads and its pipeline script
    exists, [execute_stage] stops at the first attempt that succeeds: if
    that is attempt [k] (within the retry budget), it returns [True]
    after exactly the runs 0 to [k], having slept [2 ** 1 + ... + 2 ** k]
    seconds, and makes no further attempt. *)
Theorem execute_stage_stops_at_first_success
    (config : WorkflowConfig) (get_pipeline_config : string -> res (option PipelineConfig))
    (pipeline_script_exists : string -> bool) (run : string -> Z -> bool)
    (write_json_file : string -> bool) (stage : string)
    (pipeline_config : option PipelineConfig) (k : Z) :
  let outcome :=
    execute_stage config get_pipeline_config pipeline_script_exists run
      write_json_file stage in
  get_pipeline_config stage = Ret pipeline_config ->
  pipeline_script_exists stage = true ->
  0 <= k <= stage_max_retries config pipeline_config ->
  (forall a, 0 <= a < k -> run stage a = false) ->
  run stage k = true ->
  fst outcome = true /\
  runs (snd outcome) = range (k + 1) /\
  slept (snd outcome) = 2 ^ (k + 1) - 2.
Proof.
  intros outcome Hconfig Hexists Hk Hfail Hok.
  assert (Hout : outcome =
                 (true, flat_map (failed_round (stage_timeout config pipeline_config))
                          (range (k + 1)))).
  { unfold outcome, execute_stage. rewrite Hconfig, Hexists. cbn [negb].
    rewrite (range_split k _ Hk), (range_snoc k) by lia.
    apply attempt_loop_first_success; [|exact Hok].
    intros a Ha. apply Hfail. now apply In_range. }
  rewrite Hout. cbn [fst snd].
  split; [reflexivity|]. split; [apply runs_failed_rounds|].
  apply slept_all_rounds. lia.
Qed.

Lemma execute_stage_stops_at_first_success_witness :
  let outcome :=
    execute_stage (mkWorkflowConfig 600 3 false) (fun _ => Ret None) (fun _ => true)
      (fun _ a => 2 <=? a) (fun _ => true) "plan" in
  fst outcome = true /\
  runs (snd outcome) = range (2 + 1) /\
  slept (snd outcome) = 2 ^ (2 + 1) - 2.
Proof.
  apply (execute_stage_stops_at_first_success (mkWorkflowConfig 600 3 false)
           (fun _ => Ret None) (fun _ => true) (fun _ a => 2 <=? a) (fun _ => true)
           "plan"%string None 2).
  - reflexivity.
  - reflexivity.
  - simpl. lia.
  - intros a Ha. apply Z.leb_gt. lia.
  - reflexivity.
Defined.

(** X18: a negative retry count leaves the stage no attempt at all:
    [execute_stage] returns [False] without running the pipeline script
    once. *)
Theorem execute_stage_negative_retries
    (config : WorkflowConfig) (get_pipeline_config : string -> res (option PipelineConfig))
    (pipeline_script_exists : string -> bool) (run : string -> Z -> bool)
    (write_json_file : string -> bool) (stage : string)
    (pipeline_config : option PipelineConfig) :
  get_pipeline_config stage = Ret pipeline_config ->
  pipeline_script_exists stage = true ->
  stage_max_retries config pipeline_config < 0 ->
  execute_stage config get_pipeline_config pipeline_script_exists run
    write_json_file stage = (false, []).
Proof.
  intros Hconfig Hexists Hneg.
  unfold execute_stage. rewrite Hconfig, Hexists. cbn [negb].
  unfold range. replace (Z.to_nat _) with 0%nat by lia. reflexivity.
Qed.

Lemma execute_stage_negative_retries_witness :
  execute_stage (mkWorkflowConfig 600 3 false)
    (fun _ => Ret (Some (mkPipelineConfig 300 (-1) []))) (fun _ => true)
    (fun _ _ => true) (fun _ => true) "plan" = (false, []).
Proof.
  apply (execute_stage_negative_retries (mkWorkflowConfig 600 3 false)
           (fun _ => Ret (Some (mkPipelineConfig 300 (-1) []))) (fun _ => true)
           (fun _ _ => true) (fun _ => true) "plan"%string
           (Some (mkPipelineConfig 300 (-1) []))).
  - reflexivity.
  - reflexivity.
  - simpl. lia.
Defined.

End RetryFacts.

(** *** Stopping and running a task *)
Module ControlFacts.
Import StateStore Records StateStoreFacts RecordsFacts TaskProcessor Control.
Import ProcessTaskFacts.
Local Open Scope list_scope.

(** X19: [stop_task] does not look at the task before it reports
    success: when terminating raises nothing it returns [True] also for a
    task without record, whose store it leaves unchanged; a task with a
    record gets the status cancelled whatever its status was, also
    completed, with stage lists, progress and error message untouched. *)
Theorem stop_task_reports_success {dirs : TaskDirs}
    (terminate_execution : string -> res unit) (id : string) (store : Store) :
  terminate_execution id = Ret tt ->
  (forall st, store !! task_dir id = Some st -> task_dir (adw_id st) = task_dir id) ->
  exists store',
    stop_task terminate_execution id store = (Ret true, store') /\
    match store !! task_dir id with
    | None => store' = store
    | Some st =>
        exists st',
          store' = <[task_dir id := st']> store /\
          workflow_status st' = value CANCELLED /\
          completed_stages st' = completed_stages st /\
          failed_stages st' = failed_stages st /\
          progress st' = progress st /\ error_message st' = error_message st
    end.
Proof.
  intros Hterm Hfiled.
  unfold stop_task, try_except. rewrite Hterm.
  set (m := UpdateStatus CANCELLED "Task execution cancelled by user" None).
  change (update_status id CANCELLED "Task execution cancelled by user" None)
    with (call id m).
  destruct (store !! task_dir id) as [st|] eqn:Hst.
  - pose proof (call_record id m store st Hst (Hfiled st eq_refl)) as E.
    change (outcome m st) with (Ret true : res bool) in E.
    rewrite (bind_run _ _ _ _ _ E). unfold ret.
    eexists. split; [reflexivity|].
    exists (record_after m st). split; [reflexivity|].
    cbn. auto.
  - pose proof (call_missing id m store Hst) as E.
    rewrite (bind_run _ _ _ _ _ E). unfold ret.
    eexists. split; reflexivity.
Qed.

Lemma stop_task_reports_success_witness :
  let store :=
    snd (process_task (dirs := plain_dirs) stop_on_failure (fun _ => Ret tt)
           (fun _ _ => true) (fun _ => false) demo_task ∅) in
  exists store',
    stop_task (dirs := plain_dirs) (fun _ => Ret tt) "t1" store = (Ret true, store') /\
    match store !! "t1"%string with
    | None => store' = store
    | Some st =>
        exists st',
          store' = <["t1"%string := st']> store /\
          workflow_status st' = value CANCELLED /\
          completed_stages st' = completed_stages st /\
          failed_stages st' = failed_stages st /\
          progress st' = progress st /\ error_message st' = error_message st
    end.
Proof.
  cbv zeta.
  apply (stop_task_reports_success (dirs := plain_dirs) (fun _ => Ret tt) "t1").
  - reflexivity.
  - intros st H. vm_compute in H. injection H as <-. reflexivity.
Defined.

(** X20: the status [execute_task] tracks agrees with the store: for a
    task with a non-empty id it ends as completed or failed, and the
    task's record then has that very workflow status. *)
Theorem execute_task_status_agrees {dirs : TaskDirs} (config : WorkflowConfig)
    (new_WorkflowLogger : string -> res unit)
    (stage_succeeds : nat -> string -> bool) (shutdown_is_set : nat -> bool)
    (task_data : Watcher.TaskData) (active_executions : gmap string string)
    (store : Store) :
  Watcher.adw_id task_data <> ""%string ->
  let '(active', store') :=
    execute_task config new_WorkflowLogger stage_succeeds shutdown_is_set task_data
      active_executions store in
  exists status st,
    active' !! Watcher.adw_id task_data = Some status /\
    (status = "completed"%string \/ status = "failed"%string) /\
    store' !! task_dir (Watcher.adw_id task_data) = Some st /\
    workflow_status st = status.
Proof.
  intros Hne.
  assert (Hwf : well_formed (Watcher.asdict task_data) (Watcher.adw_id task_data)).
  { unfold well_formed. rewrite WatcherFacts.asdict_only_keys.
    simpl. repeat split; congruence. }
  destruct (process_task_spec config new_WorkflowLogger stage_succeeds shutdown_is_set
              _ _ store Hwf)
    as (b & store2 & st & Hrun & Hst & _ & _ & _ & Hb).
  unfold execute_task. rewrite Hrun.
  destruct (new_WorkflowLogger (Watcher.adw_id task_data)) as [u|e].
  - destruct b.
    + exists "completed"%string, st. rewrite lookup_insert_eq.
      destruct Hb as [Hw _]. auto.
    + exists "failed"%string, st. rewrite lookup_insert_eq.
      destruct Hb as (Hw & _). auto.
  - destruct Hb as (-> & Hw & _).
    exists "failed"%string, st. rewrite lookup_insert_eq. auto.
Qed.

Lemma execute_task_status_agrees_witness :
  let '(active', store') :=
    execute_task (dirs := plain_dirs) stop_on_failure (fun _ => Ret tt)
      (fun i _ => Nat.eqb i 0) (fun _ => false) Watcher.demo_task_data ∅ ∅ in
  exists status st,
    active' !! "t1"%string = Some status /\
    (status = "completed"%string \/ status = "failed"%string) /\
    store' !! "t1"%string = Some st /\
    workflow_status st = status.
Proof.
  apply (execute_task_status_agrees (dirs := plain_dirs) stop_on_failure
           (fun _ => Ret tt) (fun i _ => Nat.eqb i 0) (fun _ => false)
           Watcher.demo_task_data ∅ ∅).
  discriminate.
Defined.

End ControlFacts.

(** *** What becomes of a trigger file *)
Module TriggerFacts.
Import Watcher WatcherFacts Triggers.
Local Open Scope list_scope.

Section Handling.

Variable observe : nat -> string -> observation.
Variable now : nat -> string -> Z.
Variable created_now : nat -> string -> string.
Variable name : string.

Lemma submitted_same_submissions (st st' : state) :
  submissions st' = submissions st -> submitted name st' = submitted name st.
Proof. unfold submitted. now intros ->. Qed.

(** Once marked, a trigger stays marked and is not submitted again. *)
Lemma handle_trigger_marked (i : nat) (st : state) (n : string) :
  name ∈ processed_triggers st ->
  (name ∈ processed_triggers (handle_trigger observe now created_now i st n)) /\
  submitted name (handle_trigger observe now created_now i st n) = submitted name st.
Proof.
  intros Hin. unfold handle_trigger.
  destruct (decide (n ∈ processed_triggers st)) as [Hn|Hn]; [auto|].
  assert (Hne : n <> name) by (intros ->; contradiction).
  destruct (observe i n) as [| | |d]; auto.
  - simpl. split; [set_solver|reflexivity].
  - destruct (new_TaskData (created_now i n) d) as [task_data|e]; [|auto].
    destruct (queue_task_execution (now i n) task_data (execution_queue st))
      as [[u|e] queue].
    + split; [simpl; set_solver|].
      rewrite submitted_snoc. destruct (string_dec n name); [contradiction|].
      rewrite Nat.add_0_r. reflexivity.
    + split; [exact Hin|].
      rewrite submitted_snoc. destruct (string_dec n name); [contradiction|].
      rewrite Nat.add_0_r. reflexivity.
Qed.

(** Handling another trigger does not mark this one. *)
Lemma handle_trigger_other (i : nat) (st : state) (n : string) :
  n <> name -> name ∉ processed_triggers st ->
  (name ∉ processed_triggers (handle_trigger observe now created_now i st n)) /\
  submitted name (handle_trigger observe now created_now i st n) = submitted name st.
Proof.
  intros Hne Hout. unfold handle_trigger.
  destruct (decide (n ∈ processed_triggers st)) as [Hn|Hn]; [auto|].
  destruct (observe i n) as [| | |d]; auto.
  - simpl. split; [|reflexivity].
    rewrite elem_of_union, elem_of_singleton. intros [Heq|Hin]; [congruence|contradiction].
  - destruct (new_TaskData (created_now i n) d) as [task_data|e]; [|auto].
    destruct (queue_task_execution (now i n) task_data (execution_queue st))
      as [[u|e] queue].
    + split.
      { simpl. rewrite elem_of_union, elem_of_singleton.
        intros [Heq|Hin]; [congruence|contradiction]. }
      rewrite submitted_snoc. destruct (string_dec n name); [contradiction|].
      rewrite Nat.add_0_r. reflexivity.
    + split; [exact Hout|].
      rewrite submitted_snoc. destruct (string_dec n name); [contradiction|].
      rewrite Nat.add_0_r. reflexivity.
Qed.

Lemma handle_trigger_skipped (i : nat) (st : state) :
  skipped (observe i name) -> handle_trigger observe now created_now i st name = st.
Proof.
  unfold handle_trigger, skipped.
  destruct (decide (name ∈ processed_triggers st)); [reflexivity|].
  destruct (observe i name) as [| | |d]; try reflexivity; [contradiction|].
  destruct (new_TaskData "" d) as [task_data|e] eqn:Hnew; [contradiction|].
  rewrite (new_TaskData_raises _ (created_now i name) _ _ Hnew). reflexivity.
Qed.

(** What handling a trigger leaves in the queue: the entries that were
    there and at most one more, queued at the time of the call. *)
Lemma handle_trigger_queue (P : TaskProcessor.Entry -> Prop) (i : nat) (st : state)
    (n : string) :
  (forall e, TaskProcessor.queued_at e = now i n -> P e) ->
  Forall P (execution_queue st) ->
  Forall P (execution_queue (handle_trigger observe now created_now i st n)).
Proof.
  intros Hnew Hq. unfold handle_trigger.
  destruct (decide (n ∈ processed_triggers st)); [assumption|].
  destruct (observe i n) as [| | |d]; try assumption.
  destruct (new_TaskData (created_now i n) d) as [task_data|e]; [|assumption].
  assert (Hput : Forall P (snd (queue_task_execution (now i n) task_data
                                  (execution_queue st))))
    by (apply queue_task_execution_Forall; assumption).
  destruct (queue_task_execution (now i n) task_data (execution_queue st))
    as [[u|e] queue]; exact Hput.
Qed.

Lemma fold_marked (i : nat) (names : list string) :
  forall st,
    name ∈ processed_triggers st ->
    (name ∈ processed_triggers
              (fold_left (handle_trigger observe now created_now i) names st)) /\
    submitted name (fold_left (handle_trigger observe now created_now i) names st)
    = submitted name st.
Proof.
  induction names as [|n names IH]; intros st Hin; simpl; [auto|].
  destruct (handle_trigger_marked i st n Hin) as [Hin' Hsub'].
  destruct (IH _ Hin') as [Hin2 Hsub2]. split; [assumption|congruence].
Qed.

(** The round in which an unmarked trigger is listed: what handling it
    once leaves, the rest of the listing keeps.  [P] is a property of the
    waiting entries that handling the other triggers keeps. *)
Lemma fold_first_listing (P : TaskProcessor.Entry -> Prop) (i : nat)
    (names : list string) (count : nat) :
  (forall n e, n <> name -> TaskProcessor.queued_at e = now i n -> P e) ->
  (forall st, name ∉ processed_triggers st -> submitted name st = 0%nat ->
              Forall P (execution_queue st) ->
              (name ∈ processed_triggers
                        (handle_trigger observe now created_now i st name)) /\
              submitted name (handle_trigger observe now created_now i st name) = count) ->
  forall st,
    In name names -> name ∉ processed_triggers st -> submitted name st = 0%nat ->
    Forall P (execution_queue st) ->
    (name ∈ processed_triggers
              (fold_left (handle_trigger observe now created_now i) names st)) /\
    submitted name (fold_left (handle_trigger observe now created_now i) names st) = count.
Proof.
  intros Hothers Hhandle.
  induction names as [|n names IH]; intros st Hin Hout Hzero Hq; simpl; [destruct Hin|].
  destruct (string_dec n name) as [->|Hne].
  - destruct (Hhandle st Hout Hzero Hq) as [Hin' Hsub'].
    destruct (fold_marked i names _ Hin') as [Hin2 Hsub2].
    split; [assumption|congruence].
  - destruct Hin as [Heq|Hin]; [contradiction|].
    destruct (handle_trigger_other i st n Hne Hout) as [Hout' Hsub'].
    apply IH; [assumption|assumption|congruence|].
    apply handle_trigger_queue; [|assumption].
    intros e He. exact (Hothers n e Hne He).
Qed.

End Handling.

Lemma poll_marked (glob : nat -> res (list string))
    (observe : nat -> string -> observation) (now : nat -> string -> Z)
    (created_now : nat -> string -> string) (name : string)
    (i : nat) (st : state) :
  name ∈ processed_triggers st ->
  (name ∈ processed_triggers (poll glob observe now created_now i st)) /\
  submitted name (poll glob observe now created_now i st) = submitted name st.
Proof.
  intros Hin. unfold poll. destruct (glob i) as [names|e]; [|auto].
  now apply fold_marked.
Qed.

Lemma monitor_from_marked (glob : nat -> res (list string))
    (observe : nat -> string -> observation) (now : nat -> string -> Z)
    (created_now : nat -> string -> string) (name : string)
    (rounds : nat) :
  forall i st,
    name ∈ processed_triggers st ->
    submitted name (monitor_from glob observe now created_now rounds i st)
    = submitted name st.
Proof.
  induction rounds as [|rounds IH]; intros i st Hin; simpl; [reflexivity|].
  destruct (poll_marked glob observe now created_now name i st Hin) as [Hin' Hsub'].
  rewrite (IH _ _ Hin'). exact Hsub'.
Qed.

(** X21: a trigger whose task file reads as a complete task, handled at
    a clock reading that no waiting entry and no other trigger of the
    round has, is submitted in the very round that first lists it: after
    that round it is marked as processed and has caused exactly one call
    of [queue_task_execution], and later rounds add no other. *)
Theorem readable_trigger_is_submitted
    (glob : nat -> res (list string)) (observe : nat -> string -> observation)
    (now : nat -> string -> Z) (created_now : nat -> string -> string)
    (i later : nat) (st : state) (names : list string)
    (name : string) (task_data_dict : StateStore.TaskDict) (task_data : TaskData) :
  glob i = Ret names -> In name names ->
  name ∉ processed_triggers st -> submitted name st = 0%nat ->
  observe i name = TaskFile task_data_dict ->
  new_TaskData (created_now i name) task_data_dict = Ret task_data ->
  Forall (fun e => TaskProcessor.queued_at e <> now i name) (execution_queue st) ->
  (forall n, n <> name -> now i n <> now i name) ->
  (name ∈ processed_triggers (poll glob observe now created_now i st)) /\
  submitted name (poll glob observe now created_now i st) = 1%nat /\
  submitted name
    (monitor_from glob observe now created_now later (S i)
       (poll glob observe now created_now i st))
  = 1%nat.
Proof.
  intros Hglob Hin Hout Hzero Hobs Hnew Hqueue Hclock.
  assert (Hpoll : name ∈ processed_triggers (poll glob observe now created_now i st) /\
                  submitted name (poll glob observe now created_now i st) = 1%nat).
  { unfold poll. rewrite Hglob.
    apply (fold_first_listing observe now created_now name
             (fun e => TaskProcessor.queued_at e <> now i name)); try assumption.
    - intros n e Hne He. rewrite He. apply Hclock, Hne.
    - intros st0 Hout0 Hzero0 Hq0. unfold handle_trigger.
      destruct (decide (name ∈ processed_triggers st0)); [contradiction|].
      rewrite Hobs, Hnew.
      pose proof (queue_task_execution_returns (now i name) task_data
                    (execution_queue st0) Hq0) as Hret.
      destruct (queue_task_execution (now i name) task_data (execution_queue st0))
        as [[u|e] queue]; [|discriminate Hret].
      split; [simpl; set_solver|].
      rewrite submitted_snoc. destruct (string_dec name name); [|contradiction].
      unfold submitted in *. simpl. rewrite Hzero0. reflexivity. }
  destruct Hpoll as [Hmarked Hone].
  split; [assumption|]. split; [assumption|].
  rewrite (monitor_from_marked glob observe now created_now name later (S i) _ Hmarked).
  exact Hone.
Qed.

Lemma readable_trigger_is_submitted_witness :
  let glob := fun _ : nat => Ret ["trigger_0.json"; "trigger_1.json"]%string in
  let observe := fun (_ : nat) (_ : string) =>
    TaskFile (StateStore.mkTaskDict (Some "t1") (Some "Add login")
                (Some "Add a login form") (Some "feature") (Some "high")
                (Some ["plan"; "implement"]))%string in
  let now := fun (i : nat) (name : string) =>
    (10 * Z.of_nat i + (if String.eqb name "trigger_1.json" then 1 else 0))%Z in
  let created_now := fun (_ : nat) (_ : string) => "2025-03-01T10:00:00"%string in
  "trigger_1.json"%string
    ∈ processed_triggers (poll glob observe now created_now 0 (initial [])) /\
  submitted "trigger_1.json" (poll glob observe now created_now 0 (initial [])) = 1%nat /\
  submitted "trigger_1.json"
    (monitor_from glob observe now created_now 5 1
       (poll glob observe now created_now 0 (initial []))) = 1%nat.
Proof.
  cbv zeta.
  apply (readable_trigger_is_submitted _ _ _ _ 0 5 (initial [])
           ["trigger_0.json"; "trigger_1.json"]%string "trigger_1.json"
           (StateStore.mkTaskDict (Some "t1") (Some "Add login")
              (Some "Add a login form") (Some "feature") (Some "high")
              (Some ["plan"; "implement"]))%string
           demo_task_data).
  - reflexivity.
  - simpl. auto.
  - simpl. set_solver.
  - reflexivity.
  - reflexivity.
  - reflexivity.
  - constructor.
  - intros n Hn. destruct (String.eqb_spec n "trigger_1.json") as [->|_];
      [contradiction|]. simpl. discriminate.
Defined.

(** X22: a trigger that cannot be handled (it does not parse, its task
    file is missing, or [TaskData] does not accept the task) is never
    marked as processed: as long as that lasts the watcher handles it
    again in every round that lists it, and submits nothing for it. *)
Theorem skipped_trigger_is_retried
    (glob : nat -> res (list string)) (observe : nat -> string -> observation)
    (now : nat -> string -> Z) (created_now : nat -> string -> string) (rounds : nat)
    (execution_queue : list TaskProcessor.Entry) (name : string) :
  (forall i, skipped (observe i name)) ->
  let st := monitor_file_triggers glob observe now created_now rounds execution_queue in
  (name ∉ processed_triggers st) /\ submitted name st = 0%nat.
Proof.
  intros Hskip. cbv zeta. unfold monitor_file_triggers.
  assert (Hgen : forall rounds i st,
             (name ∉ processed_triggers st) /\ submitted name st = 0%nat ->
             (name ∉ processed_triggers
                       (monitor_from glob observe now created_now rounds i st)) /\
             submitted name (monitor_from glob observe now created_now rounds i st)
             = 0%nat).
  { clear rounds. induction rounds as [|rounds IH]; intros i st Hst; simpl; [exact Hst|].
    apply IH. unfold poll. destruct (glob i) as [names|e]; [|exact Hst].
    clear IH. revert st Hst.
    induction names as [|n names IHn]; intros st [Hout Hzero]; simpl; [auto|].
    apply IHn. destruct (string_dec n name) as [->|Hne].
    - rewrite handle_trigger_skipped by apply Hskip. auto.
    - destruct (handle_trigger_other observe now created_now name i st n Hne Hout)
        as [H1 H2].
      split; [assumption|congruence]. }
  apply Hgen. split; [set_solver|reflexivity].
Qed.

Lemma skipped_trigger_is_retried_witness :
  let st :=
    monitor_file_triggers (fun _ => Ret ["trigger_1.json"%string])
      (fun _ _ => TaskFile (StateStore.mkTaskDict (Some "t1"%string) None
                              (Some "D"%string) None None None))
      (fun i _ => Z.of_nat i) (fun _ _ => "2025-03-01T10:00:00"%string) 4 [] in
  ("trigger_1.json"%string ∉ processed_triggers st) /\
  submitted "trigger_1.json" st = 0%nat.
Proof.
  apply (skipped_trigger_is_retried (fun _ => Ret ["trigger_1.json"%string])
           (fun _ _ => TaskFile (StateStore.mkTaskDict (Some "t1"%string) None
                                   (Some "D"%string) None None None))
           (fun i _ => Z.of_nat i) (fun _ _ => "2025-03-01T10:00:00"%string)
           4 [] "trigger_1.json").
  intros i. exact I.
Defined.

(** X23: a trigger whose task file is empty when first listed is marked
    as processed without a submission, and so is dropped for good:
    whatever the task file holds in later rounds, nothing is ever
    submitted for it. *)
Theorem empty_task_file_drops_trigger
    (glob : nat -> res (list string)) (observe : nat -> string -> observation)
    (now : nat -> string -> Z) (created_now : nat -> string -> string)
    (i later : nat) (st : state) (names : list string)
    (name : string) :
  glob i = Ret names -> In name names ->
  name ∉ processed_triggers st -> submitted name st = 0%nat ->
  observe i name = TaskFileEmpty ->
  (name ∈ processed_triggers (poll glob observe now created_now i st)) /\
  submitted name
    (monitor_from glob observe now created_now later (S i)
       (poll glob observe now created_now i st))
  = 0%nat.
Proof.
  intros Hglob Hin Hout Hzero Hobs.
  assert (Hpoll : name ∈ processed_triggers (poll glob observe now created_now i st) /\
                  submitted name (poll glob observe now created_now i st) = 0%nat).
  { unfold poll. rewrite Hglob.
    apply (fold_first_listing observe now created_now name (fun _ => True));
      try assumption.
    - intros n e _ _. exact I.
    - intros st0 Hout0 Hzero0 _. unfold handle_trigger.
      destruct (decide (name ∈ processed_triggers st0)); [contradiction|].
      rewrite Hobs. split; [simpl; set_solver|exact Hzero0].
    - apply Forall_forall. intros e _. exact I. }
  destruct Hpoll as [Hmarked Hnone].
  split; [assumption|].
  rewrite (monitor_from_marked glob observe now created_now name later (S i) _ Hmarked).
  exact Hnone.
Qed.

Lemma empty_task_file_drops_trigger_witness :
  let glob := fun _ : nat => Ret ["trigger_1.json"%string] in
  let observe := fun (i : nat) (_ : string) =>
    if Nat.eqb i 0 then TaskFileEmpty
    else TaskFile (StateStore.mkTaskDict (Some "t1") (Some "T") (Some "D")
                     None None None)%string in
  let now := fun (i : nat) (_ : string) => Z.of_nat i in
  let created_now := fun (_ : nat) (_ : string) => "2025-03-01T10:00:00"%string in
  "trigger_1.json"%string
    ∈ processed_triggers (poll glob observe now created_now 0 (initial [])) /\
  submitted "trigger_1.json"
    (monitor_from glob observe now created_now 5 1
       (poll glob observe now created_now 0 (initial []))) = 0%nat.
Proof.
  cbv zeta.
  apply (empty_task_file_drops_trigger _ _ _ _ 0 5 (initial [])
           ["trigger_1.json"%string] "trigger_1.json").
  - reflexivity.
  - simpl. auto.
  - simpl. set_solver.
  - reflexivity.
  - reflexivity.
Defined.

End TriggerFacts.

(** *** Workflow phases of [ADWState] *)
Module PhasesFacts.
Import Ports Phases StateStoreFacts.
Local Open Scope list_scope.

(** The record a phase call saves. *)
Lemma phase_step_record (id : string) (c : phase_call) (self : ADWState)
    (state : ADWStateData) :
  agents self !! id = Some state -> adw_id state = id ->
  exists state',
    phase_step id c self = (true, mkADWState (<[id := state']> (agents self))) /\
    adw_id state' = id /\
    (forall p, In p (completed_phases state) -> In p (completed_phases state')) /\
    match c with
    | UpdatePhase _ _ =>
        completed_phases state' = completed_phases state /\
        failed_phases state' = failed_phases state
    | CompletePhase phase =>
        In (phase_value phase) (completed_phases state') /\
        (List.NoDup (failed_phases state) ->
         ~ In (phase_value phase) (failed_phases state')) /\
        workflow_status state' = workflow_status state /\
        error_message state' = error_message state
    | FailPhase phase message =>
        completed_phases state' = completed_phases state /\
        In (phase_value phase) (failed_phases state') /\
        workflow_status state' = StateStore.value StateStore.FAILED /\
        error_message state' = Some message
    end.
Proof.
  intros Hst Hid. destruct c as [phase status|phase|phase message]; simpl.
  - unfold update_phase, load_state. rewrite Hst. unfold save_state. simpl.
    rewrite Hid. eexists. split; [reflexivity|]. simpl. auto.
  - unfold complete_phase, load_state. rewrite Hst.
    destruct (StateStore.mem (phase_value phase) (completed_phases state)) eqn:Hc;
      simpl negb; cbv iota;
      destruct (StateStore.mem (phase_value phase) (failed_phases state)) eqn:Hf;
      cbn -[StateStore.mem StateStore.remove_first]; rewrite ?Hc, ?Hf;
      unfold save_state; cbn -[StateStore.mem StateStore.remove_first];
      rewrite Hid; eexists; (split; [reflexivity|]);
      cbn -[StateStore.mem StateStore.remove_first].
    + split; [assumption|]. split; [auto|]. split; [now apply mem_In|].
      split; [|auto]. intros Hnd.
      now apply RecordsFacts.remove_first_absent.
    + split; [assumption|]. split; [auto|]. split; [now apply mem_In|].
      split; [|auto]. intros _. now apply mem_not_In.
    + split; [assumption|]. split; [intros p Hp; apply in_app_iff; now left|].
      split; [apply in_app_iff; right; now left|].
      split; [|auto]. intros Hnd.
      now apply RecordsFacts.remove_first_absent.
    + split; [assumption|]. split; [intros p Hp; apply in_app_iff; now left|].
      split; [apply in_app_iff; right; now left|].
      split; [|auto]. intros _. now apply mem_not_In.
  - unfold fail_phase, load_state. rewrite Hst.
    destruct (StateStore.mem (phase_value phase) (failed_phases state)) eqn:Hf;
      simpl negb; cbv iota; unfold save_state; cbn -[StateStore.mem];
      rewrite Hid; eexists; (split; [reflexivity|]); cbn -[StateStore.mem].
    + split; [assumption|]. split; [auto|]. split; [reflexivity|].
      split; [now apply mem_In|]. auto.
    + split; [assumption|]. split; [auto|]. split; [reflexivity|].
      split; [apply in_app_iff; right; now left|]. auto.
Qed.

Lemma phase_steps_grow (id : string) (cs : list phase_call) :
  forall (self : ADWState) (state : ADWStateData),
    agents self !! id = Some state -> adw_id state = id ->
    exists state',
      agents (phase_steps id cs self) !! id = Some state' /\ adw_id state' = id /\
      forall p, In p (completed_phases state) -> In p (completed_phases state').
Proof.
  induction cs as [|c cs IH]; intros self state Hst Hid.
  - exists state. auto.
  - destruct (phase_step_record id c self state Hst Hid) as (st1 & E & Hid1 & Hgrow & _).
    unfold phase_steps. cbn [fold_left]. rewrite E. cbn [snd].
    destruct (IH (mkADWState (<[id := st1]> (agents self))) st1) as (st2 & H2 & Hid2 & Hgrow2).
    + simpl. apply lookup_insert_eq.
    + exact Hid1.
    + exists st2. split; [exact H2|]. split; [exact Hid2|]. auto.
Qed.

(** X24: [ADWState] never takes a phase out of [completed_phases]:
    whatever sequence of [update_phase], [complete_phase] and
    [fail_phase] calls follows, a completed phase stays completed.  So a
    phase that fails after it was completed is listed both as completed
    and as failed, with the status failed. *)
Theorem completed_phases_only_grow (id : string) (self : ADWState)
    (state : ADWStateData) :
  agents self !! id = Some state -> adw_id state = id ->
  (forall (cs : list phase_call) (p : string),
      In p (completed_phases state) ->
      exists state',
        agents (phase_steps id cs self) !! id = Some state' /\
        In p (completed_phases state')) /\
  (forall (phase : WorkflowPhase) (message : string),
      exists state',
        agents (phase_steps id [CompletePhase phase; FailPhase phase message] self) !! id
        = Some state' /\
        In (phase_value phase) (completed_phases state') /\
        In (phase_value phase) (failed_phases state') /\
        workflow_status state' = StateStore.value StateStore.FAILED).
Proof.
  intros Hst Hid. split.
  - intros cs p Hp.
    destruct (phase_steps_grow id cs self state Hst Hid) as (state' & H & _ & Hgrow).
    exists state'. auto.
  - intros phase message.
    destruct (phase_step_record id (CompletePhase phase) self state Hst Hid)
      as (st1 & E1 & Hid1 & _ & Hin1 & _).
    destruct (phase_step_record id (FailPhase phase message)
                (mkADWState (<[id := st1]> (agents self))) st1)
      as (st2 & E2 & Hid2 & _ & Hc2 & Hf2 & Hw2 & _).
    { simpl. apply lookup_insert_eq. }
    { exact Hid1. }
    exists st2. unfold phase_steps. cbn [fold_left]. rewrite E1. cbn [snd].
    rewrite E2. cbn [snd agents]. rewrite lookup_insert_eq.
    split; [reflexivity|]. rewrite Hc2. auto.
Qed.

Lemma completed_phases_only_grow_witness :
  let state :=
    mkADWStateData "adw_1" None None None (Some 9103) (Some 9203) "executing" "build"
      ["plan"]%string [] ["adw_1"]%string None in
  let self := mkADWState {[ "adw_1"%string := state ]} in
  (forall (cs : list phase_call) (p : string),
      In p (completed_phases state) ->
      exists state',
        agents (phase_steps "adw_1" cs self) !! "adw_1"%string = Some state' /\
        In p (completed_phases state')) /\
  (forall (phase : WorkflowPhase) (message : string),
      exists state',
        agents (phase_steps "adw_1" [CompletePhase phase; FailPhase phase message] self)
          !! "adw_1"%string = Some state' /\
        In (phase_value phase) (completed_phases state') /\
        In (phase_value phase) (failed_phases state') /\
        workflow_status state' = StateStore.value StateStore.FAILED).
Proof.
  cbv zeta.
  apply (completed_phases_only_grow "adw_1").
  - vm_compute. reflexivity.
  - reflexivity.
Defined.

End PhasesFacts.

(** *** The ports [get_available_ports] reports *)
Module AvailablePortsFacts.
Import Ports AvailablePorts.
Local Open Scope list_scope.

Lemma In_port_range (lo hi p : Z) : In p (range lo hi) <-> lo <= p < hi.
Proof.
  unfold range. rewrite in_map_iff. split.
  - intros (i & <- & Hi). apply in_seq in Hi. lia.
  - intros Hp. exists (Z.to_nat (p - lo)). split; [lia|]. apply in_seq. lia.
Qed.

(** What the loop collects from a list of records. *)
Lemma used_fold (port : ADWStateData -> option Z) (entries : list (string * ADWStateData)) :
  forall (acc : gset Z) (p : Z),
    p ∈ fold_left
          (fun used_ports '(_, state) =>
             if truthy_port (port state)
             then {[ default 0 (port state) ]} ∪ used_ports
             else used_ports) entries acc
    <-> p ∈ acc \/
        (p <> 0 /\ exists id state, In (id, state) entries /\ port state = Some p).
Proof.
  induction entries as [|[id state] entries IH]; intros acc p; simpl.
  - split; [auto|]. intros [H|(_ & id & state & [] & _)]. exact H.
  - rewrite IH. unfold truthy_port.
    destruct (port state) as [q|] eqn:Hq.
    + destruct (q =? 0) eqn:H0; simpl.
      * apply Z.eqb_eq in H0. subst q. split.
        -- intros [H|(Hne & id' & st' & Hin & Hp)]; [now left|].
           right. split; [assumption|]. exists id', st'. auto.
        -- intros [H|(Hne & id' & st' & [Heq|Hin] & Hp)]; [now left| |].
           ++ injection Heq as <- <-. congruence.
           ++ right. split; [assumption|]. exists id', st'. auto.
      * apply Z.eqb_neq in H0. rewrite elem_of_union, elem_of_singleton. split.
        -- intros [[->|H]|(Hne & id' & st' & Hin & Hp)].
           ++ right. split; [assumption|]. exists id, state. auto.
           ++ now left.
           ++ right. split; [assumption|]. exists id', st'. auto.
        -- intros [H|(Hne & id' & st' & [Heq|Hin] & Hp)].
           ++ left. now right.
           ++ injection Heq as <- <-. left. left. congruence.
           ++ right. split; [assumption|]. exists id', st'. auto.
    + split.
      * intros [H|(Hne & id' & st' & Hin & Hp)]; [now left|].
        right. split; [assumption|]. exists id', st'. auto.
      * intros [H|(Hne & id' & st' & [Heq|Hin] & Hp)]; [now left| |].
        -- injection Heq as <- <-. congruence.
        -- right. split; [assumption|]. exists id', st'. auto.
Qed.

Lemma used_spec (port : ADWStateData -> option Z) (self : ADWState) (p : Z) :
  p ∈ used port self <-> p <> 0 /\ held port self p.
Proof.
  unfold used, held. rewrite used_fold. split.
  - intros [H|(Hne & id & state & Hin & Hp)]; [now apply not_elem_of_empty in H|].
    split; [assumption|]. exists id, state. split; [|assumption].
    apply elem_of_map_to_list. now apply list_elem_of_In.
  - intros (Hne & id & state & Hst & Hp). right. split; [assumption|].
    exists id, state. split; [|assumption].
    apply list_elem_of_In. now apply elem_of_map_to_list.
Qed.

(** X25: [get_available_ports] reports a backend port as available
    exactly when it lies in 9100..9114 and no task whose state loads
    holds it, and a frontend port exactly when it lies in 9200..9214 and
    no such task holds it. *)
Theorem get_available_ports_spec (self : ADWState) (p : Z) :
  (In p (backend (get_available_ports self)) <->
   9100 <= p <= 9114 /\ ~ held backend_port self p) /\
  (In p (frontend (get_available_ports self)) <->
   9200 <= p <= 9214 /\ ~ held frontend_port self p).
Proof.
  unfold get_available_ports. simpl. split.
  - rewrite <- list_elem_of_In, list_elem_of_filter, list_elem_of_In, In_port_range, used_spec.
    split.
    + intros [Hfree Hp]. split; [lia|]. intros Hheld. apply Hfree. split; [lia|assumption].
    + intros [Hp Hfree]. split; [|lia]. intros [_ Hheld]. contradiction.
  - rewrite <- list_elem_of_In, list_elem_of_filter, list_elem_of_In, In_port_range, used_spec.
    split.
    + intros [Hfree Hp]. split; [lia|]. intros Hheld. apply Hfree. split; [lia|assumption].
    + intros [Hp Hfree]. split; [|lia]. intros [_ Hheld]. contradiction.
Qed.

End AvailablePortsFacts.

(** *** Branch names *)
Module BranchNameFacts.
Import BranchName.
Local Open Scope list_scope.

Lemma chars_app (a b : string) : chars (a ++ b)%string = chars a ++ chars b.
Proof. unfold chars. induction a as [|c a IH]; simpl; [reflexivity|]. now rewrite IH. Qed.

(** Replacing brings in no character that is not in the text or in the
    replacement. *)
Lemma replace_from_chars (old new : string) (s : string) :
  forall skip x,
    In x (chars (replace_from old new skip s)) -> In x (chars s) \/ In x (chars new).
Proof.
  induction s as [|c s IH]; intros skip x; simpl; [tauto|].
  destruct skip as [|skip].
  - match goal with |- context [if ?b then _ else _] => destruct b end.
    + rewrite chars_app, in_app_iff. intros [H|H]; [now right|].
      destruct (IH _ _ H); [left; now right|now right].
    + simpl. intros [H|H]; [left; now left|].
      destruct (IH _ _ H); [left; now right|now right].
  - intros H. destruct (IH _ _ H); [left; now right|now right].
Qed.

(** Replacing a character by a text without it leaves none of it. *)
Lemma replace_char_gone (c : ascii) (new s : string) :
  ~ In c (chars new) -> ~ In c (chars (replace (String c "") new s)).
Proof.
  intros Hnew. unfold replace. induction s as [|d s IH]; simpl; [tauto|].
  destruct (ascii_dec c d) as [<-|Hne].
  - destruct s; simpl; rewrite chars_app, in_app_iff; tauto.
  - simpl. intros [H|H]; [congruence|contradiction].
Qed.

Lemma lower_char_not_upper (c : ascii) : is_upper (lower_char c) = false.
Proof.
  unfold lower_char. destruct (is_upper c) eqn:Hc; [|exact Hc].
  unfold is_upper in *. apply andb_true_iff in Hc. destruct Hc as [H1 H2].
  apply Nat.leb_le in H1, H2.
  rewrite nat_ascii_embedding by lia.
  apply andb_false_iff. right. apply Nat.leb_gt. lia.
Qed.

Lemma lower_not_upper (s : string) (x : ascii) :
  In x (chars (lower s)) -> is_upper x = false.
Proof.
  induction s as [|c s IH]; simpl; [tauto|].
  intros [<-|H]; [apply lower_char_not_upper|now apply IH].
Qed.

(** X26: a branch name that [generate_branch_name] returns holds no
    space, no underscore and no ASCII capital letter, whatever the id,
    the issue number and the task type are. *)
Theorem generate_branch_name_is_sanitised (adw_id : string) (issue_number : option Z)
    (task_type : string) :
  Forall (fun x => x <> " "%char /\ x <> "_"%char /\ is_upper x = false)
    (chars (generate_branch_name adw_id issue_number task_type)).
Proof.
  unfold generate_branch_name.
  match goal with |- context [lower ?b] => generalize b end.
  intros b. apply List.Forall_forall. intros x Hx. split; [|split].
  - intros ->. unfold replace in Hx.
    apply replace_from_chars in Hx. destruct Hx as [Hx|Hx].
    + revert Hx. apply (replace_char_gone " "%char "-"). simpl. intros [H|[]]. discriminate.
    + simpl in Hx. destruct Hx as [H|[]]. discriminate.
  - intros ->. revert Hx. apply (replace_char_gone "_"%char "-").
    simpl. intros [H|[]]. discriminate.
  - unfold replace in Hx.
    apply replace_from_chars in Hx. destruct Hx as [Hx|Hx].
    + apply replace_from_chars in Hx. destruct Hx as [Hx|Hx].
      * eapply lower_not_upper, Hx.
      * simpl in Hx. destruct Hx as [<-|[]]. reflexivity.
    + simpl in Hx. destruct Hx as [<-|[]]. reflexivity.
Qed.

(** X27: [generate_branch_name] is not injective in the task id: it
    takes every [adw_] out of an id that starts with it, so an id that
    starts with [adw_] and the id with one more [adw_] in front get the
    same branch name. *)
Theorem generate_branch_name_collides (adw_id : string) (issue_number : option Z)
    (task_type : string) :
  String.prefix "adw_" adw_id = true ->
  ("adw_" ++ adw_id)%string <> adw_id /\
  generate_branch_name ("adw_" ++ adw_id) issue_number task_type =
  generate_branch_name adw_id issue_number task_type.
Proof.
  intros Hp.
  change ("adw_" ++ adw_id)%string
    with (String "a" (String "d" (String "w" (String "_" adw_id)))).
  set (longer := String "a" (String "d" (String "w" (String "_" adw_id)))).
  assert (Hpre : String.prefix "adw_" longer = true).
  { unfold longer. simpl. now destruct adw_id. }
  split.
  - intros Heq. apply (f_equal String.length) in Heq. unfold longer in Heq.
    simpl in Heq. lia.
  - unfold generate_branch_name. rewrite Hp, Hpre.
    assert (Hclean : replace "adw_" "" longer = replace "adw_" "" adw_id).
    { unfold replace. unfold longer at 1. cbn [replace_from]. fold longer.
      rewrite Hpre. reflexivity. }
    rewrite Hclean. reflexivity.
Qed.

Lemma generate_branch_name_collides_witness :
  ("adw_" ++ "adw_42")%string <> "adw_42"%string /\
  generate_branch_name ("adw_" ++ "adw_42") (Some 7) "feature" =
  generate_branch_name "adw_42" (Some 7) "feature".
Proof.
  apply (generate_branch_name_collides "adw_42" (Some 7) "feature").
  reflexivity.
Defined.

Example generate_branch_name_sample :
  generate_branch_name "adw_Fix_Login 2" (Some 12) "Feature" = "feature-12-fix-login-2"%string.
Proof. reflexivity. Qed.

End BranchNameFacts.

(** *** The worktrees read from git's output *)
Module PorcelainFacts.
Import Porcelain.
Local Open Scope list_scope.

Lemma paths_app (a b : list Worktree) : paths (a ++ b) = paths a ++ paths b.
Proof. unfold paths. apply omap_app. Qed.

Lemma paths_flush (worktrees : list Worktree) (current : Worktree) :
  paths (if has_keys current then worktrees ++ [current] else worktrees)
  = paths (worktrees ++ [current]).
Proof.
  destruct current as [[p|] [b|] [h|]]; simpl; try reflexivity.
  rewrite paths_app. simpl. now rewrite app_nil_r.
Qed.

Lemma read_lines_paths (lines : list string) :
  forall worktrees current,
    let '(worktrees', current') := fold_left read_line lines (worktrees, current) in
    paths (worktrees' ++ [current'])
    = paths (worktrees ++ [current])
      ++ map (slice_from 9) (List.filter (String.prefix "worktree ") lines).
Proof.
  induction lines as [|line lines IH]; intros worktrees current.
  - simpl. now rewrite app_nil_r.
  - cbn [fold_left List.filter]. unfold read_line at 2.
    destruct (String.prefix "worktree " line) eqn:Hw.
    + specialize (IH (if has_keys current then worktrees ++ [current] else worktrees)
                    (mkWorktree (Some (slice_from 9 line)) None None)).
      destruct (fold_left read_line lines _) as [worktrees' current'].
      rewrite IH, paths_app, paths_flush. cbn [map]. unfold paths at 2. cbn [omap path].
      rewrite <- app_assoc. reflexivity.
    + destruct (String.prefix "branch " line).
      * specialize (IH worktrees
                      (mkWorktree (path current) (Some (slice_from 7 line)) (head current))).
        destruct (fold_left read_line lines _) as [worktrees' current'].
        rewrite IH, !paths_app. reflexivity.
      * destruct (String.prefix "HEAD " line).
        -- specialize (IH worktrees
                         (mkWorktree (path current) (branch current)
                            (Some (slice_from 5 line)))).
           destruct (fold_left read_line lines _) as [worktrees' current'].
           rewrite IH, !paths_app. reflexivity.
        -- specialize (IH worktrees current).
           destruct (fold_left read_line lines _) as [worktrees' current'].
           exact IH.
Qed.

(** X28: when git succeeds, the paths of the entries [list_worktrees]
    returns are the texts after [worktree ] of the output lines that
    start with it, one entry per such line and in the order of the
    lines; when git fails or cannot be run, the list is empty. *)
Theorem list_worktrees_paths (returncode : Z) (lines : list string) :
  paths (list_worktrees (Some (0, lines)))
    = map (slice_from 9) (List.filter (String.prefix "worktree ") lines) /\
  (returncode <> 0 -> list_worktrees (Some (returncode, lines)) = []) /\
  list_worktrees None = [].
Proof.
  split; [|split].
  - unfold list_worktrees. cbn [Z.eqb].
    pose proof (read_lines_paths lines [] no_keys) as H.
    destruct (fold_left read_line lines ([], no_keys)) as [worktrees current].
    rewrite paths_flush, H. reflexivity.
  - intros Hne. unfold list_worktrees.
    destruct (returncode =? 0) eqn:E; [|reflexivity].
    apply Z.eqb_eq in E. contradiction.
  - reflexivity.
Qed.

Lemma list_worktrees_paths_witness :
  let lines :=
    ["worktree /repo"; "HEAD 1a2b3c"; "branch refs/heads/main"; "";
     "worktree /repo/trees/adw_1"; "HEAD 4d5e6f"; "detached"]%string in
  paths (list_worktrees (Some (0, lines)))
    = map (slice_from 9) (List.filter (String.prefix "worktree ") lines) /\
  (128 <> 0 -> list_worktrees (Some (128, lines)) = []) /\
  list_worktrees None = [].
Proof.
  cbv zeta.
  apply (list_worktrees_paths 128).
Defined.

Example list_worktrees_sample :
  list_worktrees
    (Some (0, ["worktree /repo"; "HEAD 1a2b3c"; "branch refs/heads/main"; "";
               "worktree /repo/trees/adw_1"; "HEAD 4d5e6f"; "detached"]%string))
  = [mkWorktree (Some "/repo") (Some "refs/heads/main") (Some "1a2b3c");
     mkWorktree (Some "/repo/trees/adw_1") None (Some "4d5e6f")]%string.
Proof. reflexivity. Qed.

End PorcelainFacts.

(** *** Saving a state and loading it back *)
Module RoundTripFacts.
Import Persist.

(** X29: [save_state] and [load_state] round-trip: when the JSON text of
    a record decodes back to it, [load_state] right after [save_state]
    returns the saved record, and what [load_state] returns for every
    task id whose state file is another one is as before the save. *)
Theorem save_state_then_load_state (Record_ : Type) (adw_id : Record_ -> string)
    (dumps : Record_ -> string) (decode : string -> option Record_)
    (agents_dir file_name : string) (joinpath : string -> string -> string)
    (state : Record_) (files : gmap string string) :
  is_blank (dumps state) = false -> decode (dumps state) = Some state ->
  let saved :=
    snd (save_state Record_ adw_id dumps agents_dir file_name joinpath state files) in
  load_state Record_ decode agents_dir file_name joinpath saved (adw_id state)
    = Some state /\
  forall id,
    _get_state_file agents_dir file_name joinpath id
      <> _get_state_file agents_dir file_name joinpath (adw_id state) ->
    load_state Record_ decode agents_dir file_name joinpath saved id
    = load_state Record_ decode agents_dir file_name joinpath files id.
Proof.
  intros Hblank Hdecode. cbv zeta. unfold load_state, save_state. simpl. split.
  - rewrite lookup_insert_eq. unfold json_load. now rewrite Hblank.
  - intros id Hne. rewrite lookup_insert_ne; [reflexivity|]. congruence.
Qed.

Lemma save_state_then_load_state_witness :
  let dumps := fun text : string => ("{" ++ text ++ "}")%string in
  let decode := fun text : string =>
    Some (substring 1 (String.length text - 2) text) in
  let files : gmap string string := {[ "agents/t2/state.json"%string := "{t2}"%string ]} in
  let saved :=
    snd (save_state string (fun s => s) dumps "agents" "state.json" slash_join "t1"
           files) in
  load_state string decode "agents" "state.json" slash_join saved "t1"
    = Some "t1"%string /\
  forall id,
    _get_state_file "agents" "state.json" slash_join id
      <> _get_state_file "agents" "state.json" slash_join "t1" ->
    load_state string decode "agents" "state.json" slash_join saved id
    = load_state string decode "agents" "state.json" slash_join files id.
Proof.
  cbv zeta.
  apply (save_state_then_load_state string (fun s => s)
           (fun text : string => ("{" ++ text ++ "}")%string)
           (fun text : string => Some (substring 1 (String.length text - 2) text))
           "agents" "state.json" slash_join "t1"%string).
  - reflexivity.
  - reflexivity.
Defined.

(** Two ids that [pathlib] joins to one path share the state file: a
    save for one of them changes what the other one loads. *)
Example ids_of_one_path_share_the_file :
  let dumps := fun text : string => ("{" ++ text ++ "}")%string in
  let decode := fun text : string =>
    Some (substring 1 (String.length text - 2) text) in
  let saved :=
    snd (save_state string (fun s => s) dumps "agents" "state.json" pure_join "t1/" ∅) in
  load_state string decode "agents" "state.json" pure_join ∅ "t1" = None /\
  load_state string decode "agents" "state.json" pure_join saved "t1" = Some "t1/"%string.
Proof. cbv zeta. split; vm_compute; reflexivity. Qed.

End RoundTripFacts.

(** *** Writing a JSON file *)
Module FileOpsFacts.
Import FileOps.

(** X30: [write_json_file] with backup and atomic write, when the
    temporary path and the backup path are not the target and differ:
    it returns [True]; the target holds the new document; a target that
    existed is kept, with its old content, under the backup path; no file
    is left under the temporary path, also when one was there before;
    every other file is as it was. *)
Theorem write_json_file_postcondition (Doc : Type) (dumps : Doc -> string)
    (with_suffix : string -> string -> string) (stamp : string)
    (file_path : string) (data : Doc) (files : gmap string string) :
  let backup_path := with_suffix file_path (".backup." ++ stamp)%string in
  let temp_path := with_suffix file_path ".tmp" in
  temp_path <> file_path -> backup_path <> file_path -> backup_path <> temp_path ->
  let '(ok, files') :=
    write_json_file Doc dumps with_suffix stamp file_path data true true files in
  ok = true /\
  files' !! file_path = Some (dumps data) /\
  files' !! temp_path = None /\
  files' !! backup_path =
    match files !! file_path with
    | Some content => Some content
    | None => files !! backup_path
    end /\
  forall path,
    path <> file_path -> path <> temp_path -> path <> backup_path ->
    files' !! path = files !! path.
Proof.
  intros backup_path temp_path Htemp Hbackup Hdiff.
  unfold write_json_file, copy2. fold backup_path temp_path. cbn [andb].
  destruct (files !! file_path) as [content|] eqn:Hfile.
  - rewrite bool_decide_eq_true_2 by eauto.
    destruct (decide (file_path = backup_path)) as [Heq|_]; [congruence|].
    rewrite lookup_insert_eq.
    split; [reflexivity|]. split; [apply lookup_insert_eq|].
    split; [rewrite lookup_insert_ne by congruence; apply lookup_delete_eq|].
    split.
    + rewrite lookup_insert_ne by congruence.
      rewrite lookup_delete_ne by congruence.
      rewrite lookup_insert_ne by congruence. apply lookup_insert_eq.
    + intros path H1 H2 H3.
      rewrite lookup_insert_ne by congruence.
      rewrite lookup_delete_ne by congruence.
      rewrite !lookup_insert_ne by congruence. reflexivity.
  - rewrite bool_decide_eq_false_2 by (intros [? ?]; discriminate).
    rewrite lookup_insert_eq.
    split; [reflexivity|]. split; [apply lookup_insert_eq|].
    split; [rewrite lookup_insert_ne by congruence; apply lookup_delete_eq|].
    split.
    + rewrite lookup_insert_ne by congruence.
      rewrite lookup_delete_ne by congruence.
      rewrite lookup_insert_ne by congruence. reflexivity.
    + intros path H1 H2 H3.
      rewrite lookup_insert_ne by congruence.
      rewrite lookup_delete_ne by congruence.
      rewrite !lookup_insert_ne by congruence. reflexivity.
Qed.

Lemma write_json_file_postcondition_witness :
  let with_suffix := fun (p suffix : string) => (substring 0 5 p ++ suffix)%string in
  let files : gmap string string :=
    {[ "state.json"%string := "old"%string; "state.tmp"%string := "notes"%string ]} in
  let '(ok, files') :=
    write_json_file string (fun s => s) with_suffix "17" "state.json" "new" true true files in
  ok = true /\
  files' !! "state.json"%string = Some "new"%string /\
  files' !! "state.tmp"%string = None /\
  files' !! "state.backup.17"%string =
    match files !! "state.json"%string with
    | Some content => Some content
    | None => files !! "state.backup.17"%string
    end /\
  forall path,
    path <> "state.json"%string -> path <> "state.tmp"%string ->
    path <> "state.backup.17"%string ->
    files' !! path = files !! path.
Proof.
  cbv zeta.
  apply (write_json_file_postcondition string (fun s => s)
           (fun (p suffix : string) => (substring 0 5 p ++ suffix)%string) "17"
           "state.json" "new"
           {[ "state.json"%string := "old"%string; "state.tmp"%string := "notes"%string ]}).
  - discriminate.
  - discriminate.
  - discriminate.
Defined.

End FileOpsFacts.
